(** * Mini AI Studio: generation-job lifecycle, Job API and client controller

    A shallow embedding of the TypeScript sources

    - backend/src/middleware/errorHandler.ts, backend/src/middleware/auth.ts
    - backend/src/utils/validation.ts
    - backend/src/models/User.ts, backend/src/models/Generation.ts
    - backend/src/controllers/authController.ts, generationsController.ts
    - frontend/src/components/Studio.tsx

    Promises are modelled by their settled value ([Resolve] / [Reject]),
    the SQLite tables by lists of rows in insertion order, React state by
    a record, and a React event handler by a function of the render
    snapshot it closes over. *)

From Stdlib Require Import String Ascii List Bool Arith NArith ZArith Lia.
From Stdlib Require Import Sorting.Sorted Sorting.Permutation.
From Stdlib Require QArith.QArith_base.
Import ListNotations.

Local Open Scope string_scope.
Local Open Scope list_scope.
Local Open Scope nat_scope.

(* ================================================================= *)
(** ** JavaScript values used by the sources *)

Module Js.

(** White space and line terminators as [String.prototype.trim] and
    [parseInt] strip them, among the code units below 256: TAB, LF, VT,
    FF, CR, SPACE and the no-break space U+00A0. *)
Definition is_space (c : ascii) : bool :=
  let n := nat_of_ascii c in
  ((9 <=? n) && (n <=? 13)) || (n =? 32) || (n =? 160).

Fixpoint trimStart (s : string) : string :=
  match s with
  | EmptyString => EmptyString
  | String c s' => if is_space c then trimStart s' else s
  end.

(** [trimEnd] drops a character when it is a space and everything after
    it was dropped as well. *)
Fixpoint trimEnd (s : string) : string :=
  match s with
  | EmptyString => EmptyString
  | String c s' =>
      match trimEnd s' with
      | EmptyString => if is_space c then EmptyString else String c EmptyString
      | t => String c t
      end
  end.

Definition trim (s : string) : string := trimEnd (trimStart s).

(** [s.includes(sub)] *)
Fixpoint includes (s sub : string) : bool :=
  String.prefix sub s ||
  match s with
  | EmptyString => false
  | String _ s' => includes s' sub
  end.

(** [s.split(sep)] for a one-character separator. *)
Fixpoint split_on (sep : ascii) (s : string) : list string :=
  match s with
  | EmptyString => [""]
  | String c s' =>
      if Ascii.eqb c sep then "" :: split_on sep s'
      else match split_on sep s' with
           | h :: t => String c h :: t
           | [] => [String c ""]
           end
  end.

(** Remove the [n]-th element of a list. *)
Fixpoint remove_nth {A} (n : nat) (l : list A) : list A :=
  match n, l with
  | _, [] => []
  | O, _ :: t => t
  | S n', h :: t => h :: remove_nth n' t
  end.

(** Truthiness of a string and of a number. *)
Definition truthy (s : string) : bool := negb (String.eqb s "").
Definition truthy_num (n : nat) : bool := negb (n =? 0).

(** [s || null] on a possibly absent string. *)
Definition or_null (s : option string) : option string :=
  match s with
  | Some v => if truthy v then Some v else None
  | None => None
  end.

(** Decimal rendering of a number inside a template literal.  The fuel
    is the number of binary digits, which bounds the decimal ones. *)
Definition digit_char (d : N) : ascii := ascii_of_N (48 + d).

Fixpoint show_N_fuel (fuel : nat) (n : N) (acc : string) : string :=
  match fuel with
  | O => acc
  | S fuel' =>
      let acc' := String (digit_char (n mod 10)) acc in
      if (n <? 10)%N then acc' else show_N_fuel fuel' (n / 10) acc'
  end.

Definition show_N (n : N) : string :=
  show_N_fuel (S (N.to_nat (N.size n))) n "".

Definition show_nat (n : nat) : string := show_N (N.of_nat n).

(** A settled promise, or the outcome of a call that may throw. *)
Inductive result (E A : Type) : Type :=
| Resolve (a : A)
| Reject (e : E).
Arguments Resolve {E A} a.
Arguments Reject {E A} e.

Definition bind {E A B} (r : result E A) (k : A -> result E B) : result E B :=
  match r with
  | Resolve a => k a
  | Reject e => Reject e
  end.

End Js.

Notation "x <- r ;; k" := (Js.bind r (fun x => k))
  (at level 61, r at next level, right associativity).

(** [process.env.NODE_ENV]: the values the sources compare it with,
    ['production'], and [Unset] for anything else. *)
Inductive node_env : Type := Production | Development | Test | Unset.

Definition is_test (e : node_env) : bool :=
  match e with Test => true | _ => false end.
Definition is_development (e : node_env) : bool :=
  match e with Development => true | _ => false end.

(* ================================================================= *)
(** ** middleware/errorHandler.ts *)

Module ErrorHandler.

(** The constructor an error object was built with.  The three
    jsonwebtoken classes form a hierarchy: [TokenExpiredError] and
    [NotBeforeError] inherit from [JsonWebTokenError]. *)
Inductive error_class : Type :=
| PlainError | AppErrorClass | ZodErrorClass | SqliteError
| JsonWebTokenError | TokenExpiredError | NotBeforeError.

(** An error object.  [stack] keeps the source line of the [throw] (the
    top frame of the trace); [issues] is the array that
    [JSON.parse(err.message)] yields for a ZodError (one [message] per
    issue). *)
Record error : Type := mkError {
  cls : error_class;
  name : string;
  message : string;
  statusCode : option nat;
  stack : nat;
  issues : list string
}.

(** [new AppError(message, statusCode)] thrown at source line [line]. *)
Definition AppError (msg : string) (code line : nat) : error :=
  mkError AppErrorClass "Error" msg (Some code) line [].

(** [new Error(message)] *)
Definition Error_ (msg : string) (line : nat) : error :=
  mkError PlainError "Error" msg None line [].

(** The error [schema.parse] throws, one message per failed check. *)
Definition ZodError (msgs : list string) (raw : string) (line : nat) : error :=
  mkError ZodErrorClass "ZodError" raw None line msgs.

(** The JSON body of an error response. *)
Record error_body : Type := mkErrorBody {
  eb_success : bool;
  eb_message : string;
  eb_stack : option nat
}.

Record error_response : Type := mkErrorResponse {
  er_status : nat;
  er_body : error_body
}.

(** [err.statusCode || 500] *)
Definition statusCode_or_500 (c : option nat) : nat :=
  match c with
  | Some n => if Js.truthy_num n then n else 500
  | None => 500
  end.

Definition errorHandler (env : node_env) (err : error) : error_response :=
  let statusCode := statusCode_or_500 (statusCode err) in
  let message := message err in
  (* Handle Zod validation errors *)
  let '(statusCode, message) :=
    if String.eqb (name err) "ZodError" then
      (400, match issues err with
            | m :: _ => m
            | [] => "Validation error"
            end)
    else (statusCode, message) in
  (* Handle SQLite constraint errors *)
  let '(statusCode, message) :=
    if Js.includes (ErrorHandler.message err)
         "UNIQUE constraint failed: users.email"
    then (400, "User with this email already exists")
    else (statusCode, message) in
  let '(statusCode, message) :=
    if Js.includes (ErrorHandler.message err)
         "UNIQUE constraint failed: generations.id"
    then (500, "Generation ID conflict")
    else (statusCode, message) in
  (* Handle not found errors *)
  let statusCode :=
    if Js.includes (ErrorHandler.message err) "not found"
       || Js.includes (ErrorHandler.message err) "Not found"
    then 404 else statusCode in
  (* Handle JWT errors *)
  let '(statusCode, message) :=
    if String.eqb (name err) "JsonWebTokenError" then (401, "Invalid token")
    else (statusCode, message) in
  let '(statusCode, message) :=
    if String.eqb (name err) "TokenExpiredError" then (401, "Token expired")
    else (statusCode, message) in
  mkErrorResponse statusCode
    (mkErrorBody false
       (if (statusCode =? 500) then "Internal server error" else message)
       (if is_development env then Some (stack err) else None)).

End ErrorHandler.

(* ================================================================= *)
(** ** utils/validation.ts *)

Module Validation.
Import Js ErrorHandler.

(** The type of a value that is not a string, as zod names it in its
    messages: a field sent more than once arrives as an array, a
    bracketed one as an object, and a JSON body can hold the others. *)
Inductive other_type : Type :=
| AnArray | AnObject | ANumber | ABoolean | ANull.

Definition received (t : other_type) : string :=
  match t with
  | AnArray => "array"
  | AnObject => "object"
  | ANumber => "number"
  | ABoolean => "boolean"
  | ANull => "null"
  end.

(** A field of [req.body] or [req.query]: absent, a string, or a value
    of another type. *)
Inductive field : Type :=
| Absent
| Str (s : string)
| NotAString (t : other_type).

(** The message of zod's [invalid_type] issue for a field that should
    be a string. *)
Definition expected_string (t : other_type) : string :=
  ("Invalid input: expected string, received " ++ received t)%string.

Definition styles : list string :=
  ["realistic"; "artistic"; "cartoon"; "vintage"].

Definition is_style (s : string) : bool :=
  existsb (String.eqb s) styles.

(** Issues of [z.string().min(1, ..).max(500, ..)] on the prompt. *)
Definition prompt_issues (f : field) : list string :=
  match f with
  | Str p =>
      (if String.length p <? 1 then ["Prompt is required"] else [])
      ++ (if 500 <? String.length p then ["Prompt too long"] else [])
  | Absent => ["Invalid input: expected string, received undefined"]
  | NotAString t => [expected_string t]
  end.

(** Issues of [z.enum([...], { message })] on the style. *)
Definition style_issues (f : field) : list string :=
  match f with
  | Str s => if is_style s then [] else ["Invalid style option"]
  | _ => ["Invalid style option"]
  end.

Record create_body : Type := mkCreateBody {
  body_prompt : field;
  body_style : field
}.

(** [createGenerationSchema.parse(req.body)].  The raw message of the
    ZodError is the JSON text of its issues; the model keeps the messages
    joined by commas in its place. *)
Definition createGenerationSchema_parse (b : create_body)
  : result error (string * string) :=
  let msgs := prompt_issues (body_prompt b) ++ style_issues (body_style b) in
  match body_prompt b, body_style b, msgs with
  | Str p, Str s, [] => Resolve (p, s)
  | _, _, _ => Reject (ZodError msgs (String.concat "," msgs) 49)
  end.

(** *** [parseInt(val, 10)] *)

Definition digit_of (c : ascii) : option Z :=
  let n := nat_of_ascii c in
  if (48 <=? n) && (n <=? 57) then Some (Z.of_nat (n - 48)) else None.

(** The number read so far, 0 before the first digit. *)
Definition acc_value (a : option Z) : Z :=
  match a with Some x => x | None => 0%Z end.

(** Value of the longest prefix of decimal digits, [None] when the
    string does not start with a digit. *)
Fixpoint digits_prefix (acc : option Z) (s : string) : option Z :=
  match s with
  | EmptyString => acc
  | String c s' =>
      match digit_of c with
      | Some d =>
          digits_prefix (Some (10 * acc_value acc + d)%Z) s'
      | None => acc
      end
  end.

(** [None] stands for [NaN]. *)
Definition parseInt (val : string) : option Z :=
  match trimStart val with
  | String "-" s => option_map Z.opp (digits_prefix None s)
  | String "+" s => digits_prefix None s
  | s => digits_prefix None s
  end.

(** The [transform] attached to [limit]:
    [Math.min(Math.max(num, 1), 20)], and 5 for a falsy or non-numeric
    value. *)
Definition limit_transform (val : option string) : Z :=
  match val with
  | None => 5
  | Some v =>
      if negb (truthy v) then 5
      else match parseInt v with
           | None => 5
           | Some num => Z.min (Z.max num 1) 20
           end
  end%Z.

(** [getGenerationsSchema.parse(req.query)] *)
Definition getGenerationsSchema_parse (limit : field) : result error Z :=
  match limit with
  | Absent => Resolve (limit_transform None)
  | Str v => Resolve (limit_transform (Some v))
  | NotAString t =>
      Reject (ZodError [expected_string t] (expected_string t) 122)
  end.

Record file : Type := mkFile {
  mimetype : string;
  size : nat;
  path : string
}.

Definition validateImageFile (f : file) : option string :=
  let allowedTypes := ["image/jpeg"; "image/jpg"; "image/png"] in
  let maxSize := 10 * 1024 * 1024 in
  if negb (existsb (String.eqb (mimetype f)) allowedTypes) then
    Some "Only JPEG and PNG files are allowed"
  else if maxSize <? size f then
    Some "File size must be less than 10MB"
  else None.

End Validation.

(* ================================================================= *)
(** ** models/User.ts and models/Generation.ts

    A table is the list of its rows.  A statement fails for the reasons
    the schema gives (a duplicate primary key) or reports no row.  The
    [err] that SQLite itself may hand to a callback is an input of
    [updateStatus_io], the write of the job processor; the other
    functions are given for an engine that reports none. *)

Module Models.
Import Js ErrorHandler.

Record User : Type := mkUser {
  u_id : nat;
  u_email : string;
  u_password : string;
  u_created_at : string
}.

Module UserModel.

(** [SELECT * FROM users WHERE email = ?], [resolve(row || null)] *)
Definition findByEmail (users : list User) (email : string) : option User :=
  find (fun u => String.eqb (u_email u) email) users.

Definition findById (users : list User) (id : nat) : result error User :=
  match find (fun u => u_id u =? id) users with
  | Some u => Resolve u
  | None => Reject (Error_ "User not found" 69)
  end.

End UserModel.

(** [Generation['status']] and the text stored in the [status] column. *)
Inductive Status : Type := processing | completed | failed.

Definition status_text (s : Status) : string :=
  match s with
  | processing => "processing"
  | completed => "completed"
  | failed => "failed"
  end.

(** A row of the [generations] table. *)
Record Generation : Type := mkGeneration {
  id : string;
  user_id : nat;
  prompt : string;
  style : string;
  image_path : option string;
  result_image_path : option string;
  status : string;
  created_at : string
}.

Record CreateGenerationData : Type := mkCreateGenerationData {
  cg_id : string;
  cg_user_id : nat;
  cg_prompt : string;
  cg_style : string;
  cg_image_path : option string
}.

Definition table : Type := list Generation.

Module GenerationModel.

Definition has_id (i : string) (g : Generation) : bool := String.eqb (id g) i.

Definition findById (db : table) (i : string) : result error Generation :=
  match find (has_id i) db with
  | Some row => Resolve row
  | None => Reject (Error_ "Generation not found" 67)
  end.

(** [INSERT INTO generations (...) VALUES (?, ?, ?, ?, ?, 'processing')]
    under [id TEXT PRIMARY KEY]; [now] is [CURRENT_TIMESTAMP]. *)
Definition create (db : table) (now : string) (d : CreateGenerationData)
  : table * result error Generation :=
  if existsb (has_id (cg_id d)) db then
    (db, Reject (mkError SqliteError "Error"
                   "SQLITE_CONSTRAINT: UNIQUE constraint failed: generations.id"
                   None 32 []))
  else
    let db' := db ++ [mkGeneration (cg_id d) (cg_user_id d) (cg_prompt d)
                        (cg_style d) (or_null (cg_image_path d)) None
                        "processing" now] in
    (db', findById db' (cg_id d)).

(** Stable insertion sort, newest [created_at] first; the column is TEXT
    and compares as such. *)
Fixpoint insert_desc (g : Generation) (l : list Generation) : list Generation :=
  match l with
  | [] => [g]
  | h :: t =>
      if String.leb (created_at h) (created_at g) then g :: h :: t
      else h :: insert_desc g t
  end.

Fixpoint order_by_created_at_desc (l : list Generation) : list Generation :=
  match l with
  | [] => []
  | g :: t => insert_desc g (order_by_created_at_desc t)
  end.

(** [a] may precede [b] in a listing that is newest first. *)
Definition newest_first (a b : Generation) : Prop :=
  String.leb (created_at b) (created_at a) = true.

(** [LIMIT ?]: a negative limit means no limit in SQLite. *)
Definition sql_limit {A} (n : Z) (l : list A) : list A :=
  if (n <? 0)%Z then l else firstn (Z.to_nat n) l.

(** [SELECT * FROM generations WHERE user_id = ?
     ORDER BY created_at DESC LIMIT ?] *)
Definition findByUserId (db : table) (userId : nat) (limit : Z)
  : list Generation :=
  sql_limit limit
    (order_by_created_at_desc (filter (fun g => user_id g =? userId) db)).

(** [UPDATE generations SET status = ?, result_image_path = ? WHERE id = ?] *)
Definition set_status (i : string) (st : Status) (res : option string)
  (g : Generation) : Generation :=
  if has_id i g then
    mkGeneration (id g) (user_id g) (prompt g) (style g) (image_path g)
      (or_null res) (status_text st) (created_at g)
  else g.

(** What SQLite hands to the two callbacks of one [updateStatus]: the
    [err] of [stmt.run] and the [err] of the [db.get] that reads the row
    back; [None] is a null [err]. *)
Record store_errors : Type := mkStoreErrors {
  run_err : option error;
  get_err : option error
}.

(** The engine reports no error. *)
Definition store_answers : store_errors := mkStoreErrors None None.

(** [GenerationModel.updateStatus].  A statement that SQLite refuses
    changes nothing; the read-back runs after the UPDATE has taken
    effect. *)
Definition updateStatus_io (errs : store_errors) (db : table) (i : string)
  (st : Status) (resultImagePath : option string)
  : table * result error Generation :=
  match run_err errs with
  | Some err => (db, Reject err)
  | None =>
      let changes := List.length (filter (has_id i) db) in
      if changes =? 0 then (db, Reject (Error_ "Generation not found" 111))
      else
        let db' := map (set_status i st resultImagePath) db in
        (* Get the updated generation *)
        match get_err errs with
        | Some err => (db', Reject err)
        | None => (db', findById db' i)
        end
  end.

(** [updateStatus] on an engine that reports no error. *)
Definition updateStatus (db : table) (i : string) (st : Status)
  (resultImagePath : option string) : table * result error Generation :=
  updateStatus_io store_answers db i st resultImagePath.

End GenerationModel.

End Models.

(* ================================================================= *)
(** ** HTTP responses *)

Module Http.
Import Js ErrorHandler Models.

Record user_view : Type := mkUserView {
  uv_id : nat;
  uv_email : string;
  uv_created_at : string
}.

(** The job summary of the create response. *)
Record generation_summary : Type := mkSummary {
  gs_id : string;
  gs_prompt : string;
  gs_style : string;
  gs_status : string;
  gs_created_at : string
}.

(** The transformed job of the list and fetch responses. *)
Record generation_view : Type := mkView {
  gv_id : string;
  gv_prompt : string;
  gv_style : string;
  gv_status : string;
  gv_imageUrl : option string;
  gv_resultImageUrl : option string;
  gv_created_at : string
}.

Inductive body : Type :=
| AuthData (message : string) (user : user_view) (token : string)
| ProfileData (user : user_view)
| GenerationStarted (generation : generation_summary)
| GenerationList (generations : list generation_view) (total : nat)
| GenerationData (generation : generation_view).

Inductive response : Type :=
| Json (status : nat) (b : body)
| Failure (r : error_response).

Definition status_of (r : response) : nat :=
  match r with
  | Json st _ => st
  | Failure e => er_status e
  end.

Definition message_of (r : response) : option string :=
  match r with
  | Json _ (AuthData m _ _) => Some m
  | Json _ _ => None
  | Failure e => Some (eb_message (er_body e))
  end.

(** [asyncHandler(fn)] followed by the error middleware: a rejection of
    the handler goes to [next] and from there to [errorHandler]. *)
Definition asyncHandler (env : node_env) (r : result error (nat * body))
  : response :=
  match r with
  | Resolve (st, b) => Json st b
  | Reject e => Failure (errorHandler env e)
  end.

End Http.

(* ================================================================= *)
(** ** middleware/auth.ts *)

Module Auth.
Import Js ErrorHandler Models.

(** What a signed token carries: the payload, its expiry ([exp], in
    seconds) and the key it was signed with. *)
Record token : Type := mkToken {
  tok_userId : nat;
  tok_email : string;
  tok_exp : Z;
  tok_key : string
}.

Record auth_user : Type := mkAuthUser {
  au_id : nat;
  au_email : string
}.

(** [authHeader.split(' ')] *)
Definition split_space (s : string) : list string := split_on " " s.

(** [authHeader && authHeader.split(' ')[1]], with a falsy value mapped
    to [None]. *)
Definition bearer_token (authHeader : option string) : option string :=
  match authHeader with
  | None => None
  | Some h =>
      if truthy h then
        match nth_error (split_space h) 1 with
        | Some t => if truthy t then Some t else None
        | None => None
        end
      else None
  end.

(** [error instanceof jwt.JsonWebTokenError]: true for the class and for
    its two subclasses, whose prototypes jsonwebtoken creates from
    [JsonWebTokenError.prototype]. *)
Definition instanceof_JsonWebTokenError (e : error) : bool :=
  match cls e with
  | JsonWebTokenError | TokenExpiredError | NotBeforeError => true
  | _ => false
  end.

Section Jsonwebtoken.

(** The wire format of the jsonwebtoken library: a string either decodes
    to a token or is malformed. *)
Variable jwt_decode : string -> option token.
Variable jwt_encode : token -> string.

(** [jwt.verify(token, secret)] at clock [now]: signature first, expiry
    second. *)
Definition jwt_verify (now : Z) (secret : string) (s : string)
  : result error token :=
  match jwt_decode s with
  | None =>
      Reject (mkError JsonWebTokenError "JsonWebTokenError" "jwt malformed"
                None 28 [])
  | Some t =>
      if negb (String.eqb (tok_key t) secret) then
        Reject (mkError JsonWebTokenError "JsonWebTokenError"
                  "invalid signature" None 28 [])
      else if (tok_exp t <=? now)%Z then
        Reject (mkError TokenExpiredError "TokenExpiredError" "jwt expired"
                  None 28 [])
      else Resolve t
  end.

(** [jwt.sign({ userId, email }, JWT_SECRET, { expiresIn: '7d' })] *)
Definition generateToken (now : Z) (secret : string) (userId : nat)
  (email : string) : string :=
  jwt_encode (mkToken userId email (now + 7 * 24 * 3600)%Z secret).

(** The middleware: [Resolve u] is [req.user = u; next()], [Reject e] is
    [next(e)]. *)
Definition authenticateToken (users : list User) (now : Z) (secret : string)
  (authHeader : option string) : result error auth_user :=
  let attempt :=
    match bearer_token authHeader with
    | None => Reject (AppError "Access token required" 401 25)
    | Some tok =>
        decoded <- jwt_verify now secret tok ;;
        user <- UserModel.findById users (tok_userId decoded) ;;
        Resolve (mkAuthUser (u_id user) (u_email user))
    end in
  match attempt with
  | Resolve u => Resolve u
  | Reject e =>
      if instanceof_JsonWebTokenError e
      then Reject (AppError "Invalid token" 401 41)
      else Reject e
  end.

End Jsonwebtoken.

End Auth.

(* ================================================================= *)
(** ** controllers/authController.ts *)

Module AuthController.
Import Js ErrorHandler Validation Models Http Auth.

Record login_body : Type := mkLoginBody {
  lb_email : field;
  lb_password : field
}.

Section Libraries.

(** [bcrypt.compare(password, hash)], zod's e-mail format check and the
    token encoder. *)
Variable bcrypt_compare : string -> string -> bool.
Variable is_email : string -> bool.
Variable jwt_encode : token -> string.

Definition email_issues (f : field) : list string :=
  match f with
  | Str e => if is_email e then [] else ["Invalid email format"]
  | Absent => ["Invalid input: expected string, received undefined"]
  | NotAString t => [expected_string t]
  end.

Definition password_issues (f : field) : list string :=
  match f with
  | Str p => if String.length p <? 1 then ["Password is required"] else []
  | Absent => ["Invalid input: expected string, received undefined"]
  | NotAString t => [expected_string t]
  end.

Definition loginSchema_parse (b : login_body) : result error (string * string) :=
  let msgs := email_issues (lb_email b) ++ password_issues (lb_password b) in
  match lb_email b, lb_password b, msgs with
  | Str e, Str p, [] => Resolve (e, p)
  | _, _, _ => Reject (ZodError msgs (String.concat "," msgs) 48)
  end.

Definition login_handler (users : list User) (now : Z) (secret : string)
  (b : login_body) : result error (nat * body) :=
  (* Validate input *)
  match loginSchema_parse b with
  | Reject e => Reject e
  | Resolve (email, password) =>
      (* Find user *)
      match UserModel.findByEmail users email with
      | None => Reject (AppError "Invalid email or password" 401 54)
      | Some user =>
          (* Verify password *)
          if negb (bcrypt_compare password (u_password user)) then
            Reject (AppError "Invalid email or password" 401 60)
          else
            (* Generate token *)
            let token := generateToken jwt_encode now secret (u_id user)
                           (u_email user) in
            Resolve (200, AuthData "Login successful"
                            (mkUserView (u_id user) (u_email user)
                               (u_created_at user)) token)
      end
  end.

Definition login (env : node_env) (users : list User) (now : Z)
  (secret : string) (b : login_body) : response :=
  asyncHandler env (login_handler users now secret b).

(** The two ways a validated login fails. *)
Definition no_such_user (users : list User) (email : string) : Prop :=
  UserModel.findByEmail users email = None.

Definition wrong_password (users : list User) (email password : string)
  : Prop :=
  exists user, UserModel.findByEmail users email = Some user
               /\ bcrypt_compare password (u_password user) = false.

(** The answer to a failed login whose error was thrown at [line]. *)
Definition login_rejection (env : node_env) (line : nat) : response :=
  Failure (mkErrorResponse 401
             (mkErrorBody false "Invalid email or password"
                (if is_development env then Some line else None))).

Variable jwt_decode : string -> option token.

Definition me_handler (users : list User) (user : option auth_user)
  : result error (nat * body) :=
  match user with
  | Some u =>
      if truthy_num (au_id u) then
        user <- UserModel.findById users (au_id u) ;;
        Resolve (200, ProfileData (mkUserView (u_id user) (u_email user)
                                     (u_created_at user)))
      else Reject (AppError "User not authenticated" 401 84)
  | None => Reject (AppError "User not authenticated" 401 84)
  end.

(** [router.get('/me', authenticateToken, me)] followed by the error
    middleware. *)
Definition me (env : node_env) (users : list User) (now : Z)
  (secret : string) (authHeader : option string) : response :=
  match authenticateToken jwt_decode users now secret authHeader with
  | Reject e => Failure (errorHandler env e)
  | Resolve u => asyncHandler env (me_handler users (Some u))
  end.

End Libraries.

(** A decoder for two sample tokens: one signed with the server key
    ["server-key"] that expires at second 1000, one signed with another
    key. *)
Definition sample_decode (s : string) : option token :=
  if String.eqb s "expired-token" then
    Some (mkToken 1 "a@example.com" 1000 "server-key")
  else if String.eqb s "tampered-token" then
    Some (mkToken 1 "a@example.com" 999999 "other-key")
  else None.

Definition sample_users : list User :=
  [mkUser 1 "a@example.com" "$2a$12$hash" "2024-01-01 10:00:00"].

End AuthController.

(* ================================================================= *)
(** ** controllers/generationsController.ts *)

Module Generations.
Import Js ErrorHandler Validation Models Http Auth.
Import GenerationModel.

(** What one run of the processor draws from its surroundings: the value
    of [Math.random()] compared with the failure rate, [Date.now()], and
    the outcome of [fs.copyFile(src, dest)]. *)
Record world : Type := mkWorld {
  random : QArith_base.Q;
  now_ms : N;
  copyFile : string -> string -> result error unit
}.

Record sim_result : Type := mkSim {
  success : bool;
  resultPath : option string
}.

Definition failureRate (env : node_env) : QArith_base.Q :=
  if is_test env then QArith_base.Qmake 1 10 else QArith_base.Qmake 2 10.

(** [Math.random() < failureRate] *)
Definition shouldFail (env : node_env) (w : world) : bool :=
  negb (QArith_base.Qle_bool (failureRate env) (random w)).

Definition simulateProcessing (env : node_env) (w : world) : sim_result :=
  if shouldFail env w then mkSim false None
  else mkSim true (Some ("result_" ++ show_N (now_ms w) ++ ".jpg")%string).

(** Forget the row a resolved store call returns. *)
Definition await_ {A} (r : result error A) : result error unit :=
  match r with
  | Resolve _ => Resolve tt
  | Reject e => Reject e
  end.

(** A background task handed off by [createGeneration]:
    [(generationId, originalImagePath)]. *)
Definition task : Type := (string * string)%type.

Section Path.

(** Node's [path.join], [path.dirname] and [path.basename]. *)
Variable path_join : string -> string -> string.
Variable path_dirname : string -> string.
Variable path_basename : string -> string.

(** The body of the [try] block of [processGeneration]; [errs] is what
    SQLite reports to the one [updateStatus] the block reaches. *)
Definition processGeneration_try_io (env : node_env) (w : world)
  (errs : store_errors) (db : table)
  (generationId originalImagePath : string) : table * result error unit :=
  let result := simulateProcessing env w in
  match success result, or_null (resultPath result) with
  | true, Some rp =>
      (* Copy original image to simulate result *)
      let resultPath := path_join (path_dirname originalImagePath) rp in
      match copyFile w originalImagePath resultPath with
      | Reject e => (db, Reject e)
      | Resolve _ =>
          let '(db', r) :=
            updateStatus_io errs db generationId completed (Some resultPath) in
          (db', await_ r)
      end
  | _, _ =>
      let '(db', r) := updateStatus_io errs db generationId failed None in
      (db', await_ r)
  end.

(** [processGeneration]: the store afterwards, what was written to
    [console.error], and how the returned promise settles.  [in_try] and
    [in_catch] are what SQLite reports to the [updateStatus] of the
    [try] block and to the one of the [catch] block. *)
Definition processGeneration_io (env : node_env) (w : world)
  (in_try in_catch : store_errors) (db : table)
  (generationId originalImagePath : string)
  : table * list error * result error unit :=
  match processGeneration_try_io env w in_try db generationId
          originalImagePath with
  | (db', Resolve _) => (db', [], Resolve tt)
  | (db', Reject e) =>
      (* Only log in non-test environments to avoid noise *)
      let log := if negb (is_test env) then [e] else [] in
      (* Ignore database errors if test database is closed *)
      if negb (is_test env) then
        let '(db'', r) := updateStatus_io in_catch db' generationId failed None in
        (db'', log, await_ r)
      else (db', log, Resolve tt)
  end.

(** [processGeneration(generationId, file.path).catch(console.error)]:
    a rejection is written to the console and the promise resolves. *)
Definition spawn_processGeneration_io (env : node_env) (w : world)
  (in_try in_catch : store_errors) (db : table) (t : task)
  : table * list error * result error unit :=
  match processGeneration_io env w in_try in_catch db (fst t) (snd t) with
  | (db', log, Resolve _) => (db', log, Resolve tt)
  | (db', log, Reject e) => (db', log ++ [e], Resolve tt)
  end.

(** The same on an engine that reports no error. *)
Definition processGeneration_try (env : node_env) (w : world) (db : table)
  (generationId originalImagePath : string) : table * result error unit :=
  processGeneration_try_io env w store_answers db generationId
    originalImagePath.

Definition processGeneration (env : node_env) (w : world) (db : table)
  (generationId originalImagePath : string)
  : table * list error * result error unit :=
  processGeneration_io env w store_answers store_answers db generationId
    originalImagePath.

Definition spawn_processGeneration (env : node_env) (w : world) (db : table)
  (t : task) : table * list error * result error unit :=
  spawn_processGeneration_io env w store_answers store_answers db t.

(** [req.user?.id] followed by [if (!userId)]. *)
Definition authenticated (user : option auth_user) (line : nat)
  : result error nat :=
  match user with
  | Some u =>
      if truthy_num (au_id u) then Resolve (au_id u)
      else Reject (AppError "User not authenticated" 401 line)
  | None => Reject (AppError "User not authenticated" 401 line)
  end.

Record create_request : Type := mkCreateRequest {
  cr_user : option auth_user;
  cr_body : create_body;
  cr_file : option file;
  cr_uuid : string;            (* uuidv4() *)
  cr_now_ms : N;             (* Date.now() *)
  cr_timestamp : string        (* CURRENT_TIMESTAMP of the insert *)
}.

(** The handler of [POST /api/generations]: the store afterwards, the
    background task it started (if any) and its outcome. *)
Definition createGeneration_handler (db : table) (req : create_request)
  : table * option task * result error (nat * body) :=
  match authenticated (cr_user req) 45 with
  | Reject e => (db, None, Reject e)
  | Resolve userId =>
      (* Validate text input *)
      match createGenerationSchema_parse (cr_body req) with
      | Reject e => (db, None, Reject e)
      | Resolve (prompt, style) =>
          (* Validate uploaded file *)
          match cr_file req with
          | None => (db, None, Reject (AppError "Image file is required" 400 55))
          | Some file =>
              match validateImageFile file with
              | Some fileError => (db, None, Reject (AppError fileError 400 60))
              | None =>
                  let generationId :=
                    (cr_uuid req ++ "-" ++ show_N (cr_now_ms req))%string in
                  match create db (cr_timestamp req)
                          (mkCreateGenerationData generationId userId prompt
                             style (Some (path file))) with
                  | (db', Reject e) => (db', None, Reject e)
                  | (db', Resolve generation) =>
                      (* Start async processing (don't await) *)
                      (db', Some (generationId, path file),
                       Resolve (201, GenerationStarted
                                       (mkSummary (id generation)
                                          (Models.prompt generation)
                                          (Models.style generation)
                                          (status generation)
                                          (created_at generation))))
                  end
              end
          end
      end
  end.

(** [p ? `/uploads/${path.basename(p)}` : null] *)
Definition upload_url (p : option string) : option string :=
  match or_null p with
  | Some v => Some ("/uploads/" ++ path_basename v)%string
  | None => None
  end.

Definition transform (gen : Generation) : generation_view :=
  mkView (id gen) (prompt gen) (style gen) (status gen)
    (upload_url (image_path gen)) (upload_url (result_image_path gen))
    (created_at gen).

(** The handler of [GET /api/generations]. *)
Definition getGenerations_handler (db : table) (user : option auth_user)
  (limit : field) : result error (nat * body) :=
  userId <- authenticated user 119 ;;
  limit <- getGenerationsSchema_parse limit ;;
  let generations := findByUserId db userId limit in
  let transformedGenerations := map transform generations in
  Resolve (200, GenerationList transformedGenerations
                  (List.length transformedGenerations)).

(** The handler of [GET /api/generations/:id]. *)
Definition getGeneration_handler (db : table) (user : option auth_user)
  (i : string) : result error (nat * body) :=
  userId <- authenticated user 150 ;;
  generation <- findById db i ;;
  (* Check ownership *)
  if negb (user_id generation =? userId) then
    Reject (AppError "Access denied" 403 158)
  else
    Resolve (200, GenerationData (transform generation)).

Definition getGenerations (env : node_env) (db : table)
  (user : option auth_user) (limit : field) : response :=
  asyncHandler env (getGenerations_handler db user limit).

Definition getGeneration (env : node_env) (db : table)
  (user : option auth_user) (i : string) : response :=
  asyncHandler env (getGeneration_handler db user i).

(** The answer to a fetch of somebody else's job. *)
Definition access_denied (env : node_env) : response :=
  Failure (mkErrorResponse 403
             (mkErrorBody false "Access denied"
                (if is_development env then Some 158 else None))).

(** The answer to a fetch of an unknown id. *)
Definition generation_not_found (env : node_env) : response :=
  Failure (mkErrorResponse 404
             (mkErrorBody false "Generation not found"
                (if is_development env then Some 67 else None))).

(** The answer to a listing whose [limit] is not a string. *)
Definition limit_refused (env : node_env) (t : other_type) : response :=
  Failure (mkErrorResponse 400
             (mkErrorBody false (expected_string t)
                (if is_development env then Some 122 else None))).

(** The listing as the specification words it: whatever is supplied as
    [limit], the caller is answered with a listing. *)
Definition answered_with_a_listing (env : node_env) (d : table)
  (user : auth_user) (limit : field) : Prop :=
  exists views total,
    getGenerations env d (Some user) limit
    = Json 200 (GenerationList views total).

(** Plain stand-ins for Node's path functions on POSIX paths without
    [.], [..] or doubled separators; they instantiate the section
    variables in examples. *)
Definition posix_basename (p : string) : string :=
  last (split_on "/" p) "".

Definition posix_dirname (p : string) : string :=
  match removelast (split_on "/" p) with
  | [] => "."
  | segs => String.concat "/" segs
  end.

Definition posix_join (a b : string) : string := (a ++ "/" ++ b)%string.

(** The prompt rule as the specification words it: accepted exactly
    when non-empty after trimming and at most 500 characters long. *)
Definition prompt_accepted (p : string) : Prop :=
  createGenerationSchema_parse (mkCreateBody (Str p) (Str "realistic"))
  = Resolve (p, "realistic").

Definition prompt_rule_with_trimming (p : string) : Prop :=
  prompt_accepted p <-> (trim p <> "" /\ String.length p <= 500).

(** A well-formed upload by user 1. *)
Definition sample_user : auth_user := mkAuthUser 1 "a@example.com".
Definition sample_file : file := mkFile "image/png" 1000 "uploads/image-1.png".
Definition sample_create (prompt : string) : create_request :=
  mkCreateRequest (Some sample_user) (mkCreateBody (Str prompt) (Str "artistic"))
    (Some sample_file) "3f2a" 1700000000000 "2024-01-01 10:00:00".

(** Two stored jobs: a finished one of user 1 and a running one of
    user 2. *)
Definition sample_db : table :=
  [mkGeneration "job-1" 1 "a cat" "cartoon" (Some "uploads/image-1.png")
     (Some "uploads/result_1700000000000.jpg") "completed"
     "2024-01-01 10:00:00";
   mkGeneration "job-2" 2 "a dog" "vintage" (Some "uploads/image-2.png")
     None "processing" "2024-01-01 10:05:00"].

(** *** The server as a transition system

    The state is the [generations] table, the background tasks started
    and not yet finished, and the console.  The operations are the three
    routes and the completion of a background task. *)

Record system : Type := mkSystem {
  db : table;
  tasks : list task;
  console : list error
}.

Definition initial : system := mkSystem [] [] [].

Inductive event : Type :=
| PostGeneration (req : create_request)
| GetGenerations (user : option auth_user) (limit : field)
| GetGeneration (user : option auth_user) (i : string)
| TaskCompletes (n : nat) (w : world).

Definition step (env : node_env) (s : system) (e : event)
  : system * option response :=
  match e with
  | PostGeneration req =>
      let '(db', started, r) := createGeneration_handler (db s) req in
      (mkSystem db'
         (tasks s ++ match started with Some t => [t] | None => [] end)
         (console s),
       Some (asyncHandler env r))
  | GetGenerations user limit =>
      (s, Some (getGenerations env (db s) user limit))
  | GetGeneration user i =>
      (s, Some (getGeneration env (db s) user i))
  | TaskCompletes n w =>
      match nth_error (tasks s) n with
      | None => (s, None)
      | Some t =>
          let '(db', log, _) := spawn_processGeneration env w (db s) t in
          (mkSystem db' (remove_nth n (tasks s)) (console s ++ log), None)
      end
  end.

Fixpoint run (env : node_env) (s : system) (es : list event) : system :=
  match es with
  | [] => s
  | e :: es' => run env (fst (step env s e)) es'
  end.

Definition reachable (env : node_env) (s : system) : Prop :=
  exists es, run env initial es = s.

(** *** Vocabulary of the lifecycle properties *)

Definition terminal (st : string) : Prop :=
  st = "completed" \/ st = "failed".

Definition valid_status (st : string) : Prop :=
  st = "processing" \/ terminal st.

(** A row has a result path exactly when it is completed (and never an
    empty one). *)
Definition result_ok (g : Generation) : Prop :=
  (result_image_path g <> None <-> status g = "completed")
  /\ result_image_path g <> Some "".

(** The invariant of the server: no two started tasks wait for the same
    id, every started task waits for a row that is still [processing],
    and every status is one of the three texts. *)
Definition consistent (s : system) : Prop :=
  NoDup (map fst (tasks s))
  /\ (forall t, In t (tasks s) ->
        exists g, find (has_id (fst t)) (db s) = Some g
                  /\ status g = "processing")
  /\ Forall (fun g => valid_status (status g)) (db s).

(** The file name the simulation gives to the result, joined to the
    directory of the upload. *)
Definition result_file (w : world) (originalImagePath : string) : string :=
  path_join (path_dirname originalImagePath)
    ("result_" ++ show_N (now_ms w) ++ ".jpg")%string.

(** The [try] block of a run ends before its UPDATE has changed the
    row: the copy throws, or SQLite refuses the statement. *)
Definition copy_throws (env : node_env) (w : world)
  (originalImagePath : string) : Prop :=
  shouldFail env w = false
  /\ exists e, copyFile w originalImagePath (result_file w originalImagePath)
               = Reject e.

Definition try_writes_nothing (env : node_env) (w : world)
  (in_try : store_errors) (originalImagePath : string) : Prop :=
  copy_throws env w originalImagePath \/ run_err in_try <> None.

(** The processor's guarantee as the specification words it: after the
    processor has run on a stored job, in whatever way it was disturbed,
    the job is no longer [processing]. *)
Definition leaves_no_job_processing (env : node_env) (w : world) (d : table)
  (t : task) : Prop :=
  forall g, find (has_id (fst t)) d = Some g ->
    exists g',
      find (has_id (fst t)) (fst (fst (spawn_processGeneration env w d t)))
      = Some g'
      /\ status g' <> "processing".

End Path.

(** A run of the processor in which the random draw lets the job
    succeed and copying the file fails. *)
Definition copy_fails : world :=
  mkWorld (QArith_base.Qmake 1 2) 1700000000000
    (fun _ _ => Reject (Error_ "ENOENT: no such file or directory" 98)).

(** An error of the engine, raised by no [throw] of the sources. *)
Definition disk_full : error :=
  mkError SqliteError "Error" "SQLITE_FULL: database or disk is full" None 0 [].

(** SQLite refuses the statement. *)
Definition store_refuses : store_errors := mkStoreErrors (Some disk_full) None.

(** A run in which the draw succeeds and the copy works. *)
Definition all_well : world :=
  mkWorld (QArith_base.Qmake 1 2) 1700000000000 (fun _ _ => Resolve tt).

(** One job from creation to completion. *)
Definition sample_run : list event :=
  [PostGeneration (sample_create "a cat"); TaskCompletes 0 all_well].

Definition sample_state : system :=
  run posix_join posix_dirname posix_basename Production initial sample_run.


End Generations.

(* ================================================================= *)
(** ** frontend/src/components/Studio.tsx *)

Module Studio.
Import Js.

Definition MAX_RETRIES : nat := 3.

Record File : Type := mkFile {
  file_type : string;
  file_size : nat
}.

(** The React state of the component.  A render closes over one value
    of this record: the handlers created by that render read their
    [retryCount], [abortController], [prompt], ... from it.
    [abortController] holds the index of an AbortController object. *)
Record state : Type := mkState {
  selectedFile : option File;
  prompt : string;
  style : string;
  isGenerating : bool;
  error : string;
  retryCount : nat;
  abortController : option nat
}.

Definition setSelectedFile v (s : state) : state :=
  mkState v (prompt s) (style s) (isGenerating s) (error s) (retryCount s)
    (abortController s).
Definition setPrompt v (s : state) : state :=
  mkState (selectedFile s) v (style s) (isGenerating s) (error s)
    (retryCount s) (abortController s).
Definition setIsGenerating v (s : state) : state :=
  mkState (selectedFile s) (prompt s) (style s) v (error s) (retryCount s)
    (abortController s).
Definition setError v (s : state) : state :=
  mkState (selectedFile s) (prompt s) (style s) (isGenerating s) v
    (retryCount s) (abortController s).
(** [setRetryCount] takes an updater, as in [setRetryCount(prev => prev + 1)]. *)
Definition setRetryCount (f : nat -> nat) (s : state) : state :=
  mkState (selectedFile s) (prompt s) (style s) (isGenerating s) (error s)
    (f (retryCount s)) (abortController s).
Definition setAbortController v (s : state) : state :=
  mkState (selectedFile s) (prompt s) (style s) (isGenerating s) (error s)
    (retryCount s) v.

Definition initial_state : state :=
  mkState None "" "realistic" false "" 0 None.

(** One call of [apiService.createGeneration(generationData, controller)]. *)
Record request : Type := mkRequest {
  req_prompt : string;
  req_style : string;
  req_image : File;
  req_controller : nat
}.

(** What the rejected promise carries: [err.name] and
    [err.response?.data?.message]. *)
Record failure : Type := mkFailure {
  err_name : option string;
  err_response_message : option string
}.

Inductive outcome : Type :=
| Fulfilled
| Rejected (err : failure).

(** A suspended [handleGenerate]: at [await apiService.createGeneration]
    with its closure and its local [controller], or at
    [await loadRecentGenerations()]. *)
Inductive suspended : Type :=
| AwaitCreate (closure : state) (controller : nat)
| AwaitRecent (closure : state).

(** The page: current state, the AbortController objects allocated so
    far (their [signal.aborted]), the log of create-generation calls, the
    suspended invocations and the retry timers, each timer with the
    closure of its callback. *)
Record page : Type := mkPage {
  ui : state;
  controllers : list bool;
  requests : list request;
  awaiting : list suspended;
  timers : list state
}.

Definition initial_page : page := mkPage initial_state [] [] [] [].

Definition update (f : state -> state) (p : page) : page :=
  mkPage (f (ui p)) (controllers p) (requests p) (awaiting p) (timers p).

Definition validateFile (file : File) : option string :=
  let allowedTypes := ["image/jpeg"; "image/jpg"; "image/png"] in
  let maxSize := 10 * 1024 * 1024 in
  if negb (existsb (String.eqb (file_type file)) allowedTypes) then
    Some "Please select a JPEG or PNG image"
  else if maxSize <? file_size file then
    Some "File size must be less than 10MB"
  else None.

Definition handleFileSelect (file : File) (p : page) : page :=
  match validateFile file with
  | Some e => update (setError e) p
  | None => update (fun s => setError "" (setSelectedFile (Some file) s)) p
  end.

(** [handleGenerate] of the render [c], up to its first [await]. *)
Definition handleGenerate (c : state) (p : page) : page :=
  match selectedFile c with
  | Some file =>
      if negb (truthy (trim (prompt c))) then
        update (setError "Please select an image and enter a prompt") p
      else
        let controller := List.length (controllers p) in
        mkPage
          (setAbortController (Some controller)
             (setError "" (setIsGenerating true (ui p))))
          (controllers p ++ [false])
          (requests p ++ [mkRequest (trim (prompt c)) (style c) file controller])
          (awaiting p ++ [AwaitCreate c controller])
          (timers p)
  | None => update (setError "Please select an image and enter a prompt") p
  end.

(** The [finally] block. *)
Definition finally (p : page) : page :=
  update (fun s => setAbortController None (setIsGenerating false s)) p.

(** [err.response?.data?.message || 'Generation failed'] *)
Definition errorMessage_of (err : failure) : string :=
  match or_null (err_response_message err) with
  | Some m => m
  | None => "Generation failed"
  end.

(** [handleGenerate] of the render [c] from the point where
    [apiService.createGeneration] settles. *)
Definition handleGenerate_settled (c : state) (o : outcome) (p : page) : page :=
  match o with
  | Fulfilled =>
      (* Reload recent generations to show the new one *)
      mkPage (ui p) (controllers p) (requests p)
        (awaiting p ++ [AwaitRecent c]) (timers p)
  | Rejected err =>
      if match err_name err with
         | Some n => String.eqb n "AbortError"
         | None => false
         end
      then (* Generation was aborted by user *) finally p
      else
        let errorMessage := errorMessage_of err in
        if includes errorMessage "Model overloaded"
           && (retryCount c <? MAX_RETRIES)
        then
          let p1 :=
            update (setError (errorMessage ++ ". Retrying... ("
                              ++ show_nat (retryCount c + 1) ++ "/"
                              ++ show_nat MAX_RETRIES ++ ")")%string) p in
          let p2 := update (setRetryCount (fun prev => prev + 1)) p1 in
          (* Retry after a short delay *)
          let p3 := mkPage (ui p2) (controllers p2) (requests p2)
                      (awaiting p2) (timers p2 ++ [c]) in
          finally p3
        else
          finally (update (setRetryCount (fun _ => 0))
                     (update (setError errorMessage) p))
  end.

(** [handleGenerate] of the render [c] after [loadRecentGenerations]. *)
Definition handleGenerate_loaded (c : state) (p : page) : page :=
  finally (update (setRetryCount (fun _ => 0)) p).

(** [abortController?.signal.aborted] *)
Definition signal_aborted (p : page) (a : option nat) : bool :=
  match a with
  | Some k => nth k (controllers p) false
  | None => false
  end.

(** The callback given to [setTimeout] by the render [c]. *)
Definition retry_callback (c : state) (p : page) : page :=
  if negb (signal_aborted p (abortController c)) then handleGenerate c p
  else p.

Fixpoint set_nth {A} (n : nat) (v : A) (l : list A) : list A :=
  match n, l with
  | _, [] => []
  | O, _ :: t => v :: t
  | S n', h :: t => h :: set_nth n' v t
  end.

(** [handleAbort] of the render [c]. *)
Definition handleAbort (c : state) (p : page) : page :=
  let p1 :=
    match abortController c with
    | Some k =>
        mkPage (setAbortController None (ui p))
          (set_nth k true (controllers p)) (requests p) (awaiting p)
          (timers p)
    | None => p
    end in
  update (fun s => setError "" (setRetryCount (fun _ => 0)
                                  (setIsGenerating false s))) p1.

(** *** What can happen to the page *)

Inductive event : Type :=
| ChooseFile (file : File)
| TypePrompt (text : string)
| ClickGenerate
| ClickStop
| CreateSettles (n : nat) (o : outcome)
| RecentLoaded (n : nat)
| TimerFires (n : nat).

(** [disabled={!selectedFile || !prompt.trim() || isGenerating}] *)
Definition generate_disabled (s : state) : bool :=
  match selectedFile s with None => true | Some _ => false end
  || negb (truthy (trim (prompt s))) || isGenerating s.

(** [{isGenerating && (<button onClick={handleAbort}> ...)}] *)
Definition stop_rendered (s : state) : bool := isGenerating s.

Definition take_awaiting (n : nat) (p : page) : page :=
  mkPage (ui p) (controllers p) (requests p) (remove_nth n (awaiting p))
    (timers p).

Definition take_timer (n : nat) (p : page) : page :=
  mkPage (ui p) (controllers p) (requests p) (awaiting p)
    (remove_nth n (timers p)).

(** One event, run to completion; [None] when the page cannot receive
    it (a disabled or absent control, nothing pending at that index).
    A click runs the handler of the current render. *)
Definition step (p : page) (e : event) : option page :=
  match e with
  | ChooseFile file =>
      if isGenerating (ui p) then None else Some (handleFileSelect file p)
  | TypePrompt text =>
      if isGenerating (ui p) then None
      else Some (update (setPrompt text) p)
  | ClickGenerate =>
      if generate_disabled (ui p) then None
      else Some (handleGenerate (ui p) p)
  | ClickStop =>
      if stop_rendered (ui p) then Some (handleAbort (ui p) p) else None
  | CreateSettles n o =>
      match nth_error (awaiting p) n with
      | Some (AwaitCreate c _) =>
          Some (handleGenerate_settled c o (take_awaiting n p))
      | _ => None
      end
  | RecentLoaded n =>
      match nth_error (awaiting p) n with
      | Some (AwaitRecent c) =>
          Some (handleGenerate_loaded c (take_awaiting n p))
      | _ => None
      end
  | TimerFires n =>
      match nth_error (timers p) n with
      | Some c => Some (retry_callback c (take_timer n p))
      | None => None
      end
  end.

Fixpoint run (p : page) (es : list event) : option page :=
  match es with
  | [] => Some p
  | e :: es' =>
      match step p e with
      | Some p' => run p' es'
      | None => None
      end
  end.

(** The rejection of the mocked transient overload. *)
Definition overloaded : outcome :=
  Rejected (mkFailure None (Some "Model overloaded")).

(** A filled form, ready to submit. *)
Definition png : File := mkFile "image/png" 1000.
Definition fill_form : list event := [ChooseFile png; TypePrompt "Test prompt"].

(** [n] rounds of: the call in flight is rejected as overloaded, then
    the retry timer fires. *)
Fixpoint overload_rounds (n : nat) : list event :=
  match n with
  | O => []
  | S n' => CreateSettles 0 overloaded :: TimerFires 0 :: overload_rounds n'
  end.

(** The render in which the Generate button of the filled form is
    clicked: this is the closure every retry of that submission runs. *)
Definition first_render : state :=
  mkState (Some png) "Test prompt" "realistic" false "" 0 None.

(** The page while the [k]-th retry is in flight ([k = 0]: the first
    call): [k + 1] calls were issued, each with a controller of its own,
    and the invocation that waits still closes over [first_render]. *)
Definition in_flight (k : nat) : page :=
  mkPage (mkState (Some png) "Test prompt" "realistic" true "" k (Some k))
    (repeat false (S k))
    (map (mkRequest "Test prompt" "realistic" png) (seq 0 (S k)))
    [AwaitCreate first_render k]
    [].

(** The page while the retry timer of that submission is pending, after
    [k + 1] rejected calls. *)
Definition retry_waiting (k : nat) : page :=
  mkPage (mkState (Some png) "Test prompt" "realistic" false
            "Model overloaded. Retrying... (1/3)" (S k) None)
    (repeat false (S k))
    (map (mkRequest "Test prompt" "realistic" png) (seq 0 (S k)))
    []
    [first_render].

(** A second click on Generate while a retry is pending, then Stop. *)
Definition cancel_trace : list event :=
  fill_form ++ [ClickGenerate; CreateSettles 0 overloaded;
                ClickGenerate; ClickStop].

(** The render of the second click, and the page after the click on
    Stop and after the timer of the first submission has fired. *)
Definition second_render : state :=
  mkState (Some png) "Test prompt" "realistic" false
    "Model overloaded. Retrying... (1/3)" 1 None.

Definition after_cancel : page :=
  mkPage (mkState (Some png) "Test prompt" "realistic" false "" 0 None)
    [false; true]
    (map (mkRequest "Test prompt" "realistic" png) [0; 1])
    [AwaitCreate second_render 1]
    [first_render].

Definition after_timer : page :=
  mkPage (mkState (Some png) "Test prompt" "realistic" true "" 0 (Some 2))
    [false; true; false]
    (map (mkRequest "Test prompt" "realistic" png) [0; 1; 2])
    [AwaitCreate second_render 1; AwaitCreate first_render 2]
    [].

(** What is on display: whether the page is busy, the message, the
    number of calls made, and the number of pending timers and calls. *)
Definition display (p : page) : bool * string * nat * nat * nat :=
  (isGenerating (ui p), error (ui p), List.length (requests p),
   List.length (timers p), List.length (awaiting p)).

(** What axios rejects with when the signal is aborted. *)
Definition canceled : outcome :=
  Rejected (mkFailure (Some "CanceledError") None).

Definition aborted : outcome :=
  Rejected (mkFailure (Some "AbortError") None).

End Studio.

(* ================================================================= *)
(** ** Accounts: [UserModel.create], [signup] and the session routes *)

Module Accounts.
Import Js ErrorHandler Validation Models Http Auth AuthController.

(** The [users] table together with the counter that SQLite keeps in
    [sqlite_sequence] for [INTEGER PRIMARY KEY AUTOINCREMENT]. *)
Record user_table : Type := mkUserTable {
  rows : list User;
  sequence : nat
}.

Definition no_users : user_table := mkUserTable [] 0.

(** The rowid of the next insert: one more than the largest rowid that
    ever existed in the table. *)
Definition next_rowid (t : user_table) : nat :=
  S (Nat.max (sequence t) (list_max (map u_id (rows t)))).

Definition has_email (email : string) (u : User) : bool :=
  String.eqb (u_email u) email.

(** [UserModel.create]: [INSERT INTO users (email, password) VALUES (?, ?)]
    under [email TEXT UNIQUE], then [UserModel.findById(this.lastID)]. *)
Definition UserModel_create (t : user_table) (now : string)
  (email password : string) : user_table * result error User :=
  if existsb (has_email email) (rows t) then
    (t, Reject (mkError SqliteError "Error"
                  "SQLITE_CONSTRAINT: UNIQUE constraint failed: users.email"
                  None 22 []))
  else
    let lastID := next_rowid t in
    let t' := mkUserTable (rows t ++ [mkUser lastID email password now])
                lastID in
    (t', UserModel.findById (rows t') lastID).

(** [UserModel.emailExists] *)
Definition UserModel_emailExists (t : user_table) (email : string) : bool :=
  match UserModel.findByEmail (rows t) email with
  | Some _ => true
  | None => false
  end.

Section Libraries.

(** [bcrypt.hash(password, 12)] with the salt it draws, [bcrypt.compare],
    zod's e-mail format check and the token encoder. *)
Variable bcrypt_hash : string -> string -> string.
Variable bcrypt_compare : string -> string -> bool.
Variable is_email : string -> bool.
Variable jwt_encode : token -> string.

Definition signup_password_issues (f : field) : list string :=
  match f with
  | Str p =>
      if String.length p <? 6
      then ["Password must be at least 6 characters long"] else []
  | Absent => ["Invalid input: expected string, received undefined"]
  | NotAString t => [expected_string t]
  end.

(** [signupSchema.parse(req.body)] *)
Definition signupSchema_parse (b : login_body) : result error (string * string) :=
  let msgs := email_issues is_email (lb_email b)
              ++ signup_password_issues (lb_password b) in
  match lb_email b, lb_password b, msgs with
  | Str e, Str p, [] => Resolve (e, p)
  | _, _, _ => Reject (ZodError msgs (String.concat "," msgs) 10)
  end.

(** What a signup request brings besides its body: the salt that
    [bcrypt.hash] draws, the clock of [jwt.sign] and the
    [CURRENT_TIMESTAMP] of the insert. *)
Record signup_world : Type := mkSignupWorld {
  sw_salt : string;
  sw_now : Z;
  sw_timestamp : string
}.

Definition signup_handler (t : user_table) (w : signup_world)
  (secret : string) (b : login_body)
  : user_table * result error (nat * body) :=
  (* Validate input *)
  match signupSchema_parse b with
  | Reject e => (t, Reject e)
  | Resolve (email, password) =>
      (* Check if user already exists *)
      match UserModel.findByEmail (rows t) email with
      | Some _ =>
          (t, Reject (AppError "User with this email already exists" 400 16))
      | None =>
          (* Hash password *)
          let hashedPassword := bcrypt_hash (sw_salt w) password in
          (* Create user *)
          match UserModel_create t (sw_timestamp w) email hashedPassword with
          | (t', Reject e) => (t', Reject e)
          | (t', Resolve user) =>
              (* Generate token *)
              let token := generateToken jwt_encode (sw_now w) secret
                             (u_id user) (u_email user) in
              (t', Resolve (201, AuthData "User created successfully"
                                   (mkUserView (u_id user) (u_email user)
                                      (u_created_at user)) token))
          end
      end
  end.

Definition signup (env : node_env) (t : user_table) (w : signup_world)
  (secret : string) (b : login_body) : user_table * response :=
  let '(t', r) := signup_handler t w secret b in
  (t', asyncHandler env r).

(** The table after a sequence of signup requests. *)
Fixpoint signups (t : user_table) (secret : string)
  (reqs : list (signup_world * login_body)) : user_table :=
  match reqs with
  | [] => t
  | (w, b) :: reqs' => signups (fst (signup_handler t w secret b)) secret reqs'
  end.

End Libraries.

(** Every row has a rowid between 1 and the counter, and no two rows
    share a rowid or an e-mail. *)
Definition users_ok (t : user_table) : Prop :=
  NoDup (map u_email (rows t))
  /\ NoDup (map u_id (rows t))
  /\ Forall (fun u => 1 <= u_id u <= sequence t) (rows t).

(** [s] contains a blank. *)
Fixpoint has_space (s : string) : bool :=
  match s with
  | EmptyString => false
  | String c s' => Ascii.eqb c " " || has_space s'
  end.

(** The header the request interceptor of the client builds:
    [`Bearer ${token}`]. *)
Definition bearer_header (tok : string) : string := ("Bearer " ++ tok)%string.

(** Stand-ins for the libraries in examples: a "hash" that marks the
    password, a check that agrees with it, and a token encoder. *)
Definition toy_hash (salt password : string) : string :=
  ("$2a$12$" ++ password)%string.
Definition toy_compare (password hash : string) : bool :=
  String.eqb hash ("$2a$12$" ++ password)%string.
Definition toy_encode (t : token) : string := "header.payload.signature".

(** The decoder that goes with [toy_encode] for the token issued to the
    sample user at second 1700000000 under the key ["k"]. *)
Definition toy_decode (s : string) : option token :=
  if String.eqb s "header.payload.signature" then
    Some (mkToken 1 "a@example.com" (1700000000 + 604800) "k")
  else None.

Definition sample_signup : login_body :=
  mkLoginBody (Str "a@example.com") (Str "secret1").
Definition sample_world : signup_world :=
  mkSignupWorld "salt" 1700000000 "2024-01-01 10:00:00".

End Accounts.

(* ================================================================= *)
(** ** More of the job store and the job routes *)

Module JobStore.
Import Js ErrorHandler Validation Models Http Auth Generations.
Import GenerationModel.

(** [GenerationModel.delete]: [DELETE FROM generations WHERE id = ?],
    rejected when no row was deleted. *)
Definition delete (db : table) (i : string) : table * result error unit :=
  let changes := List.length (filter (has_id i) db) in
  if changes =? 0 then (db, Reject (Error_ "Generation not found" 136))
  else (filter (fun g => negb (has_id i g)) db, Resolve tt).

(** The columns no statement of the model ever sets after the insert. *)
Definition fixed_columns (g : Generation)
  : string * nat * string * string * option string * string :=
  (id g, user_id g, prompt g, style g, image_path g, created_at g).

(** [POST /api/generations] as the client sees it: the handler followed
    by the error middleware. *)
Definition createGeneration (env : node_env) (db : table)
  (req : create_request) : table * option task * response :=
  let '(db', started, r) := createGeneration_handler db req in
  (db', started, asyncHandler env r).

(** The answer of a route that threw [AppError(msg, 400)] at [line]. *)
Definition bad_request (env : node_env) (msg : string) (line : nat)
  : response :=
  Failure (mkErrorResponse 400
             (mkErrorBody false msg
                (if is_development env then Some line else None))).

(** The first message of a list of issues, as the error middleware
    picks it. *)
Definition first_issue (msgs : list string) : string :=
  match msgs with
  | m :: _ => m
  | [] => "Validation error"
  end.

(** The file of the server-side check that corresponds to a file chosen
    in the browser, stored at [p]. *)
Definition uploaded (f : Studio.File) (p : string) : file :=
  mkFile (Studio.file_type f) (Studio.file_size f) p.

Definition sample_row : Generation :=
  mkGeneration "job-3" 1 "a bird" "realistic" (Some "uploads/image-3.png")
    None "processing" "2024-01-01 10:10:00".

End JobStore.

(* ================================================================= *)
(** ** More of the page: the other handlers of Studio.tsx *)

Module StudioMore.
Import Js Studio.

Definition setStyle v (s : state) : state :=
  mkState (selectedFile s) (prompt s) v (isGenerating s) (error s)
    (retryCount s) (abortController s).

(** [clearFile] *)
Definition clearFile (p : page) : page := update (setSelectedFile None) p.

(** [restoreGeneration(generation)]: [hasImage] is the truthiness of
    [generation.imageUrl]. *)
Definition restoreGeneration (gprompt gstyle : string) (hasImage : bool)
  (p : page) : page :=
  let p1 := update (fun s => setStyle gstyle (setPrompt gprompt s)) p in
  if hasImage then
    update (setError "Note: Original image from this generation cannot be restored. Please upload a new image.") p1
  else p1.

(** The events of the page together with the controls that are not part
    of a submission: the drop zone, the style buttons, the remove button
    of the preview (rendered while a file is selected) and the restore
    button of a card. *)
Inductive action : Type :=
| Page (e : event)
| DropFile (file : File)
| ChooseStyle (value : string)
| ClickRemove
| ClickRestore (gprompt gstyle : string) (hasImage : bool).

Definition STYLE_OPTIONS : list string :=
  ["realistic"; "artistic"; "cartoon"; "vintage"].

Definition act (p : page) (a : action) : option page :=
  match a with
  | Page e => step p e
  | DropFile file =>
      (* the drop zone is rendered while no file is selected *)
      match selectedFile (ui p) with
      | Some _ => None
      | None => Some (handleFileSelect file p)
      end
  | ChooseStyle value =>
      (* one radio button per option, [disabled={isGenerating}] *)
      if isGenerating (ui p) || negb (existsb (String.eqb value) STYLE_OPTIONS)
      then None
      else Some (update (setStyle value) p)
  | ClickRemove =>
      match selectedFile (ui p) with
      | Some _ => Some (clearFile p)
      | None => None
      end
  | ClickRestore gprompt gstyle hasImage =>
      Some (restoreGeneration gprompt gstyle hasImage p)
  end.

Fixpoint acts (p : page) (l : list action) : option page :=
  match l with
  | [] => Some p
  | a :: l' =>
      match act p a with
      | Some p' => acts p' l'
      | None => None
      end
  end.

(** A render whose file, if any, passed [validateFile]. *)
Definition file_checked (c : state) : Prop :=
  match selectedFile c with
  | Some f => validateFile f = None
  | None => True
  end.

Definition closure_of (s : suspended) : state :=
  match s with
  | AwaitCreate c _ => c
  | AwaitRecent c => c
  end.

(** A call carries a checked file and a prompt that is trimmed and not
    empty. *)
Definition request_ok (r : request) : Prop :=
  validateFile (req_image r) = None
  /\ truthy (req_prompt r) = true
  /\ exists text, req_prompt r = trim text.

(** The invariant of the page. *)
Definition page_ok (p : page) : Prop :=
  file_checked (ui p)
  /\ Forall (fun s => file_checked (closure_of s)) (awaiting p)
  /\ Forall file_checked (timers p)
  /\ Forall request_ok (requests p)
  /\ map req_controller (requests p) = seq 0 (List.length (controllers p)).

(** The render of the form filled with [f] and [text], the page while
    its submission is in flight, and the page after that submission was
    settled with a final message. *)
Definition form_state (f : File) (text : string) : state :=
  mkState (Some f) text "realistic" false "" 0 None.

Definition submitted_page (f : File) (text : string) : page :=
  mkPage (mkState (Some f) text "realistic" true "" 0 (Some 0))
    [false]
    [mkRequest (trim text) "realistic" f 0]
    [AwaitCreate (form_state f text) 0]
    [].

Definition settled_page (f : File) (text message : string) : page :=
  mkPage (mkState (Some f) text "realistic" false message 0 None)
    [false]
    [mkRequest (trim text) "realistic" f 0]
    []
    [].

(** The clicks on Generate, the retry timers that fire and the calls
    rejected with a message that contains the overload marker, in a
    history. *)
Definition is_click (a : action) : bool :=
  match a with Page ClickGenerate => true | _ => false end.

Definition is_timer (a : action) : bool :=
  match a with Page (TimerFires _) => true | _ => false end.

Definition is_overload (a : action) : bool :=
  match a with
  | Page (CreateSettles _ (Rejected err)) =>
      includes (errorMessage_of err) "Model overloaded"
  | _ => false
  end.

Definition count (f : action -> bool) (l : list action) : nat :=
  List.length (filter f l).

Definition sample_history : list action :=
  [DropFile png; Page (TypePrompt "  a cat "); ChooseStyle "vintage";
   Page ClickGenerate; ClickRemove; Page (CreateSettles 0 overloaded);
   Page (TimerFires 0)].

Definition sample_page : page :=
  mkPage (mkState None "  a cat " "vintage" true "" 1 (Some 1))
    [false; false]
    [mkRequest "a cat" "vintage" png 0; mkRequest "a cat" "vintage" png 1]
    [AwaitCreate (mkState (Some png) "  a cat " "vintage" false "" 0 None) 1]
    [].

End StudioMore.

(* ================================================================= *)
(** ** The rate limiter (middleware/rateLimiter.ts) *)

Module RateLimiter.
Import Js.

Local Open Scope N_scope.

Record entry : Type := mkEntry {
  count : nat;
  resetTime : N
}.

(** The module-level [store] object, as the map it is used as: the
    middleware reads and writes it by key and visits all its keys, in an
    order that does not matter, to delete the expired ones. *)
Definition store : Type := string -> option entry.

Definition empty_store : store := fun _ => None.

Definition WINDOW_MS : N := 15 * 60 * 1000.
Definition MAX_REQUESTS : nat := 100.

(** [store[key] = e] *)
Definition set (key : string) (e : entry) (s : store) : store :=
  fun k => if String.eqb k key then Some e else s k.

(** The clean-up loop: [if (store[key].resetTime < now) delete store[key]]
    for every key. *)
Definition cleanup (now : N) (s : store) : store :=
  fun k =>
    match s k with
    | Some e => if resetTime e <? now then None else Some e
    | None => None
    end.

Record request : Type := mkRequest {
  ip : option string;
  remoteAddress : option string
}.

(** [req.ip || req.connection.remoteAddress || 'unknown'] *)
Definition clientId (req : request) : string :=
  match or_null (ip req) with
  | Some v => v
  | None =>
      match or_null (remoteAddress req) with
      | Some v => v
      | None => "unknown"
      end
  end.

(** The three headers, before [toString()]. *)
Record headers : Type := mkHeaders {
  X_RateLimit_Limit : nat;
  X_RateLimit_Remaining : nat;
  X_RateLimit_Reset : N
}.

(** The body of the 429 answer; [success] is [false]. *)
Record too_many : Type := mkTooMany {
  message : string;
  retryAfter : N
}.

Inductive response : Type :=
| Next (h : option headers)
| Status429 (h : headers) (body : too_many).

(** [Math.ceil(n / 1000)] of a number that is not negative. *)
Definition ceil_seconds (n : N) : N := (n + 999) / 1000.

(** [rateLimiter(req, res, next)] at the instant [now] of [Date.now()].
    The entry read back after the write is the entry just written; its
    [resetTime] is never before [now], so the subtraction in
    [retryAfter] does not go below zero. *)
Definition rateLimiter (env : node_env) (now : N) (req : request) (s : store)
  : store * response :=
  (* Skip rate limiting in test environment *)
  if is_test env then (s, Next None)
  else
    let id := clientId req in
    (* Clean up expired entries *)
    let s1 := cleanup now s in
    (* Initialize or get current data for client *)
    let e :=
      match s1 id with
      | None => mkEntry 1 (now + WINDOW_MS)
      | Some old =>
          if resetTime old <? now then mkEntry 1 (now + WINDOW_MS)
          else mkEntry (S (count old)) (resetTime old)
      end in
    let s2 := set id e s1 in
    (* Set rate limit headers *)
    let h := mkHeaders MAX_REQUESTS (MAX_REQUESTS - count e)%nat
               (ceil_seconds (resetTime e)) in
    (* Check if limit exceeded *)
    if (MAX_REQUESTS <? count e)%nat then
      (s2, Status429 h
             (mkTooMany "Too many requests, please try again later."
                (ceil_seconds (resetTime e - now))))
    else (s2, Next (Some h)).

(** A request reaching the server at an instant, and the server handling
    a sequence of them. *)
Record arrival : Type := mkArrival {
  at_time : N;
  from : request
}.

Fixpoint serve (env : node_env) (s : store) (l : list arrival)
  : store * list (arrival * response) :=
  match l with
  | [] => (s, [])
  | a :: l' =>
      let (s1, r) := rateLimiter env (at_time a) (from a) s in
      let (s2, rs) := serve env s1 l' in
      (s2, (a, r) :: rs)
  end.

Definition is_from (c : string) (a : arrival) : bool :=
  String.eqb (clientId (from a)) c.

Definition passed (r : response) : bool :=
  match r with
  | Next _ => true
  | Status429 _ _ => false
  end.

(** The requests of client [c] that were let through. *)
Definition let_through (c : string) (rs : list (arrival * response)) : nat :=
  List.length (filter (fun ar => is_from c (fst ar) && passed (snd ar)) rs).

(** Instants that never go back, starting not before [t]. *)
Fixpoint ordered (t : N) (l : list arrival) : Prop :=
  match l with
  | [] => True
  | a :: l' => t <= at_time a /\ ordered (at_time a) l'
  end.

(** The answer to the [k]-th request of a window (from 1) that was
    opened at the instant [opened] and is answered at [now]. *)
Definition answer (opened now : N) (k : nat) : response :=
  let h := mkHeaders MAX_REQUESTS (MAX_REQUESTS - k)%nat
             (ceil_seconds (opened + WINDOW_MS)) in
  if (MAX_REQUESTS <? k)%nat then
    Status429 h (mkTooMany "Too many requests, please try again later."
                   (ceil_seconds (opened + WINDOW_MS - now)))
  else Next (Some h).

(** What is left of the allowance of client [c] in its current entry. *)
Definition budget (s : store) (c : string) : nat :=
  match s c with
  | Some e => (MAX_REQUESTS - count e)%nat
  | None => 0%nat
  end.

(** Every entry was opened not after [t] and counts at least one
    request. *)
Definition opened_by (t : N) (s : store) : Prop :=
  forall k e, s k = Some e -> resetTime e <= t + WINDOW_MS /\ (1 <= count e)%nat.

(** Two stores in which client [c] has the same entry, if any, at every
    instant from [t] on. *)
Definition agree (c : string) (t : N) (s s' : store) : Prop :=
  forall now, t <= now -> cleanup now s c = cleanup now s' c.

Definition sample_client : request := mkRequest (Some "10.0.0.1") None.
Definition other_client : request := mkRequest None (Some "10.0.0.2").

Definition sample_arrivals : list arrival :=
  [mkArrival 1700000000000 sample_client;
   mkArrival 1700000000500 other_client;
   mkArrival 1700000001000 sample_client;
   mkArrival 1700000900001 other_client;
   mkArrival 1700000900002 sample_client].

End RateLimiter.

(* ================================================================= *)
(** ** The signup form (components/SignupForm.tsx) *)

Module SignupForm.
Import Js.

Record form : Type := mkForm {
  email : string;
  password : string;
  confirmPassword : string
}.

Definition in_range (lo hi : nat) (c : ascii) : bool :=
  (lo <=? nat_of_ascii c) && (nat_of_ascii c <=? hi).

(** The character classes [a-z], [A-Z], [0-9] and [^A-Za-z0-9]. *)
Definition is_lower : ascii -> bool := in_range 97 122.
Definition is_upper : ascii -> bool := in_range 65 90.
Definition is_digit : ascii -> bool := in_range 48 57.
Definition is_other (c : ascii) : bool :=
  negb (is_upper c || is_lower c || is_digit c).

(** [/[class]/.test(s)]: some character of [s] is in the class. *)
Fixpoint test (class : ascii -> bool) (s : string) : bool :=
  match s with
  | EmptyString => false
  | String c s' => class c || test class s'
  end.

Definition getPasswordStrength (password : string) : nat * list bool :=
  let checks :=
    [6 <=? String.length password;
     test is_lower password;
     test is_upper password;
     test is_digit password;
     test is_other password] in
  (List.length (filter (fun b => b) checks), checks).

Definition validateForm (f : form) : option string :=
  if negb (truthy (email f)) || negb (truthy (password f))
     || negb (truthy (confirmPassword f))
  then Some "All fields are required"
  else if String.length (password f) <? 6
  then Some "Password must be at least 6 characters long"
  else if negb (String.eqb (password f) (confirmPassword f))
  then Some "Passwords do not match"
  else None.

Definition sample_form : form := mkForm "a@example.com" "secret1" "secret1".

End SignupForm.

(* ================================================================= *)
(** * Properties *)

(** ** The error middleware *)

Module ErrorHandlerFacts.
Import Js ErrorHandler.

(** An [AppError] whose message triggers none of the substring rules is
    answered with its own status and message. *)
Lemma errorHandler_AppError env msg code line :
  code <> 0 -> code <> 500 ->
  includes msg "UNIQUE constraint failed: users.email" = false ->
  includes msg "UNIQUE constraint failed: generations.id" = false ->
  includes msg "not found" = false ->
  includes msg "Not found" = false ->
  errorHandler env (AppError msg code line) =
  mkErrorResponse code
    (mkErrorBody false msg (if is_development env then Some line else None)).
Proof.
  intros H0 H500 H1 H2 H3 H4. unfold errorHandler, AppError. cbn.
  rewrite H1, H2, H3, H4. cbn.
  unfold statusCode_or_500, truthy_num.
  destruct (Nat.eqb_spec code 0) as [->|_]; [contradiction|]. cbn.
  destruct (Nat.eqb_spec code 500) as [->|_]; [contradiction|]. reflexivity.
Qed.

(** The rule for expired tokens, as the middleware has it: an error
    named [TokenExpiredError] is answered 401 "Token expired". *)
Lemma errorHandler_TokenExpiredError env c msg code line iss :
  er_status (errorHandler env (mkError c "TokenExpiredError" msg code line iss))
  = 401
  /\ eb_message (er_body (errorHandler env
                            (mkError c "TokenExpiredError" msg code line iss)))
     = "Token expired".
Proof.
  unfold errorHandler. cbn.
  destruct (includes msg "UNIQUE constraint failed: users.email");
  destruct (includes msg "UNIQUE constraint failed: generations.id");
  destruct (includes msg "not found"); destruct (includes msg "Not found");
  cbn; auto.
Qed.

End ErrorHandlerFacts.

(** ** Login *)

Module LoginFacts.
Import Js ErrorHandler Validation Models Http Auth AuthController.

Section Login.

Variable bcrypt_compare : string -> string -> bool.
Variable is_email : string -> bool.
Variable jwt_encode : token -> string.

Lemma login_no_such_user env users now secret b email password :
  loginSchema_parse is_email b = Resolve (email, password) ->
  no_such_user users email ->
  login bcrypt_compare is_email jwt_encode env users now secret b
  = login_rejection env 54.
Proof.
  intros Hp Hu. unfold login, login_handler, asyncHandler.
  rewrite Hp. red in Hu. rewrite Hu. reflexivity.
Qed.

Lemma login_wrong_password env users now secret b email password :
  loginSchema_parse is_email b = Resolve (email, password) ->
  wrong_password bcrypt_compare users email password ->
  login bcrypt_compare is_email jwt_encode env users now secret b
  = login_rejection env 60.
Proof.
  intros Hp (u & Hu & Hc). unfold login, login_handler, asyncHandler.
  rewrite Hp, Hu, Hc. reflexivity.
Qed.

(** C10.  A validated login that fails because no user has the e-mail and
    one that fails because the password does not match the stored hash
    are both answered 401 with the message "Invalid email or password";
    outside development mode the two responses are equal, and in
    development mode, where the body also carries the stack of the
    error, they always differ: the stack names the [throw] that raised
    it. *)
Theorem login_failure_causes_indistinguishable :
  forall env users1 users2 now1 now2 secret b1 b2 email1 password1
         email2 password2,
    loginSchema_parse is_email b1 = Resolve (email1, password1) ->
    loginSchema_parse is_email b2 = Resolve (email2, password2) ->
    no_such_user users1 email1 ->
    wrong_password bcrypt_compare users2 email2 password2 ->
    let r1 := login bcrypt_compare is_email jwt_encode env users1 now1 secret b1 in
    let r2 := login bcrypt_compare is_email jwt_encode env users2 now2 secret b2 in
    status_of r1 = 401 /\ status_of r2 = 401
    /\ message_of r1 = Some "Invalid email or password"
    /\ message_of r2 = Some "Invalid email or password"
    /\ (env <> Development -> r1 = r2)
    /\ (env = Development -> r1 <> r2).
Proof.
  intros env users1 users2 now1 now2 secret b1 b2 e1 p1 e2 p2 H1 H2 Hn Hw r1 r2.
  subst r1 r2.
  rewrite (login_no_such_user env users1 now1 secret b1 e1 p1 H1 Hn).
  rewrite (login_wrong_password env users2 now2 secret b2 e2 p2 H2 Hw).
  repeat split; try reflexivity.
  - intros Hdev. unfold login_rejection.
    destruct env; try reflexivity. contradiction.
  - intros -> H. discriminate H.
Qed.

End Login.

(** C10, as the specification words it, fails in development mode: an
    unknown address and a known address with a wrong password get
    different bodies, the stack pointing at line 54 for the first and at
    line 60 for the second. *)
Lemma login_failure_causes_differ_in_development :
  let users := [mkUser 1 "a@example.com" "$2a$12$hash" "2024-01-01 10:00:00"] in
  let cmp := fun password hash : string => String.eqb password "secret1" in
  let b1 := mkLoginBody (Str "b@example.com") (Str "secret1") in
  let b2 := mkLoginBody (Str "a@example.com") (Str "wrong") in
  login cmp (fun _ => true) (fun _ => "token") Development users 0%Z "k" b1
  = login_rejection Development 54
  /\ login cmp (fun _ => true) (fun _ => "token") Development users 0%Z "k" b2
     = login_rejection Development 60
  /\ login_rejection Development 54 <> login_rejection Development 60.
Proof.
  cbv zeta. split; [reflexivity|]. split; [reflexivity|]. discriminate.
Qed.

(** The theorem at work: an unknown address against a known address with
    a wrong password, in production. *)
Lemma login_failure_causes_indistinguishable_witness :
  let users := [mkUser 1 "a@example.com" "$2a$12$hash" "2024-01-01 10:00:00"] in
  let cmp := fun password hash : string => String.eqb password "secret1" in
  let b1 := mkLoginBody (Str "b@example.com") (Str "secret1") in
  let b2 := mkLoginBody (Str "a@example.com") (Str "wrong") in
  let r1 := login cmp (fun _ => true) (fun _ => "token") Production users 0%Z "k" b1 in
  let r2 := login cmp (fun _ => true) (fun _ => "token") Production users 0%Z "k" b2 in
  status_of r1 = 401 /\ status_of r2 = 401
  /\ message_of r1 = Some "Invalid email or password"
  /\ message_of r2 = Some "Invalid email or password"
  /\ r1 = r2.
Proof.
  intros users cmp b1 b2.
  destruct (login_failure_causes_indistinguishable cmp (fun _ => true)
              (fun _ => "token") Production users users 0%Z 0%Z "k" b1 b2
              "b@example.com" "secret1" "a@example.com" "wrong"
              eq_refl eq_refl eq_refl
              (ex_intro _
                 (mkUser 1 "a@example.com" "$2a$12$hash" "2024-01-01 10:00:00")
                 (conj eq_refl eq_refl)))
    as (S1 & S2 & M1 & M2 & E & _).
  intros r1 r2.
  split; [exact S1|]. split; [exact S2|]. split; [exact M1|].
  split; [exact M2|]. apply E. discriminate.
Defined.

End LoginFacts.

(** ** Bearer tokens *)

Module TokenFacts.
Import Js ErrorHandler Validation Models Http Auth AuthController.

Section Tokens.

Variable jwt_decode : string -> option token.

(** A token whose signature does not verify is answered 401 "Invalid
    token". *)
Lemma tampered_token_rejected env users now secret hdr tok t :
  bearer_token hdr = Some tok ->
  jwt_decode tok = Some t ->
  tok_key t <> secret ->
  me jwt_decode env users now secret hdr
  = Failure (mkErrorResponse 401
               (mkErrorBody false "Invalid token"
                  (if is_development env then Some 41 else None))).
Proof.
  intros Hb Hd Hk.
  unfold me, authenticateToken, jwt_verify. rewrite Hb, Hd. cbn.
  destruct (String.eqb_spec (tok_key t) secret) as [E|_]; [contradiction|].
  reflexivity.
Qed.

(** An expired token with a good signature makes [jwt.verify] throw a
    [TokenExpiredError]; the [instanceof] test of the middleware accepts
    it and replaces it, so the answer is 401 "Invalid token" as well. *)
Lemma expired_token_rejected env users now secret hdr tok t :
  bearer_token hdr = Some tok ->
  jwt_decode tok = Some t ->
  tok_key t = secret ->
  (tok_exp t <= now)%Z ->
  me jwt_decode env users now secret hdr
  = Failure (mkErrorResponse 401
               (mkErrorBody false "Invalid token"
                  (if is_development env then Some 41 else None))).
Proof.
  intros Hb Hd Hk He.
  unfold me, authenticateToken, jwt_verify. rewrite Hb, Hd. cbn.
  rewrite Hk, String.eqb_refl. cbn.
  destruct (Z.leb_spec (tok_exp t) now) as [_|Hlt]; [reflexivity|lia].
Qed.

End Tokens.

(** C8, on the code.  [GET /api/auth/me] at second 2000 with a token that
    is signed with the server key and expired at second 1000 is answered
    401 with the message "Invalid token", the message of the tampered
    token, and not "Token expired". *)
Theorem expired_token_answered_invalid_token :
  let expired := me sample_decode Production sample_users 2000 "server-key"
                   (Some "Bearer expired-token") in
  let tampered := me sample_decode Production sample_users 2000 "server-key"
                    (Some "Bearer tampered-token") in
  status_of expired = 401
  /\ message_of expired = Some "Invalid token"
  /\ message_of expired <> Some "Token expired"
  /\ expired = tampered.
Proof.
  cbv zeta. repeat split; try reflexivity. discriminate.
Qed.

End TokenFacts.

(** ** The store *)

Module StoreFacts.
Import Js ErrorHandler Models GenerationModel.

Lemma find_app {A} (f : A -> bool) (l1 l2 : list A) :
  find f (l1 ++ l2)
  = match find f l1 with Some x => Some x | None => find f l2 end.
Proof.
  induction l1 as [|a l1 IH]; cbn; [reflexivity|].
  destruct (f a); [reflexivity|exact IH].
Qed.

Lemma find_none_existsb {A} (f : A -> bool) (l : list A) :
  existsb f l = false -> find f l = None.
Proof.
  induction l as [|a l IH]; cbn; [reflexivity|].
  destruct (f a); cbn; [discriminate|exact IH].
Qed.

Lemma insert_desc_perm g l : Permutation (g :: l) (insert_desc g l).
Proof.
  induction l as [|h t IH]; cbn; [reflexivity|].
  destruct (String.leb (created_at h) (created_at g)); [reflexivity|].
  rewrite perm_swap. now constructor.
Qed.

Lemma order_perm l : Permutation l (order_by_created_at_desc l).
Proof.
  induction l as [|g t IH]; cbn; [constructor|].
  rewrite <- insert_desc_perm. now constructor.
Qed.

Lemma insert_desc_hd g l a :
  HdRel newest_first a l -> newest_first a g -> HdRel newest_first a (insert_desc g l).
Proof.
  intros Hl Hg. destruct l as [|h t]; cbn; [now constructor|].
  destruct (String.leb (created_at h) (created_at g)); constructor; auto.
  now inversion Hl.
Qed.

Lemma insert_desc_sorted g l :
  Sorted newest_first l -> Sorted newest_first (insert_desc g l).
Proof.
  induction 1 as [|h t Hs IH Hh]; cbn; [repeat constructor|].
  destruct (String.leb (created_at h) (created_at g)) eqn:E.
  - constructor; [now constructor|]. constructor. exact E.
  - constructor; [exact IH|]. apply insert_desc_hd; [exact Hh|].
    unfold newest_first. destruct (String.leb_total (created_at g) (created_at h))
      as [H|H]; [exact H|congruence].
Qed.

Lemma order_sorted l : Sorted newest_first (order_by_created_at_desc l).
Proof.
  induction l as [|g t IH]; cbn; [constructor|].
  now apply insert_desc_sorted.
Qed.

Lemma firstn_sorted {A} (R : A -> A -> Prop) n l :
  Sorted R l -> Sorted R (firstn n l).
Proof.
  revert l. induction n as [|n IH]; intros l Hs; cbn; [constructor|].
  destruct l as [|a t]; [constructor|].
  inversion Hs as [|? ? Ht Hh]; subst. constructor; [now apply IH|].
  destruct t as [|b t']; destruct n; cbn; constructor. now inversion Hh.
Qed.

Lemma sql_limit_prefix {A} n (l : list A) :
  exists rest, sql_limit n l ++ rest = l.
Proof.
  unfold sql_limit. destruct (n <? 0)%Z.
  - exists []. apply app_nil_r.
  - exists (skipn (Z.to_nat n) l). apply firstn_skipn.
Qed.

Lemma sql_limit_length {A} n (l : list A) :
  (0 <= n)%Z -> List.length (sql_limit n l) = Nat.min (Z.to_nat n) (List.length l).
Proof.
  intros Hn. unfold sql_limit.
  destruct (Z.ltb_spec n 0) as [H|_]; [lia|]. apply length_firstn.
Qed.

Lemma sql_limit_sorted {A} (R : A -> A -> Prop) n l :
  Sorted R l -> Sorted R (sql_limit n l).
Proof.
  intros Hs. unfold sql_limit. destruct (n <? 0)%Z; [exact Hs|].
  now apply firstn_sorted.
Qed.

Lemma sql_limit_incl {A} n (l : list A) x : In x (sql_limit n l) -> In x l.
Proof.
  destruct (sql_limit_prefix n l) as [rest E]. intros Hx.
  rewrite <- E. apply in_or_app. now left.
Qed.

(** What [findByUserId] returns: a prefix of the caller's rows ordered
    newest first. *)
Lemma findByUserId_spec db userId limit :
  (0 <= limit)%Z ->
  let rows := findByUserId db userId limit in
  (exists all rest,
      all = rows ++ rest
      /\ Permutation all (filter (fun g => user_id g =? userId) db)
      /\ Sorted newest_first all)
  /\ Sorted newest_first rows
  /\ Forall (fun g => In g db /\ user_id g = userId) rows
  /\ List.length rows
     = Nat.min (Z.to_nat limit)
         (List.length (filter (fun g => user_id g =? userId) db)).
Proof.
  intros Hl rows. subst rows. unfold findByUserId.
  set (owned := filter (fun g => user_id g =? userId) db).
  repeat split.
  - destruct (sql_limit_prefix limit (order_by_created_at_desc owned))
      as [rest E].
    exists (order_by_created_at_desc owned), rest. repeat split.
    + now rewrite E.
    + symmetry. apply order_perm.
    + apply order_sorted.
  - apply sql_limit_sorted, order_sorted.
  - apply Forall_forall. intros g Hg. apply sql_limit_incl in Hg.
    apply (Permutation_in g (Permutation_sym (order_perm owned))) in Hg.
    apply filter_In in Hg. destruct Hg as [Hin Ho].
    split; [exact Hin|]. now apply Nat.eqb_eq.
  - rewrite sql_limit_length by exact Hl.
    now rewrite <- (Permutation_length (order_perm owned)).
Qed.

End StoreFacts.

(** ** Validation *)

Module ValidationFacts.
Import Js ErrorHandler Validation.

Lemma small_cases (d : N) :
  (d < 10)%N ->
  (d = 0 \/ d = 1 \/ d = 2 \/ d = 3 \/ d = 4 \/ d = 5 \/ d = 6 \/ d = 7
   \/ d = 8 \/ d = 9)%N.
Proof. lia. Qed.

Lemma digit_of_digit_char d :
  (d < 10)%N -> digit_of (digit_char d) = Some (Z.of_N d).
Proof.
  intros H. apply small_cases in H.
  repeat (destruct H as [->|H]; [reflexivity|]). subst. reflexivity.
Qed.

Lemma parseInt_digit_head d s :
  (d < 10)%N ->
  parseInt (String (digit_char d) s) = digits_prefix None (String (digit_char d) s).
Proof.
  intros H. apply small_cases in H.
  repeat (destruct H as [->|H]; [reflexivity|]). subst. reflexivity.
Qed.

Lemma div10_fuel n fuel :
  (n < 2 ^ N.of_nat (S fuel))%N -> (10 <= n)%N -> (n / 10 < 2 ^ N.of_nat fuel)%N.
Proof.
  intros Hn Hge. apply N.Div0.div_lt_upper_bound.
  rewrite Nat2N.inj_succ, N.pow_succ_r' in Hn; lia.
Qed.

Lemma div10_positive_fuel n fuel :
  (n < 2 ^ N.of_nat (S fuel))%N -> (10 <= n)%N -> 0 < fuel.
Proof.
  intros Hn Hge. destruct fuel; [|lia]. cbn in Hn. lia.
Qed.

Lemma digits_prefix_show fuel :
  forall n rest a, 0 < fuel -> (n < 2 ^ N.of_nat fuel)%N ->
    exists k : Z, (0 <= k)%Z /\
      digits_prefix a (show_N_fuel fuel n rest)
      = digits_prefix (Some (acc_value a * 10 ^ k + Z.of_N n)%Z) rest.
Proof.
  induction fuel as [|fuel IH]; intros n rest a Hf Hn; [lia|].
  cbn [show_N_fuel].
  assert (Hd : (n mod 10 < 10)%N) by (apply N.mod_upper_bound; lia).
  pose proof (N.div_mod n 10 ltac:(lia)) as Hdm.
  destruct (N.ltb_spec n 10) as [Hlt|Hge].
  - exists 1%Z. split; [lia|]. cbn [digits_prefix].
    rewrite (digit_of_digit_char _ Hd).
    rewrite (N.mod_small n 10 Hlt). do 2 f_equal.
    rewrite Z.pow_1_r. lia.
  - destruct (IH (n / 10)%N (String (digit_char (n mod 10)) rest) a
                (div10_positive_fuel n fuel Hn Hge) (div10_fuel n fuel Hn Hge))
      as (k & Hk & E).
    exists (k + 1)%Z. split; [lia|]. rewrite E. cbn [digits_prefix].
    rewrite (digit_of_digit_char _ Hd). do 2 f_equal.
    rewrite Z.pow_add_r, Z.pow_1_r, Z.mul_assoc by lia.
    cbn [acc_value]. lia.
Qed.

Lemma show_N_head fuel :
  forall n rest, 0 < fuel -> (n < 2 ^ N.of_nat fuel)%N ->
    exists d s, (d < 10)%N /\ show_N_fuel fuel n rest = String (digit_char d) s.
Proof.
  induction fuel as [|fuel IH]; intros n rest Hf Hn; [lia|].
  cbn [show_N_fuel].
  destruct (N.ltb_spec n 10) as [Hlt|Hge].
  - exists (n mod 10)%N, rest. split; [|reflexivity].
    apply N.mod_upper_bound. lia.
  - apply IH; [exact (div10_positive_fuel n fuel Hn Hge)
              |exact (div10_fuel n fuel Hn Hge)].
Qed.

Lemma show_N_fuel_enough n : (n < 2 ^ N.of_nat (S (N.to_nat (N.size n))))%N.
Proof.
  rewrite Nat2N.inj_succ, N2Nat.id, N.pow_succ_r'.
  pose proof (N.size_gt n). lia.
Qed.

(** [parseInt] reads back the decimal rendering of a number. *)
Lemma parseInt_show_N n : parseInt (show_N n) = Some (Z.of_N n).
Proof.
  unfold show_N.
  destruct (show_N_head _ n "" (Nat.lt_0_succ _) (show_N_fuel_enough n))
    as (d & s & Hd & E).
  rewrite E, (parseInt_digit_head d s Hd), <- E.
  destruct (digits_prefix_show _ n "" None (Nat.lt_0_succ _)
              (show_N_fuel_enough n)) as (k & _ & Ek).
  rewrite Ek. cbn. f_equal.
Qed.

Lemma show_N_truthy n : truthy (show_N n) = true.
Proof.
  unfold show_N.
  destruct (show_N_head _ n "" (Nat.lt_0_succ _) (show_N_fuel_enough n))
    as (d & s & _ & E).
  now rewrite E.
Qed.

Lemma limit_transform_range v :
  (1 <= limit_transform v <= 20)%Z.
Proof.
  unfold limit_transform. destruct v as [v|]; [|lia].
  destruct (negb (truthy v)); [lia|].
  destruct (parseInt v); lia.
Qed.

(** A query value that is the decimal rendering of [n] is clamped into
    [1, 20]. *)
Lemma limit_transform_decimal n :
  limit_transform (Some (show_N n)) = Z.min (Z.max (Z.of_N n) 1) 20.
Proof.
  unfold limit_transform.
  rewrite show_N_truthy. cbn [negb]. now rewrite parseInt_show_N.
Qed.

Lemma limit_transform_parse v :
  limit_transform (Some v)
  = match parseInt v with
    | Some num => Z.min (Z.max num 1) 20
    | None => 5%Z
    end.
Proof.
  unfold limit_transform. destruct v as [|c s]; reflexivity.
Qed.

Lemma prompt_issues_length p :
  prompt_issues (Str p) = [] <-> 1 <= String.length p <= 500.
Proof.
  unfold prompt_issues.
  destruct (Nat.ltb_spec (String.length p) 1);
  destruct (Nat.ltb_spec 500 (String.length p)); cbn;
    split; intros; try discriminate; try lia; reflexivity.
Qed.

End ValidationFacts.

(** ** The Job API *)

Module JobApiFacts.
Import Js ErrorHandler Validation Models Http Auth Generations.
Import GenerationModel.
Import StoreFacts ValidationFacts.

Lemma authenticated_ok u line :
  au_id u <> 0 -> authenticated (Some u) line = Resolve (au_id u).
Proof.
  intros H. unfold authenticated, truthy_num.
  destruct (Nat.eqb_spec (au_id u) 0); [contradiction|reflexivity].
Qed.

Section Api.

Variable path_basename : string -> string.

(** C6.  For a caller with a user id, fetching a job by id is answered
    404 "Generation not found" when no row has the id, 403 with the fixed
    body "Access denied" (the same for every such job) when the row
    belongs to another user, and 200 with the job only when the caller
    owns it. *)
Theorem getGeneration_ownership :
  forall env db u i,
    au_id u <> 0 ->
    let r := getGeneration path_basename env db (Some u) i in
    (find (has_id i) db = None -> r = generation_not_found env)
    /\ (forall g, find (has_id i) db = Some g -> user_id g <> au_id u ->
                  r = access_denied env)
    /\ (forall g, find (has_id i) db = Some g -> user_id g = au_id u ->
                  r = Json 200 (GenerationData (transform path_basename g)))
    /\ (status_of r = 200 ->
        exists g, find (has_id i) db = Some g /\ user_id g = au_id u).
Proof.
  intros env db u i Hu r. subst r.
  unfold getGeneration, getGeneration_handler, findById.
  rewrite (authenticated_ok u 150 Hu). cbn [bind].
  destruct (find (has_id i) db) as [g|] eqn:Hf; cbn [bind].
  - destruct (Nat.eqb_spec (user_id g) (au_id u)) as [Ho|Ho]; cbn [negb].
    + split; [discriminate|]. split; [|split].
      * intros g' [= <-] Hne. contradiction.
      * intros g' [= <-] _. reflexivity.
      * intros _. now exists g.
    + split; [discriminate|]. split; [|split].
      * intros g' [= <-] _. destruct env; reflexivity.
      * intros g' [= <-] He. contradiction.
      * destruct env; cbn; discriminate.
  - split; [|split; [|split]]; try discriminate.
    intros _. destruct env; reflexivity.
Qed.

(** C9.  For a caller with a user id: a [limit] query value that is
    absent or a string is answered 200 with the caller's rows only,
    newest first by [created_at], cut to the effective limit, which is 5
    when the value is absent (or empty, or not a number) and otherwise
    the number read by [parseInt] clamped into [1, 20]; a [limit] that
    is not a string (given more than once, or with brackets) is answered
    400 with zod's message and lists nothing. *)
Theorem getGenerations_listing :
  forall env db u limit,
    au_id u <> 0 ->
    (forall t, limit = NotAString t ->
       getGenerations path_basename env db (Some u) limit
       = limit_refused env t)
    /\ (limit = Absent \/ (exists v, limit = Str v) ->
        exists (n : Z) (rows : list Generation),
          getGenerations path_basename env db (Some u) limit
          = Json 200 (GenerationList (map (transform path_basename) rows)
                        (List.length rows))
          /\ (1 <= n <= 20)%Z
          /\ (limit = Absent -> n = 5%Z)
          /\ (forall v, limit = Str v ->
                n = match parseInt v with
                    | Some num => Z.min (Z.max num 1) 20
                    | None => 5%Z
                    end)
          /\ (forall k, limit = Str (show_N k) ->
                n = Z.min (Z.max (Z.of_N k) 1) 20)
          /\ Forall (fun g => In g db /\ user_id g = au_id u) rows
          /\ Sorted newest_first rows
          /\ List.length rows
             = Nat.min (Z.to_nat n)
                 (List.length (filter (fun g => user_id g =? au_id u) db))
          /\ (exists all rest,
                 all = rows ++ rest
                 /\ Permutation all (filter (fun g => user_id g =? au_id u) db)
                 /\ Sorted newest_first all)).
Proof.
  intros env db u limit Hu. split.
  - intros t ->. unfold getGenerations, getGenerations_handler.
    rewrite (authenticated_ok u 119 Hu). cbn [bind].
    destruct env, t; reflexivity.
  - intros Hl.
    set (n := match limit with
              | Str v => limit_transform (Some v)
              | _ => limit_transform None
              end).
    assert (Hn : (1 <= n <= 20)%Z).
    { subst n. destruct limit; apply limit_transform_range. }
    exists n, (findByUserId db (au_id u) n).
    destruct (findByUserId_spec db (au_id u) n ltac:(lia))
      as (Hall & Hs & Hf & Hlen).
    repeat split; try assumption; try lia.
    + unfold getGenerations, getGenerations_handler.
      rewrite (authenticated_ok u 119 Hu). cbn [bind].
      destruct Hl as [->|[v ->]]; cbn; now rewrite length_map.
    + intros ->. reflexivity.
    + intros v ->. subst n. apply limit_transform_parse.
    + intros k ->. subst n. apply limit_transform_decimal.
Qed.

(** A request that passes every check creates the row, in status
    [processing], and starts the background task for it. *)
Lemma createGeneration_creates db req uid p s f :
  authenticated (cr_user req) 45 = Resolve uid ->
  cr_body req = mkCreateBody (Str p) (Str s) ->
  1 <= String.length p <= 500 ->
  is_style s = true ->
  cr_file req = Some f ->
  validateImageFile f = None ->
  let gid := (cr_uuid req ++ "-" ++ show_N (cr_now_ms req))%string in
  existsb (has_id gid) db = false ->
  let g := mkGeneration gid uid p s (or_null (Some (path f))) None
             "processing" (cr_timestamp req) in
  createGeneration_handler db req
  = (db ++ [g], Some (gid, path f),
     Resolve (201, GenerationStarted
                     (mkSummary gid p s "processing" (cr_timestamp req)))).
Proof.
  intros Ha Hb Hp Hs Hf Hv gid Hfresh g.
  unfold createGeneration_handler. rewrite Ha, Hb.
  unfold createGenerationSchema_parse. cbn [body_prompt body_style].
  rewrite (proj2 (prompt_issues_length p) Hp).
  unfold style_issues. rewrite Hs. cbn [app]. rewrite Hf, Hv.
  unfold create. cbn [cg_id]. fold gid. rewrite Hfresh.
  cbn [cg_user_id cg_prompt cg_style cg_image_path]. fold g.
  unfold findById. rewrite find_app.
  rewrite (find_none_existsb _ _ Hfresh).
  cbn [find]. unfold has_id at 1. cbn [id g]. rewrite String.eqb_refl.
  reflexivity.
Qed.

(** C7.  The schema accepts a prompt exactly when its length lies between
    1 and 500 (it does not trim: a prompt of blanks is accepted); a prompt
    of exactly 500 characters is accepted; and a request whose prompt
    violates the rule is rejected with a ZodError, answered 400, with the
    table unchanged and no background task started. *)
Theorem prompt_checked_by_length :
  forall env db req uid,
    authenticated (cr_user req) 45 = Resolve uid ->
    (forall p, prompt_accepted p <-> 1 <= String.length p <= 500)
    /\ (forall p, String.length p = 500 -> prompt_accepted p)
    /\ (prompt_issues (body_prompt (cr_body req)) <> [] ->
        exists e,
          createGeneration_handler db req = (db, None, Reject e)
          /\ name e = "ZodError"
          /\ er_status (errorHandler env e) = 400).
Proof.
  intros env db req uid Ha.
  assert (Hacc : forall p, prompt_accepted p <-> 1 <= String.length p <= 500).
  { intros p. rewrite <- prompt_issues_length. unfold prompt_accepted.
    unfold createGenerationSchema_parse. cbn [body_prompt body_style].
    change (style_issues (Str "realistic")) with (@nil string).
    rewrite app_nil_r.
    destruct (prompt_issues (Str p)); split; intros H;
      try reflexivity; try discriminate. }
  split; [exact Hacc|]. split.
  - intros p Hp. apply Hacc. lia.
  - intros Hbad. unfold createGeneration_handler. rewrite Ha.
    unfold createGenerationSchema_parse.
    destruct (body_prompt (cr_body req)) as [|p|[| | | |]];
      destruct (body_style (cr_body req)) as [|s|t];
      cbn [prompt_issues style_issues] in *;
      try destruct (String.length p <? 1);
      try destruct (500 <? String.length p);
      try destruct (is_style s);
      cbn [app] in *; try contradiction;
      eexists; (split; [reflexivity|split; reflexivity]).
Qed.

End Api.

(** C7, as the specification words it, fails for the prompt [" "]: the
    schema accepts it although nothing is left after trimming. *)
Lemma blank_prompt_accepted : ~ prompt_rule_with_trimming " ".
Proof.
  unfold prompt_rule_with_trimming. intros [H _].
  destruct (H eq_refl) as [Ht _]. apply Ht. reflexivity.
Qed.

(** The whole request with the prompt [" "] creates the job. *)
Lemma blank_prompt_creates_job :
  createGeneration_handler [] (sample_create " ")
  = ([mkGeneration "3f2a-1700000000000" 1 " " "artistic"
        (Some "uploads/image-1.png") None "processing" "2024-01-01 10:00:00"],
     Some ("3f2a-1700000000000", "uploads/image-1.png"),
     Resolve (201, GenerationStarted
                     (mkSummary "3f2a-1700000000000" " " "artistic"
                        "processing" "2024-01-01 10:00:00"))).
Proof. vm_compute. reflexivity. Qed.

(** C6 at work: user 1 asks for the job of user 2. *)
Lemma getGeneration_ownership_witness :
  au_id sample_user <> 0
  /\ getGeneration posix_basename Production sample_db (Some sample_user)
       "job-2" = access_denied Production
  /\ getGeneration posix_basename Production sample_db (Some sample_user)
       "job-1"
     = Json 200 (GenerationData
                   (mkView "job-1" "a cat" "cartoon" "completed"
                      (Some "/uploads/image-1.png")
                      (Some "/uploads/result_1700000000000.jpg")
                      "2024-01-01 10:00:00")).
Proof.
  assert (au_id sample_user <> 0) as Hu by discriminate.
  split; [exact Hu|]. split.
  - destruct (getGeneration_ownership posix_basename Production sample_db
                sample_user "job-2" Hu) as (_ & H & _).
    apply (H (nth 1 sample_db (mkGeneration "" 0 "" "" None None "" "")));
      [reflexivity|discriminate].
  - destruct (getGeneration_ownership posix_basename Production sample_db
                sample_user "job-1" Hu) as (_ & _ & H & _).
    apply (H (nth 0 sample_db (mkGeneration "" 0 "" "" None None "" "")));
      reflexivity.
Defined.

(** C9, as the specification words it, fails for a [limit] that is
    given twice: the query parser delivers an array, the schema rejects
    it and the caller is answered 400 instead of a listing. *)
Lemma repeated_limit_refused :
  ~ answered_with_a_listing posix_basename Production sample_db sample_user
      (NotAString AnArray).
Proof. intros (views & total & H). vm_compute in H. discriminate. Qed.

(** C9 at work: user 1 lists with [limit=100], and with [limit] given
    twice. *)
Lemma getGenerations_listing_witness :
  au_id sample_user <> 0
  /\ getGenerations posix_basename Production sample_db (Some sample_user)
       (NotAString AnArray)
     = Failure (mkErrorResponse 400
                  (mkErrorBody false
                     "Invalid input: expected string, received array" None))
  /\ exists (n : Z) (rows : list Generation),
       getGenerations posix_basename Production sample_db (Some sample_user)
         (Str "100")
       = Json 200 (GenerationList (map (transform posix_basename) rows)
                     (List.length rows))
       /\ n = 20%Z
       /\ Forall (fun g => In g sample_db /\ user_id g = 1) rows
       /\ Sorted newest_first rows.
Proof.
  assert (au_id sample_user <> 0) as Hu by discriminate.
  split; [exact Hu|]. split.
  - destruct (getGenerations_listing posix_basename Production sample_db
                sample_user (NotAString AnArray) Hu) as (H & _).
    exact (H AnArray eq_refl).
  - destruct (getGenerations_listing posix_basename Production sample_db
                sample_user (Str "100") Hu) as (_ & H).
    destruct (H (or_intror (ex_intro _ "100" eq_refl)))
      as (n & rows & Hr & _ & _ & Hn & _ & Hf & Hs & _).
    exists n, rows. repeat split; try assumption.
    apply (Hn "100" eq_refl).
Defined.

(** C7 at work: an empty prompt. *)
Lemma prompt_checked_by_length_witness :
  authenticated (cr_user (sample_create "")) 45 = Resolve 1
  /\ exists e,
       createGeneration_handler [] (sample_create "") = ([], None, Reject e)
       /\ name e = "ZodError"
       /\ er_status (errorHandler Production e) = 400.
Proof.
  assert (authenticated (cr_user (sample_create "")) 45 = Resolve 1) as Ha
      by reflexivity.
  split; [exact Ha|].
  destruct (prompt_checked_by_length Production [] (sample_create "") 1 Ha)
    as (_ & _ & H).
  apply H. discriminate.
Defined.

End JobApiFacts.

(** ** The job processor *)

Module ProcessorFacts.
Import Js ErrorHandler Validation Models Http Auth Generations.
Import GenerationModel.
Import StoreFacts.

Lemma has_id_set_status i st res j g :
  has_id j (set_status i st res g) = has_id j g.
Proof. unfold set_status. destruct (has_id i g); reflexivity. Qed.

Lemma set_status_hit i st res g :
  has_id i g = true ->
  status (set_status i st res g) = status_text st
  /\ result_image_path (set_status i st res g) = or_null res.
Proof. intros H. unfold set_status. rewrite H. split; reflexivity. Qed.

Lemma set_status_miss i st res g :
  has_id i g = false -> set_status i st res g = g.
Proof. intros H. unfold set_status. now rewrite H. Qed.

Lemma find_set_status i st res j d :
  find (has_id j) (map (set_status i st res) d)
  = option_map (set_status i st res) (find (has_id j) d).
Proof.
  induction d as [|a d IH]; cbn; [reflexivity|].
  rewrite has_id_set_status. destruct (has_id j a); [reflexivity|exact IH].
Qed.

Lemma has_id_eq i g : has_id i g = true -> id g = i.
Proof. unfold has_id. apply String.eqb_eq. Qed.

Lemma find_has_id i d g : find (has_id i) d = Some g -> id g = i /\ In g d.
Proof.
  intros H. apply find_some in H. destruct H as [Hin Hi].
  split; [now apply has_id_eq|exact Hin].
Qed.

Lemma updateStatus_io_found errs d i st res g :
  find (has_id i) d = Some g ->
  run_err errs = None ->
  updateStatus_io errs d i st res
  = (map (set_status i st res) d,
     match get_err errs with
     | Some e => Reject e
     | None => Resolve (set_status i st res g)
     end).
Proof.
  intros Hf Hr. unfold updateStatus_io. rewrite Hr.
  assert (List.length (filter (has_id i) d) <> 0) as Hc.
  { apply find_some in Hf. destruct Hf as [Hin Hi].
    assert (In g (filter (has_id i) d)) as Hin' by now apply filter_In.
    destruct (filter (has_id i) d); [contradiction|discriminate]. }
  destruct (Nat.eqb_spec (List.length (filter (has_id i) d)) 0);
    [contradiction|].
  destruct (get_err errs); [reflexivity|].
  unfold findById. now rewrite find_set_status, Hf.
Qed.

Lemma updateStatus_io_refused errs d i st res e :
  run_err errs = Some e -> updateStatus_io errs d i st res = (d, Reject e).
Proof. intros Hr. unfold updateStatus_io. now rewrite Hr. Qed.

Lemma updateStatus_found d i st res g :
  find (has_id i) d = Some g ->
  updateStatus d i st res
  = (map (set_status i st res) d, Resolve (set_status i st res g)).
Proof.
  intros Hf. unfold updateStatus.
  now rewrite (updateStatus_io_found store_answers d i st res g Hf eq_refl).
Qed.

Lemma updateStatus_missing d i st res :
  find (has_id i) d = None ->
  updateStatus d i st res = (d, Reject (Error_ "Generation not found" 111)).
Proof.
  intros Hf. unfold updateStatus, updateStatus_io. cbn [run_err store_answers].
  assert (filter (has_id i) d = []) as ->; [|reflexivity].
  induction d as [|a d IH]; cbn in *; [reflexivity|].
  destruct (has_id i a); [discriminate|now apply IH].
Qed.

Lemma result_name_truthy w :
  truthy ("result_" ++ show_N (now_ms w) ++ ".jpg") = true.
Proof. reflexivity. Qed.

Section Processor.

Variable path_join : string -> string -> string.
Variable path_dirname : string -> string.

(** What the processor does to a table that holds the job. *)
Lemma processGeneration_found env w d i orig g :
  find (has_id i) d = Some g ->
  processGeneration path_join path_dirname env w d i orig
  = if shouldFail env w then
      (map (set_status i failed None) d, [], Resolve tt)
    else
      match copyFile w orig (result_file path_join path_dirname w orig) with
      | Resolve _ =>
          (map (set_status i completed
                  (Some (result_file path_join path_dirname w orig))) d,
           [], Resolve tt)
      | Reject e =>
          if is_test env then (d, [], Resolve tt)
          else (map (set_status i failed None) d, [e], Resolve tt)
      end.
Proof.
  intros Hf.
  unfold processGeneration, processGeneration_io, processGeneration_try_io,
    simulateProcessing.
  destruct (shouldFail env w); cbn [success resultPath or_null].
  - now rewrite (updateStatus_io_found store_answers d i failed None g Hf eq_refl).
  - rewrite result_name_truthy.
    fold (result_file path_join path_dirname w orig).
    destruct (copyFile w orig (result_file path_join path_dirname w orig)).
    + now rewrite (updateStatus_io_found store_answers d i completed _ g Hf eq_refl).
    + destruct (is_test env); cbn [negb]; [reflexivity|].
      now rewrite (updateStatus_io_found store_answers d i failed None g Hf eq_refl).
Qed.

Lemma updateStatus_io_stored errs d i st res g :
  find (has_id i) d = Some g ->
  updateStatus_io errs d i st res
  = match run_err errs with
    | Some e => (d, Reject e)
    | None =>
        (map (set_status i st res) d,
         match get_err errs with
         | Some e => Reject e
         | None => Resolve (set_status i st res g)
         end)
    end.
Proof.
  intros Hf. destruct (run_err errs) as [e|] eqn:Hr.
  - now apply updateStatus_io_refused.
  - now apply updateStatus_io_found.
Qed.

(** What the processor does to a table that holds the job, whatever
    SQLite reports. *)
Lemma processGeneration_io_found env w in_try in_catch d i orig g :
  find (has_id i) d = Some g ->
  processGeneration_io path_join path_dirname env w in_try in_catch d i orig
  = let caught (d1 : table) (e : error) :=
        if is_test env then (d1, [], Resolve tt)
        else match run_err in_catch with
             | Some e2 => (d1, [e], Reject e2)
             | None =>
                 (map (set_status i failed None) d1, [e],
                  match get_err in_catch with
                  | Some e2 => Reject e2
                  | None => Resolve tt
                  end)
             end in
    let write (st : Status) (res : option string) :=
        match run_err in_try with
        | Some e => caught d e
        | None =>
            match get_err in_try with
            | Some e => caught (map (set_status i st res) d) e
            | None => (map (set_status i st res) d, [], Resolve tt)
            end
        end in
    if shouldFail env w then write failed None
    else
      match copyFile w orig (result_file path_join path_dirname w orig) with
      | Reject e => caught d e
      | Resolve _ =>
          write completed (Some (result_file path_join path_dirname w orig))
      end.
Proof.
  intros Hf. cbv zeta.
  assert (forall st res,
            find (has_id i) (map (set_status i st res) d)
            = Some (set_status i st res g)) as Hf1
      by (intros st res; now rewrite find_set_status, Hf).
  unfold processGeneration_io, processGeneration_try_io, simulateProcessing.
  destruct (shouldFail env w); cbn [success resultPath or_null].
  - rewrite (updateStatus_io_stored in_try d i failed None g Hf).
    destruct (run_err in_try) as [e|]; cbn [await_].
    + destruct (is_test env); cbn [negb]; [reflexivity|].
      rewrite (updateStatus_io_stored in_catch d i failed None g Hf).
      destruct (run_err in_catch), (get_err in_catch); reflexivity.
    + destruct (get_err in_try) as [e|]; cbn [await_]; [|reflexivity].
      destruct (is_test env); cbn [negb]; [reflexivity|].
      rewrite (updateStatus_io_stored in_catch _ i failed None _ (Hf1 _ _)).
      destruct (run_err in_catch), (get_err in_catch); reflexivity.
  - rewrite result_name_truthy.
    fold (result_file path_join path_dirname w orig).
    destruct (copyFile w orig (result_file path_join path_dirname w orig))
      as [u|e].
    + rewrite (updateStatus_io_stored in_try d i completed _ g Hf).
      destruct (run_err in_try) as [e|]; cbn [await_].
      * destruct (is_test env); cbn [negb]; [reflexivity|].
        rewrite (updateStatus_io_stored in_catch d i failed None g Hf).
        destruct (run_err in_catch), (get_err in_catch); reflexivity.
      * destruct (get_err in_try) as [e|]; cbn [await_]; [|reflexivity].
        destruct (is_test env); cbn [negb]; [reflexivity|].
        rewrite (updateStatus_io_stored in_catch _ i failed None _ (Hf1 _ _)).
        destruct (run_err in_catch), (get_err in_catch); reflexivity.
    + destruct (is_test env); cbn [negb]; [reflexivity|].
      rewrite (updateStatus_io_stored in_catch d i failed None g Hf).
      destruct (run_err in_catch), (get_err in_catch); reflexivity.
Qed.

(** The promise handed to [.catch(console.error)] never rejects. *)
Lemma spawn_io_never_rejects env w in_try in_catch d t :
  snd (spawn_processGeneration_io path_join path_dirname env w in_try
         in_catch d t) = Resolve tt.
Proof.
  unfold spawn_processGeneration_io.
  destruct (processGeneration_io path_join path_dirname env w in_try in_catch
              d (fst t) (snd t))
    as [[d' log] [u|e]]; reflexivity.
Qed.

Lemma spawn_never_rejects env w d t :
  snd (spawn_processGeneration path_join path_dirname env w d t) = Resolve tt.
Proof. apply spawn_io_never_rejects. Qed.

Lemma is_test_false env : env <> Test -> is_test env = false.
Proof. destruct env; try reflexivity. intros H. now elim H. Qed.

(** C3.  A run of the processor on a stored job, with whatever SQLite
    reports to its writes.  The job ends [completed] or [failed] when
    the [try] block got its UPDATE through, and also, outside test mode,
    when the UPDATE of the [catch] block is not refused; it is then
    [failed] with no result path whenever the simulation failed or the
    copy threw.  When the [try] block wrote nothing (the copy threw, or
    SQLite refused its statement) the table is left as it was, so the
    job stays [processing], in test mode, where the [catch] block skips
    its write, and outside test mode when SQLite refuses the write of
    the [catch] block; the processor then rejects with that error, which
    [.catch(console.error)] logs.  In every case the promise the request
    handler holds resolves, and on an engine that reports no error so
    does the processor's own. *)
Theorem processor_terminal_outside_test :
  forall env w in_try in_catch d i orig g,
    find (has_id i) d = Some g ->
    let run := processGeneration_io path_join path_dirname env w in_try
                 in_catch d i orig in
    (~ try_writes_nothing path_join path_dirname env w in_try orig
     \/ (env <> Test /\ run_err in_catch = None) ->
     exists g',
       find (has_id i) (fst (fst run)) = Some g'
       /\ terminal (status g')
       /\ (shouldFail env w = true
           \/ copy_throws path_join path_dirname env w orig ->
           status g' = "failed" /\ result_image_path g' = None))
    /\ (try_writes_nothing path_join path_dirname env w in_try orig ->
        env = Test ->
        run = (d, [], Resolve tt))
    /\ (try_writes_nothing path_join path_dirname env w in_try orig ->
        env <> Test ->
        forall e2, run_err in_catch = Some e2 ->
        exists e1,
          run = (d, [e1], Reject e2)
          /\ spawn_processGeneration_io path_join path_dirname env w in_try
               in_catch d (i, orig)
             = (d, [e1; e2], Resolve tt))
    /\ (in_try = store_answers -> in_catch = store_answers ->
        snd run = Resolve tt)
    /\ (forall t d0 a b,
          snd (spawn_processGeneration_io path_join path_dirname env w a b
                 d0 t)
          = Resolve tt).
Proof.
  intros env w in_try in_catch d i orig g Hf run.
  assert (has_id i g = true) as Hi by (apply find_some in Hf; tauto).
  pose proof (processGeneration_io_found env w in_try in_catch d i orig g Hf)
    as Hrun.
  cbv zeta in Hrun. fold run in Hrun.
  split; [|split; [|split; [|split]]].
  - intros H. rewrite Hrun.
    destruct (shouldFail env w) eqn:Hs;
      [|destruct (copyFile w orig (result_file path_join path_dirname w orig))
          as [u|e] eqn:Hc];
      destruct (run_err in_try) as [e1|] eqn:Hr1;
      destruct (get_err in_try) as [e1'|] eqn:Hg1;
      destruct env; cbn [is_test];
      destruct (run_err in_catch) as [e2|] eqn:Hr2;
      destruct (get_err in_catch) as [e2'|] eqn:Hg2;
      cbn [fst];
      solve
        [ rewrite ?find_set_status, Hf; cbn [option_map];
          eexists; split; [reflexivity|];
          unfold set_status, has_id in *; cbn [id]; rewrite ?Hi; cbn [id];
          rewrite ?Hi;
          cbn [status result_image_path status_text or_null];
          split;
          [ first [left; reflexivity | right; reflexivity]
          | intros [C|(C & e' & E)];
            first [discriminate | congruence | split; reflexivity] ]
        | exfalso; destruct H as [H|[H1 H2]];
          [ apply H; unfold try_writes_nothing, copy_throws;
            first [ right; congruence
                  | left; split; [assumption|eexists; eassumption] ]
          | congruence ] ].
  - intros Htwn Henv. rewrite Hrun.
    assert (is_test env = true) as -> by (now rewrite Henv).
    destruct (shouldFail env w) eqn:Hs;
      [|destruct (copyFile w orig (result_file path_join path_dirname w orig))
          as [u|e] eqn:Hc];
      destruct (run_err in_try) as [e1|] eqn:Hr1;
      try reflexivity;
      exfalso; destruct Htwn as [(A & e' & B)|B];
      first [discriminate | congruence | now apply B].
  - intros Htwn Henv e2 He2. unfold spawn_processGeneration_io.
    cbn [fst snd]. fold run. rewrite Hrun, He2, (is_test_false env Henv).
    destruct (shouldFail env w) eqn:Hs;
      [|destruct (copyFile w orig (result_file path_join path_dirname w orig))
          as [u|e] eqn:Hc];
      destruct (run_err in_try) as [e1|] eqn:Hr1;
      try (eexists; split; reflexivity);
      exfalso; destruct Htwn as [(A & e' & B)|B];
      first [discriminate | congruence | now apply B].
  - intros -> ->. rewrite Hrun. cbn [run_err get_err store_answers].
    destruct (shouldFail env w);
      [|destruct (copyFile w orig (result_file path_join path_dirname w orig))];
      destruct (is_test env); reflexivity.
  - intros t d0 a b. apply spawn_io_never_rejects.
Qed.

End Processor.

(** C3, as the specification words it, fails in test mode: the copy
    throws, the [catch] block skips the write, and the job stays
    [processing]. *)
Lemma job_left_processing_in_test_mode :
  ~ leaves_no_job_processing posix_join posix_dirname Test copy_fails
      sample_db ("job-2", "uploads/image-2.png").
Proof.
  intros H.
  destruct (H (nth 1 sample_db (mkGeneration "" 0 "" "" None None "" ""))
              eq_refl) as (g' & Hg & Hs).
  vm_compute in Hg. injection Hg as <-. apply Hs. reflexivity.
Qed.

(** C3 at work in production, where the copy throws: the job is marked
    failed when SQLite takes the write of the [catch] block, and stays
    as it was, with both errors on the console, when SQLite refuses
    it. *)
Lemma processor_terminal_outside_test_witness :
  find (has_id "job-2") sample_db
  = Some (nth 1 sample_db (mkGeneration "" 0 "" "" None None "" ""))
  /\ (exists g',
        find (has_id "job-2")
          (fst (fst (processGeneration_io posix_join posix_dirname Production
                       copy_fails store_answers store_answers sample_db
                       "job-2" "uploads/image-2.png")))
        = Some g'
        /\ status g' = "failed")
  /\ (exists e1,
        spawn_processGeneration_io posix_join posix_dirname Production
          copy_fails store_answers store_refuses sample_db
          ("job-2", "uploads/image-2.png")
        = (sample_db, [e1; disk_full], Resolve tt)).
Proof.
  assert (find (has_id "job-2") sample_db
          = Some (nth 1 sample_db (mkGeneration "" 0 "" "" None None "" "")))
    as Hf by reflexivity.
  assert (copy_throws posix_join posix_dirname Production copy_fails
            "uploads/image-2.png") as Hc
      by (split; [reflexivity|eexists; reflexivity]).
  assert (Production <> Test) as He by discriminate.
  split; [exact Hf|]. split.
  - destruct (processor_terminal_outside_test posix_join posix_dirname
                Production copy_fails store_answers store_answers sample_db
                "job-2" "uploads/image-2.png" _ Hf) as (H & _).
    destruct (H (or_intror (conj He eq_refl))) as (g' & Hg & _ & Hfail).
    exists g'. split; [exact Hg|]. apply Hfail. right. exact Hc.
  - destruct (processor_terminal_outside_test posix_join posix_dirname
                Production copy_fails store_answers store_refuses sample_db
                "job-2" "uploads/image-2.png" _ Hf) as (_ & _ & H & _).
    destruct (H (or_introl Hc) He disk_full eq_refl) as (e1 & _ & Hsp).
    exists e1. exact Hsp.
Defined.

End ProcessorFacts.

(** ** The job lifecycle *)

Module LifecycleFacts.
Import Js ErrorHandler Validation Models Http Auth Generations.
Import GenerationModel.
Import StoreFacts ProcessorFacts.

Lemma NoDup_snoc {A} (l : list A) x : NoDup l -> ~ In x l -> NoDup (l ++ [x]).
Proof.
  intros Hl Hx. apply (Permutation_NoDup (l := x :: l)).
  - apply Permutation_cons_append.
  - now constructor.
Qed.

Lemma remove_nth_incl {A} n (l : list A) x :
  In x (remove_nth n l) -> In x l.
Proof.
  revert n. induction l as [|a l IH]; intros [|n]; cbn; auto.
  intros [->|H]; [now left|right; eauto].
Qed.

Lemma remove_nth_NoDup {A B} (f : A -> B) n (l : list A) :
  NoDup (map f l) -> NoDup (map f (remove_nth n l)).
Proof.
  revert n. induction l as [|a l IH]; intros [|n] H; cbn in *; auto.
  - now inversion H.
  - inversion H as [|? ? Hn Hd]; subst. constructor; [|now apply IH].
    intros Hin. apply Hn. apply in_map_iff in Hin.
    destruct Hin as (x & Hx & Hi). apply in_map_iff. exists x.
    split; [exact Hx|]. now apply remove_nth_incl in Hi.
Qed.

Lemma remove_nth_other {A B} (f : A -> B) n (l : list A) t x :
  NoDup (map f l) -> nth_error l n = Some t -> In x (remove_nth n l) ->
  f x <> f t.
Proof.
  revert n. induction l as [|a l IH]; intros [|n] Hd Hn Hx; cbn in *;
    try discriminate.
  - injection Hn as ->. inversion Hd as [|? ? Hni _]; subst.
    intros E. apply Hni. rewrite <- E. now apply in_map.
  - inversion Hd as [|? ? Hni Hd']; subst. destruct Hx as [->|Hx].
    + intros E. apply Hni. rewrite E. apply in_map.
      now apply nth_error_In in Hn.
    + now apply (IH n).
Qed.

(** The create handler either rejects and leaves the table alone, or
    appends one row with a fresh id, in status [processing] and without a
    result, and starts the task for that id. *)
Lemma createGeneration_cases d req :
  (exists e, createGeneration_handler d req = (d, None, Reject e))
  \/ (exists g p,
        createGeneration_handler d req
        = (d ++ [g], Some (id g, p),
           Resolve (201, GenerationStarted
                           (mkSummary (id g) (prompt g) (style g)
                              "processing" (created_at g))))
        /\ existsb (has_id (id g)) d = false
        /\ status g = "processing"
        /\ result_image_path g = None).
Proof.
  unfold createGeneration_handler.
  destruct (authenticated (cr_user req) 45) as [uid|e]; [|left; eauto].
  destruct (createGenerationSchema_parse (cr_body req)) as [[p s]|e];
    [|left; eauto].
  destruct (cr_file req) as [f|]; [|left; eauto].
  destruct (validateImageFile f); [left; eauto|].
  unfold create. cbn [cg_id cg_user_id cg_prompt cg_style cg_image_path].
  destruct (existsb _ d) eqn:Hfresh; [left; eauto|].
  right. unfold findById. rewrite find_app, (find_none_existsb _ _ Hfresh).
  cbn [find]. unfold has_id at 1. cbn [id]. rewrite String.eqb_refl.
  exists (mkGeneration (cr_uuid req ++ "-" ++ show_N (cr_now_ms req)) uid p s
            (or_null (Some (path f))) None "processing" (cr_timestamp req)),
         (path f).
  split; [reflexivity|]. cbn [id status result_image_path]. auto.
Qed.

Section Lifecycle.

Variable path_join : string -> string -> string.
Variable path_dirname : string -> string.
Variable path_basename : string -> string.

(** What the completion of a task can do to the table. *)
Lemma spawn_found env w d t g :
  find (has_id (fst t)) d = Some g ->
  exists st res,
    fst (fst (spawn_processGeneration path_join path_dirname env w d t))
    = d
    \/ (fst (fst (spawn_processGeneration path_join path_dirname env w d t))
        = map (set_status (fst t) st res) d
        /\ (st = failed /\ res = None
            \/ st = completed
               /\ res = Some (result_file path_join path_dirname w (snd t)))).
Proof.
  intros Hf. unfold spawn_processGeneration, spawn_processGeneration_io.
  change (processGeneration_io path_join path_dirname env w store_answers
            store_answers)
    with (processGeneration path_join path_dirname env w).
  rewrite (processGeneration_found path_join path_dirname env w d _ _ g Hf).
  destruct (shouldFail env w).
  - exists failed, None. right. split; [reflexivity|now left].
  - destruct (copyFile w (snd t) _) as [u|e].
    + exists completed, (Some (result_file path_join path_dirname w (snd t))).
      right. split; [reflexivity|now right].
    + destruct (is_test env).
      * exists failed, None. now left.
      * exists failed, None. right. split; [reflexivity|now left].
Qed.

Lemma valid_status_text st : valid_status (status_text st).
Proof. destruct st; cbv; auto. Qed.

Lemma step_consistent env s e :
  consistent s -> consistent (fst (step path_join path_dirname path_basename env s e)).
Proof.
  intros (Hnd & Htasks & Hrows). destruct e as [req|u l|u i|n w]; cbn;
    try (now repeat split).
  - destruct (createGeneration_cases (db s) req)
      as [(e & ->)|(g & p & -> & Hfresh & Hst & Hres)]; cbn.
    + rewrite app_nil_r. now repeat split.
    + pose proof (find_none_existsb _ _ Hfresh) as Hnone.
      repeat split; cbn.
      * rewrite map_app. cbn. apply NoDup_snoc; [exact Hnd|].
        intros Hin. apply in_map_iff in Hin. destruct Hin as (t & Ht & Hin).
        destruct (Htasks t Hin) as (g0 & Hg0 & _). congruence.
      * intros t Hin. apply in_app_or in Hin. rewrite find_app.
        destruct Hin as [Hin|[<-|[]]].
        -- destruct (Htasks t Hin) as (g0 & Hg0 & Hs0). rewrite Hg0. eauto.
        -- cbn [fst]. rewrite Hnone. cbn. unfold has_id.
           rewrite String.eqb_refl. eauto.
      * apply Forall_app. split; [exact Hrows|].
        constructor; [|constructor]. left. exact Hst.
  - destruct (nth_error (tasks s) n) as [t|] eqn:Hn; [|now repeat split].
    pose proof (nth_error_In _ _ Hn) as Hin.
    destruct (Htasks t Hin) as (g & Hg & Hs).
    destruct (spawn_processGeneration path_join path_dirname env w (db s) t)
      as [[d' log] r] eqn:Hsp. cbn.
    destruct (spawn_found env w (db s) t g Hg) as (st & res & Hd).
    rewrite Hsp in Hd. cbn in Hd.
    repeat split; cbn.
    + now apply remove_nth_NoDup.
    + intros t' Hin'.
      pose proof (remove_nth_other fst n (tasks s) t t' Hnd Hn Hin') as Hne.
      apply remove_nth_incl in Hin'.
      destruct (Htasks t' Hin') as (g' & Hg' & Hs').
      destruct Hd as [->|[-> _]]; [eauto|].
      rewrite find_set_status, Hg'. cbn.
      exists g'. split; [|exact Hs']. f_equal. apply set_status_miss.
      destruct (find_has_id _ _ _ Hg') as [Hid _].
      unfold has_id. apply String.eqb_neq. congruence.
    + destruct Hd as [->|[-> _]]; [exact Hrows|].
      apply Forall_map. revert Hrows. apply Forall_impl. intros a Ha.
      unfold set_status. destruct (has_id (fst t) a); [|exact Ha].
      apply valid_status_text.
Qed.


Lemma initial_consistent : consistent initial.
Proof. repeat split; cbn; try constructor. intros t []. Qed.





Lemma findByUserId_incl d userId limit g :
  In g (findByUserId d userId limit) -> In g d.
Proof.
  unfold findByUserId. intros H. apply sql_limit_incl in H.
  apply (Permutation_in g (Permutation_sym (order_perm _))) in H.
  now apply filter_In in H.
Qed.

(** Node's [path.join] never returns the empty string (an empty join
    is ["."]). *)
Hypothesis path_join_nonempty : forall a b, path_join a b <> "".

Lemma or_null_nonempty v : v <> "" -> or_null (Some v) = Some v.
Proof.
  intros H. unfold or_null, truthy.
  destruct (String.eqb_spec v ""); [contradiction|reflexivity].
Qed.

Lemma set_status_result_ok i st res g :
  (st = failed /\ res = None
   \/ st = completed /\ exists v, res = Some v /\ v <> "") ->
  result_ok g -> result_ok (set_status i st res g).
Proof.
  intros Hc Hg. unfold set_status. destruct (has_id i g); [|exact Hg].
  unfold result_ok. cbn [status result_image_path].
  destruct Hc as [[-> ->]|(-> & v & -> & Hv)]; cbn [status_text].
  - cbn [or_null]. repeat split; try discriminate.
    intros H. now contradiction H.
  - rewrite (or_null_nonempty v Hv). repeat split; try discriminate.
    congruence.
Qed.

Lemma step_results_ok env s e :
  consistent s -> Forall result_ok (db s) ->
  Forall result_ok (db (fst (step path_join path_dirname path_basename env s e))).
Proof.
  intros (Hnd & Htasks & _) Hrows. destruct e as [req|u l|u i|n w]; cbn;
    try exact Hrows.
  - destruct (createGeneration_cases (db s) req)
      as [(e & ->)|(g & p & -> & _ & Hst & Hres)]; cbn; [exact Hrows|].
    apply Forall_app. split; [exact Hrows|]. constructor; [|constructor].
    unfold result_ok. rewrite Hst, Hres. repeat split; try discriminate.
    intros H. now contradiction H.
  - destruct (nth_error (tasks s) n) as [t|] eqn:Hn; [|exact Hrows].
    pose proof (nth_error_In _ _ Hn) as Hin.
    destruct (Htasks t Hin) as (g & Hg & Hs).
    destruct (spawn_processGeneration path_join path_dirname env w (db s) t)
      as [[d' log] r] eqn:Hsp. cbn.
    destruct (spawn_found env w (db s) t g Hg) as (st & res & Hd).
    rewrite Hsp in Hd. cbn in Hd.
    destruct Hd as [->|[-> Hc]]; [exact Hrows|].
    apply Forall_map. revert Hrows. apply Forall_impl. intros a.
    apply set_status_result_ok.
    destruct Hc as [Hc|[-> ->]]; [now left|right].
    split; [reflexivity|]. eexists. split; [reflexivity|].
    apply path_join_nonempty.
Qed.

Lemma reachable_results_ok env s :
  reachable path_join path_dirname path_basename env s ->
  Forall result_ok (db s).
Proof.
  intros [es <-].
  assert (forall s0, consistent s0 -> Forall result_ok (db s0) ->
            Forall result_ok
              (db (run path_join path_dirname path_basename env s0 es))) as H.
  { induction es as [|e es IH]; intros s0 Hc Hr; cbn; [exact Hr|].
    apply IH; [now apply step_consistent|now apply step_results_ok]. }
  apply H; [apply initial_consistent|constructor].
Qed.

Lemma upload_url_result g :
  result_ok g ->
  (gv_resultImageUrl (transform path_basename g) <> None
   <-> result_image_path g <> None).
Proof.
  intros [_ Hne]. unfold transform, upload_url. cbn [gv_resultImageUrl].
  destruct (result_image_path g) as [v|]; [|tauto].
  rewrite or_null_nonempty by congruence. split; discriminate.
Qed.

Lemma view_result_ok g :
  result_ok g ->
  (gv_resultImageUrl (transform path_basename g) <> None
   <-> gv_status (transform path_basename g) = "completed").
Proof.
  intros Hg. rewrite (upload_url_result g Hg). exact (proj1 Hg).
Qed.

(** C5.  In every reachable state a job has a result path exactly when
    its status is "completed", and so has the [resultImageUrl] derived
    from it, in the table and in what the fetch and list routes return;
    a job that is "processing" or "failed" has neither. *)
Theorem result_path_iff_completed :
  forall env s,
    reachable path_join path_dirname path_basename env s ->
    Forall (fun g =>
              (result_image_path g <> None <-> status g = "completed")
              /\ (gv_resultImageUrl (transform path_basename g) <> None
                  <-> status g = "completed")
              /\ (status g = "processing" \/ status g = "failed" ->
                  result_image_path g = None
                  /\ gv_resultImageUrl (transform path_basename g) = None))
           (db s)
    /\ (forall u i v,
          getGeneration path_basename env (db s) u i
          = Json 200 (GenerationData v) ->
          (gv_resultImageUrl v <> None <-> gv_status v = "completed"))
    /\ (forall u l vs total,
          getGenerations path_basename env (db s) u l
          = Json 200 (GenerationList vs total) ->
          Forall (fun v => gv_resultImageUrl v <> None
                           <-> gv_status v = "completed") vs).
Proof.
  intros env s Hr. pose proof (reachable_results_ok env s Hr) as Hrows.
  rewrite Forall_forall in Hrows. split; [|split].
  - apply Forall_forall. intros g Hin. pose proof (Hrows g Hin) as Hg.
    pose proof (view_result_ok g Hg) as Hv.
    change (gv_status (transform path_basename g)) with (status g) in Hv.
    split; [exact (proj1 Hg)|]. split; [exact Hv|].
    intros Hst.
    assert (status g <> "completed") as Hnc
        by (destruct Hst as [E|E]; rewrite E; discriminate).
    split.
    + destruct (result_image_path g) eqn:E; [|reflexivity].
      exfalso. apply Hnc. apply (proj1 Hg). rewrite E. discriminate.
    + destruct (gv_resultImageUrl (transform path_basename g)) eqn:E;
        [|reflexivity].
      exfalso. apply Hnc. apply (proj1 Hv). discriminate.
  - intros u i v. unfold getGeneration, getGeneration_handler, findById.
    destruct (authenticated u 150) as [uid|e]; cbn [bind asyncHandler];
      [|discriminate].
    destruct (find (has_id i) (db s)) as [g|] eqn:Hf; cbn [bind asyncHandler];
      [|discriminate].
    destruct (negb (user_id g =? uid)); cbn [asyncHandler]; [discriminate|].
    intros [= <-]. apply view_result_ok, Hrows.
    now apply find_some in Hf.
  - intros u l vs total. unfold getGenerations, getGenerations_handler.
    destruct (authenticated u 119) as [uid|e]; cbn [bind asyncHandler];
      [|discriminate].
    destruct (getGenerationsSchema_parse l) as [n|e];
      cbn [bind asyncHandler]; [|discriminate].
    intros [= <- _]. apply Forall_map, Forall_forall. intros g Hin.
    apply view_result_ok, Hrows. now apply findByUserId_incl in Hin.
Qed.

End Lifecycle.

Lemma sample_state_reachable :
  reachable posix_join posix_dirname posix_basename Production sample_state.
Proof. exists sample_run. reflexivity. Qed.


Lemma posix_join_nonempty a b : posix_join a b <> "".
Proof. unfold posix_join. destruct a; discriminate. Qed.

(** C5 at work: the completed job is fetched with its result URL. *)
Lemma result_path_iff_completed_witness :
  reachable posix_join posix_dirname posix_basename Production sample_state
  /\ Forall (fun g => result_image_path g <> None <-> status g = "completed")
       (db sample_state).
Proof.
  split; [exact sample_state_reachable|].
  destruct (result_path_iff_completed posix_join posix_dirname posix_basename
              posix_join_nonempty Production sample_state
              sample_state_reachable) as (H & _).
  revert H. apply Forall_impl. intros g Hg. exact (proj1 Hg).
Defined.

End LifecycleFacts.

(** ** The client generation controller *)

Module StudioFacts.
Import Js Studio.

Lemma run_app p es1 es2 :
  run p (es1 ++ es2)
  = match run p es1 with
    | Some p' => run p' es2
    | None => None
    end.
Proof.
  revert p. induction es1 as [|e es1 IH]; intros p; cbn; [reflexivity|].
  destruct (step p e); [apply IH|reflexivity].
Qed.

Lemma first_click :
  run initial_page (fill_form ++ [ClickGenerate]) = Some (in_flight 0).
Proof. reflexivity. Qed.

(** The call in flight is rejected as overloaded: the closure still has
    [retryCount = 0], so a retry is scheduled whatever the state says,
    and the [finally] block clears [isGenerating]. *)
Lemma overloaded_schedules_retry k cs rs j :
  step (mkPage (mkState (Some png) "Test prompt" "realistic" true "" k (Some j))
          cs rs [AwaitCreate first_render j] [])
       (CreateSettles 0 overloaded)
  = Some (mkPage (mkState (Some png) "Test prompt" "realistic" false
                    "Model overloaded. Retrying... (1/3)" (k + 1) None)
            cs rs [] [first_render]).
Proof. reflexivity. Qed.

(** The timer fires: the closure has [abortController = null], so the
    [aborted] test passes and the next call is issued. *)
Lemma timer_issues_next_call k cs rs :
  step (mkPage (mkState (Some png) "Test prompt" "realistic" false
                  "Model overloaded. Retrying... (1/3)" k None)
          cs rs [] [first_render])
       (TimerFires 0)
  = Some (mkPage (mkState (Some png) "Test prompt" "realistic" true "" k
                    (Some (List.length cs)))
            (cs ++ [false])
            (rs ++ [mkRequest "Test prompt" "realistic" png (List.length cs)])
            [AwaitCreate first_render (List.length cs)] []).
Proof. reflexivity. Qed.

Lemma overload_round k :
  run (in_flight k) [CreateSettles 0 overloaded; TimerFires 0]
  = Some (in_flight (S k)).
Proof.
  unfold in_flight. cbn [run]. rewrite overloaded_schedules_retry.
  rewrite timer_issues_next_call, repeat_length, Nat.add_1_r.
  rewrite (seq_S (S k) 0), map_app. cbn [map Nat.add].
  do 2 f_equal. change [false] with (repeat false 1).
  rewrite <- repeat_app. f_equal. lia.
Qed.

Lemma overload_rounds_run n : forall k,
  run (in_flight k) (overload_rounds n) = Some (in_flight (n + k)).
Proof.
  induction n as [|n IH]; intros k; [reflexivity|].
  change (overload_rounds (S n))
    with ([CreateSettles 0 overloaded; TimerFires 0] ++ overload_rounds n).
  rewrite run_app, overload_round, IH. f_equal. f_equal. lia.
Qed.

(** C1, on the code.  With every call rejected as "Model overloaded", a
    single submission of the filled form puts [n + 1] calls on the wire
    after [n] retry delays, for every [n]: the fifth call follows the
    fourth.  Each rejection, the fourth included, shows
    "Model overloaded. Retrying... (1/3)" and arms the timer again; the
    message never becomes final. *)
Theorem overload_retries_never_stop :
  forall n,
    exists p q,
      run initial_page (fill_form ++ ClickGenerate :: overload_rounds n)
      = Some p
      /\ List.length (requests p) = n + 1
      /\ step p (CreateSettles 0 overloaded) = Some q
      /\ error (ui q) = "Model overloaded. Retrying... (1/3)"
      /\ timers q = [first_render]
      /\ retryCount first_render = 0.
Proof.
  intros n. exists (in_flight n), (retry_waiting n).
  split; [|split; [|split; [|repeat split]]].
  - change (fill_form ++ ClickGenerate :: overload_rounds n)
      with ((fill_form ++ [ClickGenerate]) ++ overload_rounds n).
    rewrite run_app, first_click, overload_rounds_run. do 2 f_equal. lia.
  - unfold in_flight. cbn [requests]. rewrite length_map, length_seq. lia.
  - unfold in_flight, retry_waiting. rewrite overloaded_schedules_retry.
    now rewrite Nat.add_1_r.
Qed.

(** While the retry timer is pending the Stop button is not rendered
    ([isGenerating] was cleared by [finally]), so the wait cannot be
    cancelled from the page; the Generate button is enabled again. *)
Lemma stop_absent_while_retry_waiting k :
  stop_rendered (ui (retry_waiting k)) = false
  /\ step (retry_waiting k) ClickStop = None
  /\ generate_disabled (ui (retry_waiting k)) = false.
Proof. repeat split. Qed.

(** Were [handleAbort] run during the wait all the same, the timer would
    still issue the next call: the callback tests the [abortController]
    of its own render, which is [null]. *)
Lemma handleAbort_does_not_disarm_timer k :
  exists q,
    step (handleAbort (ui (retry_waiting k)) (retry_waiting k)) (TimerFires 0)
    = Some q
    /\ List.length (requests q) = S (List.length (requests (retry_waiting k))).
Proof.
  unfold retry_waiting.
  set (cs := repeat false (S k)).
  set (rs := map (mkRequest "Test prompt" "realistic" png) (seq 0 (S k))).
  exists (mkPage (mkState (Some png) "Test prompt" "realistic" true "" 0
                    (Some (List.length cs)))
            (cs ++ [false])
            (rs ++ [mkRequest "Test prompt" "realistic" png (List.length cs)])
            [AwaitCreate first_render (List.length cs)] []).
  split; [reflexivity|].
  cbn [requests]. rewrite length_app. cbn [List.length]. lia.
Qed.

(** A cancelled call that the transport rejects under the name
    [AbortError] ends the attempt quietly. *)
Lemma abort_in_flight_quiet :
  option_map display
    (run initial_page
       (fill_form ++ [ClickGenerate; ClickStop; CreateSettles 0 aborted]))
  = Some (false, "", 1, 0, 0).
Proof. vm_compute. reflexivity. Qed.

(** Under any other name, such as the [CanceledError] of axios, the same
    cancellation ends with the message "Generation failed" on display. *)
Lemma cancel_in_flight_shows_failure :
  option_map display
    (run initial_page
       (fill_form ++ [ClickGenerate; ClickStop; CreateSettles 0 canceled]))
  = Some (false, "Generation failed", 1, 0, 0).
Proof. vm_compute. reflexivity. Qed.

(** C2, on the code.  The form is submitted and the call is rejected as
    overloaded, which arms the retry timer; the user clicks Generate
    again and then Stop.  The click on Stop aborts the controller of the
    second call and leaves the page idle with no message and two calls
    made.  Then the timer of the first submission fires and a third
    create-generation call is issued: the retry was not cancelled. *)
Theorem retry_fires_after_cancel :
  run initial_page cancel_trace = Some after_cancel
  /\ display after_cancel = (false, "", 2, 1, 1)
  /\ controllers after_cancel = [false; true]
  /\ step after_cancel (TimerFires 0) = Some after_timer
  /\ display after_timer = (true, "", 3, 0, 2).
Proof. repeat split; vm_compute; reflexivity. Qed.

End StudioFacts.

(* ================================================================= *)
(** ** Accounts *)

Module AccountFacts.
Import Js ErrorHandler Validation Models Http Auth AuthController Accounts.
Import StoreFacts.

Lemma find_none_iff {A} (f : A -> bool) (l : list A) :
  find f l = None <-> existsb f l = false.
Proof.
  induction l as [|a l IH]; cbn; [tauto|].
  destruct (f a); cbn; [split; discriminate|exact IH].
Qed.

Lemma find_none_forall {A} (f : A -> bool) (l : list A) :
  find f l = None -> forall x, In x l -> f x = false.
Proof.
  intros H x Hx. destruct (f x) eqn:E; [|reflexivity].
  apply find_none_iff in H.
  assert (existsb f l = true) by (apply existsb_exists; eauto). congruence.
Qed.

Lemma findByEmail_none rs email :
  UserModel.findByEmail rs email = None ->
  existsb (has_email email) rs = false.
Proof. intros H. apply find_none_iff. exact H. Qed.

Lemma rowid_below_next t u : In u (rows t) -> u_id u < next_rowid t.
Proof.
  intros Hu. unfold next_rowid.
  assert (u_id u <= list_max (map u_id (rows t))).
  { pose proof (proj1 (list_max_le (map u_id (rows t)) _) (Nat.le_refl _)) as H.
    rewrite Forall_forall in H. apply H. now apply in_map. }
  lia.
Qed.

Lemma findById_fresh t email password now :
  UserModel.findById (rows t ++ [mkUser (next_rowid t) email password now])
    (next_rowid t)
  = Resolve (mkUser (next_rowid t) email password now).
Proof.
  unfold UserModel.findById. rewrite find_app.
  assert (find (fun u => u_id u =? next_rowid t) (rows t) = None) as ->.
  { apply find_none_iff. apply not_true_is_false. intros H.
    apply existsb_exists in H. destruct H as (u & Hu & E).
    apply Nat.eqb_eq in E. pose proof (rowid_below_next t u Hu). lia. }
  cbn. now rewrite Nat.eqb_refl.
Qed.

Section Signup.

Variable bcrypt_hash : string -> string -> string.
Variable bcrypt_compare : string -> string -> bool.
Variable is_email : string -> bool.
Variable jwt_encode : token -> string.

(** What a signup that is answered 201 did. *)
Lemma signup_created t w secret b t' r :
  signup_handler bcrypt_hash is_email jwt_encode t w secret b
  = (t', Resolve r) ->
  exists email password,
    signupSchema_parse is_email b = Resolve (email, password)
    /\ UserModel.findByEmail (rows t) email = None
    /\ t' = mkUserTable
              (rows t ++ [mkUser (next_rowid t) email
                            (bcrypt_hash (sw_salt w) password)
                            (sw_timestamp w)])
              (next_rowid t)
    /\ r = (201, AuthData "User created successfully"
                   (mkUserView (next_rowid t) email (sw_timestamp w))
                   (generateToken jwt_encode (sw_now w) secret
                      (next_rowid t) email)).
Proof.
  unfold signup_handler.
  destruct (signupSchema_parse is_email b) as [[email password]|e] eqn:Hp;
    [|discriminate].
  destruct (UserModel.findByEmail (rows t) email) eqn:Hf; [discriminate|].
  unfold UserModel_create. rewrite (findByEmail_none _ _ Hf).
  cbv zeta. cbn [rows]. rewrite findById_fresh. cbn [u_id u_email u_created_at].
  intros [= <- <-]. exists email, password. auto.
Qed.

(** A signup that is not answered 201 leaves the table as it was. *)
Lemma signup_rejected t w secret b t' e :
  signup_handler bcrypt_hash is_email jwt_encode t w secret b
  = (t', Reject e) -> t' = t.
Proof.
  unfold signup_handler.
  destruct (signupSchema_parse is_email b) as [[email password]|e0];
    [|now intros [= <- _]].
  destruct (UserModel.findByEmail (rows t) email) eqn:Hf;
    [now intros [= <- _]|].
  unfold UserModel_create. rewrite (findByEmail_none _ _ Hf).
  cbv zeta. cbn [rows]. rewrite findById_fresh. discriminate.
Qed.

Lemma signupSchema_parse_inv b email password :
  signupSchema_parse is_email b = Resolve (email, password) ->
  lb_email b = Str email /\ lb_password b = Str password
  /\ is_email email = true /\ 6 <= String.length password.
Proof.
  unfold signupSchema_parse.
  destruct (lb_email b) as [|e|te]; destruct (lb_password b) as [|p|tp];
    cbn [email_issues signup_password_issues]; try discriminate.
  destruct (is_email e) eqn:He;
    destruct (Nat.ltb_spec (String.length p) 6) as [Hlt|Hge];
    cbn [app]; try discriminate.
  intros [= <- <-]. repeat split; assumption.
Qed.

(** X1.  A signup whose body passes the schema and whose e-mail is held
    by a stored user is answered 400 "User with this email already
    exists" and leaves the table as it was.  The schema comes first: the
    same address with a password under 6 characters is answered 400
    "Password must be at least 6 characters long", again with the table
    unchanged. *)
Theorem signup_duplicate_email :
  forall env t w secret b email password u,
    signupSchema_parse is_email b = Resolve (email, password) ->
    UserModel.findByEmail (rows t) email = Some u ->
    signup bcrypt_hash is_email jwt_encode env t w secret b
    = (t, Failure (mkErrorResponse 400
                     (mkErrorBody false "User with this email already exists"
                        (if is_development env then Some 16 else None))))
    /\ 6 <= String.length password
    /\ (forall short,
          String.length short < 6 ->
          signup bcrypt_hash is_email jwt_encode env t w secret
            (mkLoginBody (Str email) (Str short))
          = (t, Failure (mkErrorResponse 400
                           (mkErrorBody false
                              "Password must be at least 6 characters long"
                              (if is_development env then Some 10 else None))))).
Proof.
  intros env t w secret b email password u Hp Hf.
  destruct (signupSchema_parse_inv b email password Hp) as (_ & _ & He & Hlen).
  split; [|split; [exact Hlen|]].
  - unfold signup, signup_handler. rewrite Hp, Hf. reflexivity.
  - intros short Hs. unfold signup, signup_handler, signupSchema_parse.
    cbn [lb_email lb_password email_issues signup_password_issues].
    rewrite He. apply Nat.ltb_lt in Hs. rewrite Hs. reflexivity.
Qed.

Lemma login_parse_of_signup b email password :
  signupSchema_parse is_email b = Resolve (email, password) ->
  loginSchema_parse is_email (mkLoginBody (Str email) (Str password))
  = Resolve (email, password).
Proof.
  unfold signupSchema_parse, loginSchema_parse.
  destruct (lb_email b) as [|e|]; destruct (lb_password b) as [|p|];
    cbn [email_issues signup_password_issues password_issues lb_email
         lb_password];
    try (destruct (is_email e) eqn:He);
    try (destruct (Nat.ltb_spec (String.length p) 6) as [H6|H6]);
    cbn [app]; try discriminate.
  intros [= <- <-].
  destruct (Nat.ltb_spec (String.length p) 1) as [H1|H1]; [lia|].
  rewrite He. reflexivity.
Qed.

(** What [bcrypt.compare] promises for a hash made by [bcrypt.hash]. *)
Hypothesis bcrypt_sound :
  forall salt password,
    bcrypt_compare password (bcrypt_hash salt password) = true.

(** X2.  After a signup that was answered 201, a login with the same
    e-mail and password is answered 200 for the user the signup created
    (same id, e-mail and creation time), and the table holds the hash of
    the password under that e-mail. *)
Theorem signup_then_login :
  forall env t w secret b t' st user token now',
    signup_handler bcrypt_hash is_email jwt_encode t w secret b
    = (t', Resolve (st, AuthData "User created successfully" user token)) ->
    exists email password,
      signupSchema_parse is_email b = Resolve (email, password)
      /\ UserModel.findByEmail (rows t') email
         = Some (mkUser (uv_id user) email
                   (bcrypt_hash (sw_salt w) password) (uv_created_at user))
      /\ login bcrypt_compare is_email jwt_encode env (rows t') now' secret
           (mkLoginBody (Str email) (Str password))
         = Json 200 (AuthData "Login successful" user
                       (generateToken jwt_encode now' secret (uv_id user)
                          email)).
Proof.
  intros env t w secret b t' st user token now' H.
  destruct (signup_created t w secret b t' _ H)
    as (email & password & Hp & Hf & -> & E).
  injection E as Hst Hu Htok. subst st user token.
  cbn [uv_id uv_created_at]. exists email, password.
  assert (UserModel.findByEmail
            (rows t ++ [mkUser (next_rowid t) email
                          (bcrypt_hash (sw_salt w) password) (sw_timestamp w)])
            email
          = Some (mkUser (next_rowid t) email
                    (bcrypt_hash (sw_salt w) password) (sw_timestamp w)))
    as Hnew.
  { unfold UserModel.findByEmail in *. rewrite find_app, Hf. cbn.
    now rewrite String.eqb_refl. }
  split; [exact Hp|]. split; [exact Hnew|].
  unfold login, login_handler, asyncHandler.
  rewrite (login_parse_of_signup b email password Hp).
  cbn [rows]. rewrite Hnew. cbn [u_password u_id u_email u_created_at].
  rewrite bcrypt_sound. reflexivity.
Qed.

End Signup.

Section SignupInvariant.

Variable bcrypt_hash : string -> string -> string.
Variable is_email : string -> bool.
Variable jwt_encode : token -> string.

Lemma signup_users_ok t w secret b :
  users_ok t ->
  users_ok (fst (signup_handler bcrypt_hash is_email jwt_encode t w secret b)).
Proof.
  intros (He & Hi & Hb).
  destruct (signup_handler bcrypt_hash is_email jwt_encode t w secret b)
    as [t' [r|e]] eqn:H; cbn [fst].
  - destruct (signup_created bcrypt_hash is_email jwt_encode t w secret b t' r H)
      as (email & password & _ & Hf & -> & _).
    unfold users_ok. cbn [rows sequence]. rewrite !map_app. cbn [map u_email u_id].
    split; [|split].
    + apply (Permutation_NoDup (l := email :: map u_email (rows t)));
        [apply Permutation_cons_append|].
      constructor; [|exact He]. intros Hin. apply in_map_iff in Hin.
      destruct Hin as (u & Hu & Hin).
      pose proof (find_none_forall _ _ Hf u Hin) as Hx. cbn in Hx.
      apply String.eqb_neq in Hx. contradiction.
    + apply (Permutation_NoDup (l := next_rowid t :: map u_id (rows t)));
        [apply Permutation_cons_append|].
      constructor; [|exact Hi]. intros Hin. apply in_map_iff in Hin.
      destruct Hin as (u & Hu & Hin).
      pose proof (rowid_below_next t u Hin). lia.
    + apply Forall_app. split.
      * revert Hb. apply Forall_impl. intros u [H1 H2]. cbn.
        unfold next_rowid. lia.
      * constructor; [|constructor]. cbn. unfold next_rowid. lia.
  - rewrite (signup_rejected bcrypt_hash is_email jwt_encode t w secret b t' e H).
    now repeat split.
Qed.

(** X3.  Whatever signup requests arrive, the table they build from the
    empty one never holds two users with the same e-mail or the same id,
    and every id is at least 1: a stored user id is never falsy. *)
Theorem signups_keep_users_distinct :
  forall secret reqs,
    let t := signups bcrypt_hash is_email jwt_encode no_users secret reqs in
    NoDup (map u_email (rows t))
    /\ NoDup (map u_id (rows t))
    /\ Forall (fun u => truthy_num (u_id u) = true) (rows t).
Proof.
  intros secret reqs t.
  assert (users_ok t) as (He & Hi & Hb).
  { subst t. assert (users_ok no_users) as H0
        by (repeat split; constructor).
    revert H0. generalize no_users. induction reqs as [|[w b] reqs IH];
      intros t0 H0; cbn; [exact H0|].
    apply IH. now apply signup_users_ok. }
  split; [exact He|]. split; [exact Hi|].
  revert Hb. apply Forall_impl. intros u [H1 _]. unfold truthy_num.
  destruct (Nat.eqb_spec (u_id u) 0); [lia|reflexivity].
Qed.

End SignupInvariant.

(** X1 at work: the address of the sample user is taken. *)
Lemma signup_duplicate_email_witness :
  signup toy_hash (fun _ => true) toy_encode Production
    (mkUserTable sample_users 1) sample_world "k" sample_signup
  = (mkUserTable sample_users 1,
     Failure (mkErrorResponse 400
                (mkErrorBody false "User with this email already exists"
                   None)))
  /\ signup toy_hash (fun _ => true) toy_encode Production
       (mkUserTable sample_users 1) sample_world "k"
       (mkLoginBody (Str "a@example.com") (Str "abc"))
     = (mkUserTable sample_users 1,
        Failure (mkErrorResponse 400
                   (mkErrorBody false
                      "Password must be at least 6 characters long" None))).
Proof.
  destruct (signup_duplicate_email toy_hash (fun _ => true) toy_encode
              Production (mkUserTable sample_users 1) sample_world "k"
              sample_signup "a@example.com" "secret1"
              (nth 0 sample_users (mkUser 0 "" "" "")) eq_refl eq_refl)
    as (H1 & _ & H2).
  split; [exact H1|]. apply (H2 "abc"). cbn. lia.
Defined.

Lemma toy_sound salt password :
  toy_compare password (toy_hash salt password) = true.
Proof. unfold toy_compare, toy_hash. apply String.eqb_refl. Qed.

(** X2 at work: signup with ("a@example.com", "secret1") on the empty
    table, then login. *)
Lemma signup_then_login_witness :
  exists t' user,
    signup_handler toy_hash (fun _ => true) toy_encode no_users sample_world
      "k" sample_signup
    = (t', Resolve (201, AuthData "User created successfully" user
                           "header.payload.signature"))
    /\ login toy_compare (fun _ => true) toy_encode Production (rows t')
         1700000100 "k" sample_signup
       = Json 200 (AuthData "Login successful" user
                     "header.payload.signature").
Proof.
  eexists _, _. split; [reflexivity|].
  destruct (signup_then_login toy_hash toy_compare (fun _ => true) toy_encode
              toy_sound Production no_users sample_world "k" sample_signup
              _ _ _ _ 1700000100%Z eq_refl)
    as (email & password & Hp & _ & Hl).
  injection Hp as <- <-. exact Hl.
Defined.

End AccountFacts.

(* ================================================================= *)
(** ** Sessions *)

Module SessionFacts.
Import Js ErrorHandler Validation Models Http Auth AuthController Accounts.

Lemma split_no_space s : has_space s = false -> split_on " " s = [s].
Proof.
  induction s as [|c s IH]; cbn; [reflexivity|].
  destruct (Ascii.eqb c " "); cbn; [discriminate|].
  intros H. now rewrite (IH H).
Qed.

Lemma split_bearer_header tok :
  split_on " " (bearer_header tok) = "Bearer" :: split_on " " tok.
Proof. reflexivity. Qed.

(** The header the client builds is read back by the server. *)
Lemma bearer_token_header tok :
  has_space tok = false -> tok <> "" ->
  bearer_token (Some (bearer_header tok)) = Some tok.
Proof.
  intros Hs Hne. unfold bearer_token, split_space.
  rewrite split_bearer_header, (split_no_space tok Hs).
  change (truthy (bearer_header tok)) with true. cbn [nth_error].
  unfold truthy. destruct (String.eqb_spec tok ""); [contradiction|reflexivity].
Qed.

Lemma bearer_token_no_space h : has_space h = false -> bearer_token (Some h) = None.
Proof.
  intros Hs. unfold bearer_token, split_space. rewrite (split_no_space h Hs).
  cbn. now destruct (truthy h).
Qed.

Section Sessions.

Variable jwt_decode : string -> option token.
Variable jwt_encode : token -> string.

(** X4.  A token issued at second [now] for a stored user, sent in the
    header the client builds, opens [GET /api/auth/me] with that user's
    profile at every second before [now + 604800] (seven days) and is
    answered 401 "Invalid token" from that second on. *)
Theorem token_valid_for_seven_days :
  forall env users now secret user now',
    let tok := generateToken jwt_encode now secret (u_id user) (u_email user) in
    UserModel.findById users (u_id user) = Resolve user ->
    u_id user <> 0 ->
    jwt_decode tok
    = Some (mkToken (u_id user) (u_email user) (now + 604800)%Z secret) ->
    has_space tok = false ->
    tok <> "" ->
    ((now' < now + 604800)%Z ->
     me jwt_decode env users now' secret (Some (bearer_header tok))
     = Json 200 (ProfileData (mkUserView (u_id user) (u_email user)
                                (u_created_at user))))
    /\ ((now + 604800 <= now')%Z ->
        me jwt_decode env users now' secret (Some (bearer_header tok))
        = Failure (mkErrorResponse 401
                     (mkErrorBody false "Invalid token"
                        (if is_development env then Some 41 else None)))).
Proof.
  intros env users now secret user now' tok Hu Hid Hd Hs Hne.
  unfold me, authenticateToken, jwt_verify.
  rewrite (bearer_token_header tok Hs Hne), Hd. cbn [tok_key tok_exp bind].
  rewrite String.eqb_refl. cbn [negb]. split; intros Hn.
  - destruct (Z.leb_spec (now + 604800) now'); [lia|].
    cbn [bind tok_userId]. rewrite Hu. cbn [bind asyncHandler me_handler au_id].
    unfold truthy_num. destruct (Nat.eqb_spec (u_id user) 0); [contradiction|].
    cbn [negb]. rewrite Hu. reflexivity.
  - destruct (Z.leb_spec (now + 604800) now'); [|lia]. reflexivity.
Qed.

(** X5.  A request without an Authorization header, or with a header
    that has no blank in it (so no second word), is answered 401
    "Access token required". *)
Theorem missing_token_rejected :
  forall env users now secret hdr,
    hdr = None \/ (exists h, hdr = Some h /\ has_space h = false) ->
    me jwt_decode env users now secret hdr
    = Failure (mkErrorResponse 401
                 (mkErrorBody false "Access token required"
                    (if is_development env then Some 25 else None))).
Proof.
  intros env users now secret hdr H.
  assert (bearer_token hdr = None) as Hb.
  { destruct H as [->|(h & -> & Hs)]; [reflexivity|].
    now apply bearer_token_no_space. }
  unfold me, authenticateToken. rewrite Hb. reflexivity.
Qed.

(** X6.  A token that verifies (good signature, not expired) but names a
    user id that is not in the table is answered 404 "User not found",
    not 401. *)
Theorem token_of_missing_user :
  forall env users now secret hdr tok t,
    bearer_token hdr = Some tok ->
    jwt_decode tok = Some t ->
    tok_key t = secret ->
    (now < tok_exp t)%Z ->
    find (fun u => u_id u =? tok_userId t) users = None ->
    me jwt_decode env users now secret hdr
    = Failure (mkErrorResponse 404
                 (mkErrorBody false "User not found"
                    (if is_development env then Some 69 else None))).
Proof.
  intros env users now secret hdr tok t Hb Hd Hk He Hf.
  unfold me, authenticateToken, jwt_verify. rewrite Hb, Hd, Hk.
  rewrite String.eqb_refl. cbn [negb].
  destruct (Z.leb_spec (tok_exp t) now); [lia|].
  cbn [bind]. unfold UserModel.findById. rewrite Hf. reflexivity.
Qed.

End Sessions.

(** X4 at work: the sample user's token, a hundred seconds after it was
    issued. *)
Lemma token_valid_for_seven_days_witness :
  let user := nth 0 sample_users (mkUser 0 "" "" "") in
  UserModel.findById sample_users (u_id user) = Resolve user
  /\ u_id user <> 0
  /\ me toy_decode Production sample_users 1700000100 "k"
       (Some "Bearer header.payload.signature")
     = Json 200 (ProfileData (mkUserView 1 "a@example.com"
                                "2024-01-01 10:00:00")).
Proof.
  intros user.
  assert (UserModel.findById sample_users (u_id user) = Resolve user) as Hu
      by reflexivity.
  assert (u_id user <> 0) as Hid by discriminate.
  split; [exact Hu|]. split; [exact Hid|].
  apply (token_valid_for_seven_days toy_decode toy_encode Production
           sample_users 1700000000 "k" user 1700000100 Hu Hid eq_refl
           eq_refl).
  - discriminate.
  - reflexivity.
Defined.

(** X5 at work: a header with the scheme only. *)
Lemma missing_token_rejected_witness :
  me toy_decode Production sample_users 0 "k" (Some "Bearer")
  = Failure (mkErrorResponse 401
               (mkErrorBody false "Access token required" None)).
Proof.
  apply (missing_token_rejected toy_decode Production sample_users 0 "k"
           (Some "Bearer")).
  right. exists "Bearer". split; reflexivity.
Defined.

(** X6 at work: the sample token after the user table was emptied. *)
Lemma token_of_missing_user_witness :
  me toy_decode Production [] 1700000100 "k"
    (Some "Bearer header.payload.signature")
  = Failure (mkErrorResponse 404 (mkErrorBody false "User not found" None)).
Proof.
  apply (token_of_missing_user toy_decode Production [] 1700000100 "k"
           (Some "Bearer header.payload.signature")
           "header.payload.signature"
           (mkToken 1 "a@example.com" (1700000000 + 604800) "k"));
    reflexivity.
Defined.

End SessionFacts.

(* ================================================================= *)
(** ** More of the job store *)

Module JobStoreFacts.
Import Js ErrorHandler Validation Models Http Auth Generations JobStore.
Import GenerationModel.
Import StoreFacts ProcessorFacts.

Lemma find_filter_other i j d :
  i <> j ->
  find (has_id j) (filter (fun g => negb (has_id i g)) d) = find (has_id j) d.
Proof.
  intros Hne. induction d as [|a d IH]; cbn; [reflexivity|].
  destruct (has_id i a) eqn:Hi; cbn.
  - destruct (has_id j a) eqn:Hj; [|exact IH].
    apply has_id_eq in Hi. apply has_id_eq in Hj. congruence.
  - destruct (has_id j a); [reflexivity|exact IH].
Qed.

Lemma find_filter_same i d :
  find (has_id i) (filter (fun g => negb (has_id i g)) d) = None.
Proof.
  induction d as [|a d IH]; cbn; [reflexivity|].
  destruct (has_id i a) eqn:Hi; cbn; [exact IH|]. now rewrite Hi.
Qed.

Lemma filter_none_find i d :
  find (has_id i) d = None -> filter (has_id i) d = [].
Proof.
  induction d as [|a d IH]; cbn; [reflexivity|].
  destruct (has_id i a); [discriminate|exact IH].
Qed.

Lemma filter_some_find i d g :
  find (has_id i) d = Some g -> List.length (filter (has_id i) d) <> 0.
Proof.
  intros Hf. apply find_some in Hf. destruct Hf as [Hin Hi].
  assert (In g (filter (has_id i) d)) as Hin' by now apply filter_In.
  destruct (filter (has_id i) d); [contradiction|discriminate].
Qed.

(** X7.  [GenerationModel.create] stores the row in status "processing"
    with no result path, after which [findById] returns it and every
    other id is found (or not) as before; with an id that is already
    present it is rejected with SQLite's UNIQUE error and changes
    nothing. *)
Theorem create_then_find :
  forall db now d,
    let row := mkGeneration (cg_id d) (cg_user_id d) (cg_prompt d)
                 (cg_style d) (or_null (cg_image_path d)) None "processing"
                 now in
    (find (has_id (cg_id d)) db = None ->
     create db now d = (db ++ [row], Resolve row)
     /\ findById (db ++ [row]) (cg_id d) = Resolve row
     /\ (forall j, j <> cg_id d ->
           findById (db ++ [row]) j = findById db j))
    /\ (forall g, find (has_id (cg_id d)) db = Some g ->
          exists e,
            create db now d = (db, Reject e)
            /\ includes (message e) "UNIQUE constraint failed: generations.id"
               = true).
Proof.
  intros db now d row. split.
  - intros Hf.
    assert (findById (db ++ [row]) (cg_id d) = Resolve row) as Hnew.
    { unfold findById. rewrite find_app, Hf. cbn. unfold has_id. cbn.
      now rewrite String.eqb_refl. }
    split; [|split; [exact Hnew|]].
    + unfold create. rewrite (proj1 (AccountFacts.find_none_iff _ _) Hf).
      fold row. now rewrite Hnew.
    + intros j Hj. unfold findById. rewrite find_app.
      destruct (find (has_id j) db); [reflexivity|]. cbn. unfold has_id. cbn.
      destruct (String.eqb_spec (cg_id d) j); [congruence|reflexivity].
  - intros g Hg. unfold create.
    assert (existsb (has_id (cg_id d)) db = true) as ->.
    { apply find_some in Hg. apply existsb_exists. exists g. exact Hg. }
    eexists. split; reflexivity.
Qed.

(** X8.  [GenerationModel.updateStatus] on an id that no row has is
    rejected with "Generation not found" and changes nothing; otherwise
    it keeps the number of rows and every row's id, owner, prompt,
    style, image path and creation time, leaves the rows of other ids
    untouched, and returns the row with the new status. *)
Theorem updateStatus_frame :
  forall db i st res,
    (find (has_id i) db = None ->
     updateStatus db i st res
     = (db, Reject (Error_ "Generation not found" 111)))
    /\ (forall g, find (has_id i) db = Some g ->
          exists g',
            updateStatus db i st res
            = (map (set_status i st res) db, Resolve g')
            /\ status g' = status_text st
            /\ result_image_path g' = or_null res
            /\ fixed_columns g' = fixed_columns g)
    /\ map fixed_columns (fst (updateStatus db i st res))
       = map fixed_columns db
    /\ (forall j, j <> i ->
          find (has_id j) (fst (updateStatus db i st res))
          = find (has_id j) db).
Proof.
  intros db i st res.
  assert (Hfix : forall g, fixed_columns (set_status i st res g)
                           = fixed_columns g).
  { intros g. unfold set_status. destruct (has_id i g); reflexivity. }
  split; [|split; [|split]].
  - apply updateStatus_missing.
  - intros g Hg. exists (set_status i st res g).
    split; [now apply updateStatus_found|].
    assert (has_id i g = true) as Hi by (apply find_some in Hg; tauto).
    destruct (set_status_hit i st res g Hi) as [Hs Hr]. auto.
  - destruct (find (has_id i) db) as [g|] eqn:Hf.
    + rewrite (updateStatus_found db i st res g Hf). cbn [fst].
      rewrite map_map. apply map_ext. exact Hfix.
    + now rewrite (updateStatus_missing db i st res Hf).
  - intros j Hj. destruct (find (has_id i) db) as [g|] eqn:Hf.
    + rewrite (updateStatus_found db i st res g Hf). cbn [fst].
      rewrite find_set_status.
      destruct (find (has_id j) db) as [a|] eqn:Ha; [|reflexivity].
      cbn. f_equal. apply set_status_miss.
      destruct (find_has_id _ _ _ Ha) as [Hid _].
      unfold has_id. apply String.eqb_neq. congruence.
    + now rewrite (updateStatus_missing db i st res Hf).
Qed.

(** X9.  [GenerationModel.delete] of a stored id removes it: afterwards
    [findById] rejects with "Generation not found", which the error
    middleware answers 404, and the other ids are found as before; the
    delete of an absent id (so also a second delete) is rejected and
    changes nothing. *)
Theorem delete_then_find :
  forall env db i,
    (forall g, find (has_id i) db = Some g ->
       exists db',
         delete db i = (db', Resolve tt)
         /\ findById db' i = Reject (Error_ "Generation not found" 67)
         /\ er_status (errorHandler env (Error_ "Generation not found" 67))
            = 404
         /\ (forall j, j <> i -> find (has_id j) db' = find (has_id j) db)
         /\ delete db' i = (db', Reject (Error_ "Generation not found" 136)))
    /\ (find (has_id i) db = None ->
        delete db i = (db, Reject (Error_ "Generation not found" 136))).
Proof.
  intros env db i. split.
  - intros g Hg. exists (filter (fun a => negb (has_id i a)) db).
    pose proof (filter_some_find i db g Hg) as Hc.
    repeat split.
    + unfold delete.
      destruct (Nat.eqb_spec (List.length (filter (has_id i) db)) 0);
        [contradiction|reflexivity].
    + unfold findById. now rewrite find_filter_same.
    + intros j Hj. apply find_filter_other. congruence.
    + unfold delete. now rewrite (filter_none_find i _ (find_filter_same i db)).
  - intros Hf. unfold delete. now rewrite (filter_none_find i db Hf).
Qed.

End JobStoreFacts.

(* ================================================================= *)
(** ** More of the job routes and the processor *)

Module JobRouteFacts.
Import Js ErrorHandler Validation Models Http Auth Generations JobStore.
Import GenerationModel.
Import StoreFacts ValidationFacts ProcessorFacts JobApiFacts LifecycleFacts.

(** What a create request that was answered 201 did. *)
Lemma createGeneration_inv db req db' t r :
  createGeneration_handler db req = (db', Some t, r) ->
  exists uid p s f,
    authenticated (cr_user req) 45 = Resolve uid
    /\ createGenerationSchema_parse (cr_body req) = Resolve (p, s)
    /\ cr_file req = Some f
    /\ validateImageFile f = None
    /\ find (has_id (fst t)) db = None
    /\ t = ((cr_uuid req ++ "-" ++ show_N (cr_now_ms req))%string, path f)
    /\ db' = db ++ [mkGeneration (fst t) uid p s (or_null (Some (path f)))
                      None "processing" (cr_timestamp req)].
Proof.
  unfold createGeneration_handler.
  destruct (authenticated (cr_user req) 45) as [uid|e]; [|discriminate].
  destruct (createGenerationSchema_parse (cr_body req)) as [[p s]|e];
    [|discriminate].
  destruct (cr_file req) as [f|]; [|discriminate].
  destruct (validateImageFile f) eqn:Hv; [discriminate|].
  unfold create. cbn [cg_id cg_user_id cg_prompt cg_style cg_image_path].
  destruct (existsb _ db) eqn:Hfresh; [discriminate|].
  pose proof (find_none_existsb _ _ Hfresh) as Hnone.
  unfold findById. rewrite find_app, Hnone.
  cbn [find]. unfold has_id at 1. cbn [id]. rewrite String.eqb_refl.
  intros [= <- <- _]. exists uid, p, s, f. cbn [fst].
  repeat split; try reflexivity; assumption.
Qed.

Section Routes.

Variable path_join : string -> string -> string.
Variable path_dirname : string -> string.
Variable path_basename : string -> string.

(** X10.  A processor that runs for a job that is no longer in the table
    changes nothing and its promise still resolves; in test mode it logs
    nothing, otherwise the console receives two errors, the last one
    "Generation not found". *)
Theorem processor_on_missing_job :
  forall env w db t,
    find (has_id (fst t)) db = None ->
    exists log,
      spawn_processGeneration path_join path_dirname env w db t
      = (db, log, Resolve tt)
      /\ (is_test env = true -> log = [])
      /\ (is_test env = false ->
          exists e, log = [e; Error_ "Generation not found" 111]).
Proof.
  intros env w db t Hf.
  unfold spawn_processGeneration, spawn_processGeneration_io,
    processGeneration_io, processGeneration_try_io, simulateProcessing.
  change (updateStatus_io store_answers) with updateStatus.
  destruct (shouldFail env w); cbn [success resultPath or_null].
  - rewrite (updateStatus_missing db _ failed None Hf). cbn [await_].
    destruct (is_test env); cbn [negb].
    + exists []. repeat split. discriminate.
    + rewrite (updateStatus_missing db _ failed None Hf). cbn [await_ app].
      eexists. split; [reflexivity|]. split; [discriminate|]. eauto.
  - rewrite result_name_truthy.
    destruct (copyFile w (snd t) _) as [u|e].
    + rewrite (updateStatus_missing db _ completed _ Hf). cbn [await_].
      destruct (is_test env); cbn [negb].
      * exists []. repeat split. discriminate.
      * rewrite (updateStatus_missing db _ failed None Hf). cbn [await_ app].
        eexists. split; [reflexivity|]. split; [discriminate|]. eauto.
    + destruct (is_test env); cbn [negb].
      * exists []. repeat split. discriminate.
      * rewrite (updateStatus_missing db _ failed None Hf). cbn [await_ app].
        eexists. split; [reflexivity|]. split; [discriminate|]. eauto.
Qed.

(** What any run of a task can do to the table. *)
Lemma spawn_table env w db t :
  fst (fst (spawn_processGeneration path_join path_dirname env w db t)) = db
  \/ exists st res,
       fst (fst (spawn_processGeneration path_join path_dirname env w db t))
       = map (set_status (fst t) st res) db.
Proof.
  destruct (find (has_id (fst t)) db) as [g|] eqn:Hf.
  - destruct (spawn_found path_join path_dirname env w db t g Hf)
      as (st & res & [H|[H _]]); [now left|right; eauto].
  - destruct (processor_on_missing_job env w db t Hf) as (log & -> & _).
    now left.
Qed.

Lemma step_keeps_row env s e i g :
  find (has_id i) (db s) = Some g ->
  exists g',
    find (has_id i)
      (db (fst (step path_join path_dirname path_basename env s e)))
    = Some g'
    /\ fixed_columns g' = fixed_columns g.
Proof.
  intros Hg. destruct e as [req|u l|u j|n w]; cbn; eauto.
  - destruct (createGeneration_cases (db s) req)
      as [(e & ->)|(g0 & p & -> & _)]; cbn; [eauto|].
    rewrite find_app, Hg. eauto.
  - destruct (nth_error (tasks s) n) as [t|]; [|eauto].
    destruct (spawn_processGeneration path_join path_dirname env w (db s) t)
      as [[d' log] r] eqn:Hsp. cbn.
    destruct (spawn_table env w (db s) t) as [H|(st & res & H)];
      rewrite Hsp in H; cbn in H; subst d'; [eauto|].
    rewrite find_set_status, Hg. cbn. eexists. split; [reflexivity|].
    unfold set_status. destruct (has_id (fst t) g); reflexivity.
Qed.

(** X11.  Through any sequence of operations (the three routes and the
    completion of background tasks, from any state) a stored job stays
    stored and keeps its id, owner, prompt, style, image path and
    creation time: ownership never changes and no operation deletes a
    job. *)
Theorem job_identity_is_permanent :
  forall env es s i g,
    find (has_id i) (db s) = Some g ->
    exists g',
      find (has_id i)
        (db (run path_join path_dirname path_basename env s es))
      = Some g'
      /\ fixed_columns g' = fixed_columns g.
Proof.
  intros env es. induction es as [|e es IH]; intros s i g Hg; cbn; [eauto|].
  destruct (step_keeps_row env s e i g Hg) as (g1 & Hg1 & E1).
  destruct (IH _ i g1 Hg1) as (g2 & Hg2 & E2).
  exists g2. split; [exact Hg2|congruence].
Qed.


(** X13.  A job is visible as soon as the create request is answered:
    fetched by its creator it is returned with status "processing" and no
    result URL, and fetched by any other user it is answered 403. *)
Theorem created_job_is_visible :
  forall env db req db' t r u,
    createGeneration_handler db req = (db', Some t, r) ->
    cr_user req = Some u ->
    (exists v,
        getGeneration path_basename env db' (Some u) (fst t)
        = Json 200 (GenerationData v)
        /\ gv_id v = fst t
        /\ gv_status v = "processing"
        /\ gv_resultImageUrl v = None)
    /\ (forall u', au_id u' <> 0 -> au_id u' <> au_id u ->
          getGeneration path_basename env db' (Some u') (fst t)
          = access_denied env).
Proof.
  intros env db req db' t r u H Hu.
  destruct (createGeneration_inv db req db' t r H)
    as (uid & p & s & f & Ha & _ & _ & _ & Hnone & _ & ->).
  rewrite Hu in Ha.
  assert (au_id u <> 0 /\ uid = au_id u) as [Hnz ->].
  { unfold authenticated, truthy_num in Ha.
    destruct (Nat.eqb_spec (au_id u) 0); cbn in Ha; [discriminate|].
    injection Ha as <-. auto. }
  set (g := mkGeneration (fst t) (au_id u) p s (or_null (Some (path f))) None
              "processing" (cr_timestamp req)).
  assert (find (has_id (fst t)) (db ++ [g]) = Some g) as Hg.
  { rewrite find_app, Hnone. cbn. unfold has_id. cbn.
    now rewrite String.eqb_refl. }
  split.
  - exists (transform path_basename g). split; [|repeat split].
    unfold getGeneration, getGeneration_handler, findById.
    rewrite (authenticated_ok u 150 Hnz), Hg. cbn [bind].
    change (user_id g) with (au_id u). now rewrite Nat.eqb_refl.
  - intros u' Hnz' Hne.
    unfold getGeneration, getGeneration_handler, findById.
    rewrite (authenticated_ok u' 150 Hnz'), Hg. cbn [bind].
    change (user_id g) with (au_id u).
    destruct (Nat.eqb_spec (au_id u) (au_id u')); [congruence|].
    destruct env; reflexivity.
Qed.

End Routes.

(** X10 at work: the task of a job that is not in the table, in
    production. *)
Lemma processor_on_missing_job_witness :
  find (has_id "job-9") sample_db = None
  /\ exists log,
       spawn_processGeneration posix_join posix_dirname Production all_well
         sample_db ("job-9", "uploads/image-9.png")
       = (sample_db, log, Resolve tt).
Proof.
  assert (find (has_id "job-9") sample_db = None) as Hf by reflexivity.
  split; [exact Hf|].
  destruct (processor_on_missing_job posix_join posix_dirname Production
              all_well sample_db ("job-9", "uploads/image-9.png") Hf)
    as (log & H & _).
  exists log. exact H.
Defined.

(** X11 at work: job-2 through its own completion and a later request. *)
Lemma job_identity_is_permanent_witness :
  let s := mkSystem sample_db [("job-2", "uploads/image-2.png")] [] in
  exists g',
    find (has_id "job-2")
      (db (run posix_join posix_dirname posix_basename Production s
             [TaskCompletes 0 all_well; PostGeneration (sample_create "x")]))
    = Some g'
    /\ user_id g' = 2.
Proof.
  intros s.
  destruct (job_identity_is_permanent posix_join posix_dirname posix_basename
              Production
              [TaskCompletes 0 all_well; PostGeneration (sample_create "x")]
              s "job-2"
              (nth 1 sample_db (mkGeneration "" 0 "" "" None None "" ""))
              eq_refl) as (g' & Hg & E).
  exists g'. split; [exact Hg|].
  unfold fixed_columns in E. now injection E.
Defined.


(** X13 at work: the sample upload, fetched by its creator. *)
Lemma created_job_is_visible_witness :
  exists db' t r v,
    createGeneration_handler [] (sample_create "a cat") = (db', Some t, r)
    /\ getGeneration posix_basename Production db' (Some sample_user) (fst t)
       = Json 200 (GenerationData v)
    /\ gv_status v = "processing".
Proof.
  destruct (createGeneration_handler [] (sample_create "a cat"))
    as [[db' [t|]] r] eqn:H; [|vm_compute in H; discriminate].
  destruct (created_job_is_visible posix_basename Production []
              (sample_create "a cat") db' t r sample_user H eq_refl)
    as ((v & Hv & _ & Hs & _) & _).
  exists db', t, r, v. auto.
Defined.

End JobRouteFacts.

(* ================================================================= *)
(** ** Rejections of the job routes *)

Module RejectionFacts.
Import Js ErrorHandler Validation Models Http Auth Generations JobStore.
Import GenerationModel.
Import StoreFacts ValidationFacts JobApiFacts.


(** The answer to a ZodError of the create schema. *)
Lemma errorHandler_create_issues env pf sf :
  prompt_issues pf ++ style_issues sf <> [] ->
  errorHandler env
    (ZodError (prompt_issues pf ++ style_issues sf)
       (String.concat "," (prompt_issues pf ++ style_issues sf)) 49)
  = mkErrorResponse 400
      (mkErrorBody false (first_issue (prompt_issues pf ++ style_issues sf))
         (if is_development env then Some 49 else None)).
Proof.
  intros Hne.
  destruct pf as [|p|[| | | |]]; destruct sf as [|s|t];
    cbn [prompt_issues style_issues] in *;
    try destruct (String.length p <? 1);
    try destruct (500 <? String.length p);
    try destruct (is_style s);
    cbn [app] in *; try contradiction; reflexivity.
Qed.

Section Rejections.

Variable path_basename : string -> string.


End Rejections.

(** X15.  A create request whose text fields fail the schema is answered
    400 with the message of the first issue, the prompt's before the
    style's: "Prompt is required" for an empty prompt, "Prompt too long"
    for more than 500 characters, zod's "Invalid input: expected string,
    received ..." for a prompt that is missing or not a string (naming
    what was received), and "Invalid style option" when the prompt is
    fine and the style is not one of the four; nothing is stored and no
    task is started, whatever file came with it. *)
Theorem create_text_rejections :
  forall env db req uid,
    authenticated (cr_user req) 45 = Resolve uid ->
    let msgs := prompt_issues (body_prompt (cr_body req))
                ++ style_issues (body_style (cr_body req)) in
    (msgs <> [] ->
     createGeneration env db req
     = (db, None, bad_request env (first_issue msgs) 49))
    /\ (body_prompt (cr_body req) = Str "" ->
        first_issue msgs = "Prompt is required")
    /\ (forall p, body_prompt (cr_body req) = Str p ->
          500 < String.length p -> first_issue msgs = "Prompt too long")
    /\ (forall p s, body_prompt (cr_body req) = Str p ->
          1 <= String.length p <= 500 ->
          body_style (cr_body req) = Str s -> is_style s = false ->
          first_issue msgs = "Invalid style option")
    /\ (body_prompt (cr_body req) = Absent ->
        first_issue msgs
        = "Invalid input: expected string, received undefined")
    /\ (forall t, body_prompt (cr_body req) = NotAString t ->
          first_issue msgs
          = ("Invalid input: expected string, received " ++ received t)%string).
Proof.
  intros env db req uid Ha msgs. subst msgs.
  split; [|split; [|split; [|split; [|split]]]].
  - intros Hne. unfold createGeneration, createGeneration_handler. rewrite Ha.
    unfold createGenerationSchema_parse.
    assert (match body_prompt (cr_body req), body_style (cr_body req),
                  prompt_issues (body_prompt (cr_body req))
                  ++ style_issues (body_style (cr_body req))
            with
            | Str p, Str s, [] => Resolve (p, s)
            | _, _, _ =>
                Reject (ZodError
                          (prompt_issues (body_prompt (cr_body req))
                           ++ style_issues (body_style (cr_body req)))
                          (String.concat ","
                             (prompt_issues (body_prompt (cr_body req))
                              ++ style_issues (body_style (cr_body req))))
                          49)
            end
            = Reject (ZodError
                        (prompt_issues (body_prompt (cr_body req))
                         ++ style_issues (body_style (cr_body req)))
                        (String.concat ","
                           (prompt_issues (body_prompt (cr_body req))
                            ++ style_issues (body_style (cr_body req))))
                        49)) as ->.
    { destruct (body_prompt (cr_body req)); destruct (body_style (cr_body req));
        try reflexivity.
      destruct (prompt_issues (Str s) ++ style_issues (Str s0));
        [contradiction|reflexivity]. }
    unfold asyncHandler, bad_request.
    now rewrite (errorHandler_create_issues env _ _ Hne).
  - intros ->. reflexivity.
  - intros p -> Hp. cbn [prompt_issues].
    destruct (Nat.ltb_spec (String.length p) 1); [lia|].
    destruct (Nat.ltb_spec 500 (String.length p)); [reflexivity|lia].
  - intros p s -> Hp -> Hs. cbn [prompt_issues style_issues]. rewrite Hs.
    destruct (Nat.ltb_spec (String.length p) 1); [lia|].
    destruct (Nat.ltb_spec 500 (String.length p)); [lia|reflexivity].
  - intros ->. reflexivity.
  - intros t ->. reflexivity.
Qed.

(** X16.  A create request with valid text fields is answered 400
    "Image file is required" without a file, 400 "Only JPEG and PNG files
    are allowed" for another MIME type whatever the size, and 400 "File
    size must be less than 10MB" for an allowed type above 10 * 1024 * 1024
    bytes; in each case nothing is stored and no task is started. *)
Theorem create_file_rejections :
  forall env db req uid p s,
    authenticated (cr_user req) 45 = Resolve uid ->
    createGenerationSchema_parse (cr_body req) = Resolve (p, s) ->
    (cr_file req = None ->
     createGeneration env db req
     = (db, None, bad_request env "Image file is required" 55))
    /\ (forall f, cr_file req = Some f ->
          existsb (String.eqb (mimetype f))
            ["image/jpeg"; "image/jpg"; "image/png"] = false ->
          createGeneration env db req
          = (db, None,
             bad_request env "Only JPEG and PNG files are allowed" 60))
    /\ (forall f, cr_file req = Some f ->
          existsb (String.eqb (mimetype f))
            ["image/jpeg"; "image/jpg"; "image/png"] = true ->
          10 * 1024 * 1024 < size f ->
          createGeneration env db req
          = (db, None,
             bad_request env "File size must be less than 10MB" 60)).
Proof.
  intros env db req uid p s Ha Hp.
  unfold createGeneration, createGeneration_handler. rewrite Ha, Hp.
  split; [|split].
  - intros ->. destruct env; reflexivity.
  - intros f -> Ht. unfold validateImageFile. rewrite Ht.
    destruct env; reflexivity.
  - intros f -> Ht Hs. unfold validateImageFile. rewrite Ht. cbn [negb].
    destruct (Nat.ltb_spec (10 * 1024 * 1024) (size f)); [|lia].
    destruct env; reflexivity.
Qed.

(** X17.  A create request that passes every check but whose generated
    id is already stored is answered 500 "Internal server error" (the
    text "Generation ID conflict" set by the error middleware is
    replaced); nothing is stored and no task is started. *)
Theorem create_id_collision :
  forall env db req uid p s f g,
    authenticated (cr_user req) 45 = Resolve uid ->
    createGenerationSchema_parse (cr_body req) = Resolve (p, s) ->
    cr_file req = Some f ->
    validateImageFile f = None ->
    find (has_id (cr_uuid req ++ "-" ++ show_N (cr_now_ms req))%string) db
    = Some g ->
    createGeneration env db req
    = (db, None,
       Failure (mkErrorResponse 500
                  (mkErrorBody false "Internal server error"
                     (if is_development env then Some 32 else None)))).
Proof.
  intros env db req uid p s f g Ha Hp Hf Hv Hg.
  unfold createGeneration, createGeneration_handler.
  rewrite Ha, Hp, Hf, Hv. unfold create. cbn [cg_id].
  assert (existsb (has_id (cr_uuid req ++ "-" ++ show_N (cr_now_ms req))%string)
            db = true) as ->.
  { apply find_some in Hg. apply existsb_exists. exists g. exact Hg. }
  destruct env; reflexivity.
Qed.

(** X18.  The file check of the page and the file check of the server
    accept the same files: those whose type is image/jpeg, image/jpg or
    image/png and whose size is at most 10 * 1024 * 1024 bytes. *)
Theorem file_checks_agree :
  forall (f : Studio.File) (p : string),
    (Studio.validateFile f = None <-> validateImageFile (uploaded f p) = None)
    /\ (Studio.validateFile f = None
        <-> existsb (String.eqb (Studio.file_type f))
              ["image/jpeg"; "image/jpg"; "image/png"] = true
            /\ Studio.file_size f <= 10 * 1024 * 1024).
Proof.
  intros f p. unfold Studio.validateFile, validateImageFile, uploaded.
  cbn [mimetype size].
  destruct (existsb (String.eqb (Studio.file_type f))
              ["image/jpeg"; "image/jpg"; "image/png"]); cbn [negb].
  - destruct (Nat.ltb_spec (10 * 1024 * 1024) (Studio.file_size f))
      as [Hlt|Hle];
      (split; split; intros H; try discriminate; try reflexivity;
       try (split; [reflexivity|lia]); try (destruct H; lia)).
  - split; split; intros H; try discriminate. destruct H. discriminate.
Qed.


(** X15 at work: an empty prompt with a style that is not offered, and
    a prompt field that was sent twice. *)
Lemma create_text_rejections_witness :
  let req := mkCreateRequest (Some sample_user)
               (mkCreateBody (Str "") (Str "sepia")) (Some sample_file)
               "3f2a" 1700000000000 "2024-01-01 10:00:00" in
  let twice := mkCreateRequest (Some sample_user)
                 (mkCreateBody (NotAString AnArray) (Str "cartoon"))
                 (Some sample_file) "3f2a" 1700000000000
                 "2024-01-01 10:00:00" in
  createGeneration Production sample_db req
  = (sample_db, None, bad_request Production "Prompt is required" 49)
  /\ createGeneration Production sample_db twice
     = (sample_db, None,
        bad_request Production
          "Invalid input: expected string, received array" 49).
Proof.
  intros req twice. split.
  - destruct (create_text_rejections Production sample_db req 1 eq_refl)
      as (H & _).
    apply H. discriminate.
  - destruct (create_text_rejections Production sample_db twice 1 eq_refl)
      as (H & _).
    apply H. discriminate.
Defined.

(** X16 at work: a GIF. *)
Lemma create_file_rejections_witness :
  let req := mkCreateRequest (Some sample_user)
               (mkCreateBody (Str "a cat") (Str "cartoon"))
               (Some (mkFile "image/gif" 1000 "uploads/image-4.gif"))
               "3f2a" 1700000000000 "2024-01-01 10:00:00" in
  createGeneration Production sample_db req
  = (sample_db, None,
     bad_request Production "Only JPEG and PNG files are allowed" 60).
Proof.
  intros req.
  destruct (create_file_rejections Production sample_db req 1 "a cat"
              "cartoon" eq_refl eq_refl) as (_ & H & _).
  apply (H (mkFile "image/gif" 1000 "uploads/image-4.gif")); reflexivity.
Defined.

(** X17 at work: the id of the sample upload is taken. *)
Lemma create_id_collision_witness :
  let taken := [mkGeneration "3f2a-1700000000000" 2 "a dog" "vintage" None
                  None "completed" "2024-01-01 09:00:00"] in
  createGeneration Production taken (sample_create "a cat")
  = (taken, None,
     Failure (mkErrorResponse 500
                (mkErrorBody false "Internal server error" None))).
Proof.
  intros taken.
  apply (create_id_collision Production taken (sample_create "a cat") 1
           "a cat" "artistic" sample_file
           (nth 0 taken (mkGeneration "" 0 "" "" None None "" "")));
    vm_compute; reflexivity.
Defined.

End RejectionFacts.

(* ================================================================= *)
(** ** More of the error middleware *)

Module ErrorHandlerMore.
Import Js ErrorHandler.

(** X19.  Whatever error reaches the error middleware, a response with
    status 500 carries the message "Internal server error" and not the
    message of the error; the body always has [success: false] and has a
    stack only in development mode. *)
Theorem internal_errors_are_scrubbed :
  forall env err,
    let r := errorHandler env err in
    (er_status r = 500 -> eb_message (er_body r) = "Internal server error")
    /\ eb_success (er_body r) = false
    /\ (env <> Development -> eb_stack (er_body r) = None).
Proof.
  intros env err r. subst r. unfold errorHandler.
  destruct (String.eqb (name err) "ZodError");
  destruct (includes (message err) "UNIQUE constraint failed: users.email");
  destruct (includes (message err) "UNIQUE constraint failed: generations.id");
  destruct (includes (message err) "not found" || includes (message err) "Not found");
  destruct (String.eqb (name err) "JsonWebTokenError");
  destruct (String.eqb (name err) "TokenExpiredError");
  cbn [er_status er_body eb_message eb_success eb_stack];
  (split; [|split; [reflexivity|destruct env; try reflexivity; contradiction]]);
  try discriminate;
  try (intros H; rewrite H; reflexivity);
  try (intros _; reflexivity).
Qed.

(** X20.  The rules of the error middleware are ranked: an error named
    TokenExpiredError is answered 401 "Token expired" and one named
    JsonWebTokenError 401 "Invalid token", whatever their message and
    status; any other error whose message contains "not found" or
    "Not found" is answered 404. *)
Theorem error_rules_are_ranked :
  forall env err,
    let r := errorHandler env err in
    (name err = "TokenExpiredError" ->
     er_status r = 401 /\ eb_message (er_body r) = "Token expired")
    /\ (name err = "JsonWebTokenError" ->
        er_status r = 401 /\ eb_message (er_body r) = "Invalid token")
    /\ (name err <> "TokenExpiredError" -> name err <> "JsonWebTokenError" ->
        includes (message err) "not found" = true
        \/ includes (message err) "Not found" = true ->
        er_status r = 404).
Proof.
  intros env err r. subst r. unfold errorHandler.
  split; [|split].
  - intros ->.
    destruct (includes (message err) "UNIQUE constraint failed: users.email");
    destruct (includes (message err) "UNIQUE constraint failed: generations.id");
    destruct (includes (message err) "not found" || includes (message err) "Not found");
    cbn; auto.
  - intros ->.
    destruct (includes (message err) "UNIQUE constraint failed: users.email");
    destruct (includes (message err) "UNIQUE constraint failed: generations.id");
    destruct (includes (message err) "not found" || includes (message err) "Not found");
    cbn; auto.
  - intros H1 H2 H3.
    assert (includes (message err) "not found"
            || includes (message err) "Not found" = true) as ->
        by (apply Bool.orb_true_iff; exact H3).
    apply String.eqb_neq in H1. apply String.eqb_neq in H2. rewrite H1, H2.
    destruct (String.eqb (name err) "ZodError");
    destruct (includes (message err) "UNIQUE constraint failed: users.email");
    destruct (includes (message err) "UNIQUE constraint failed: generations.id");
    reflexivity.
Qed.

End ErrorHandlerMore.

(* ================================================================= *)
(** ** More of the page *)

Module StudioMoreFacts.
Import Js Studio StudioMore StudioFacts.

Lemma update_parts f p :
  controllers (update f p) = controllers p
  /\ requests (update f p) = requests p
  /\ awaiting (update f p) = awaiting p
  /\ timers (update f p) = timers p.
Proof. repeat split. Qed.

Lemma page_ok_update f p :
  page_ok p -> file_checked (f (ui p)) -> page_ok (update f p).
Proof. intros (_ & Ha & Ht & Hr & Hc) Hf. now repeat split. Qed.

Lemma remove_nth_Forall {A} (P : A -> Prop) n (l : list A) :
  Forall P l -> Forall P (remove_nth n l).
Proof.
  revert n. induction l as [|a l IH]; intros [|n] H; cbn; auto.
  - now inversion H.
  - inversion H; subst. constructor; auto.
Qed.

Lemma set_nth_length {A} n (v : A) l : List.length (set_nth n v l) = List.length l.
Proof.
  revert n. induction l as [|a l IH]; intros [|n]; cbn; auto.
Qed.

Lemma handleGenerate_ok c p :
  page_ok p -> file_checked c -> page_ok (handleGenerate c p).
Proof.
  intros Hp Hc. unfold handleGenerate.
  destruct (selectedFile c) as [f|] eqn:Hf.
  - destruct (truthy (trim (prompt c))) eqn:Ht; cbn [negb].
    + destruct Hp as (Hu & Ha & Hti & Hr & Hm).
      unfold page_ok. cbn [ui awaiting timers requests controllers].
      split; [exact Hu|]. split.
      { apply Forall_app. split; [exact Ha|]. constructor; [exact Hc|constructor]. }
      split; [exact Hti|]. split.
      { apply Forall_app. split; [exact Hr|]. constructor; [|constructor].
        unfold request_ok. cbn. unfold file_checked in Hc. rewrite Hf in Hc.
        split; [exact Hc|]. split; [exact Ht|]. eauto. }
      rewrite map_app, length_app, Hm. cbn. now rewrite Nat.add_1_r, seq_S.
    + apply page_ok_update; [exact Hp|]. apply Hp.
  - apply page_ok_update; [exact Hp|]. apply Hp.
Qed.

Lemma finally_ok p : page_ok p -> page_ok (finally p).
Proof. intros Hp. apply page_ok_update; [exact Hp|apply Hp]. Qed.

Lemma settled_ok c o p :
  page_ok p -> file_checked c -> page_ok (handleGenerate_settled c o p).
Proof.
  intros Hp Hc. unfold handleGenerate_settled. destruct o as [|err].
  - destruct Hp as (Hu & Ha & Hti & Hr & Hm). repeat split; cbn; auto.
    apply Forall_app. split; [exact Ha|]. constructor; [exact Hc|constructor].
  - destruct (match err_name err with
              | Some n => String.eqb n "AbortError"
              | None => false
              end); [now apply finally_ok|].
    destruct (includes (errorMessage_of err) "Model overloaded"
              && (retryCount c <? MAX_RETRIES)).
    + apply finally_ok.
      destruct Hp as (Hu & Ha & Hti & Hr & Hm). repeat split; cbn; auto.
      apply Forall_app. split; [exact Hti|]. constructor; [exact Hc|constructor].
    + apply finally_ok. apply page_ok_update; [|apply Hp].
      apply page_ok_update; [exact Hp|apply Hp].
Qed.

Lemma step_ok p e p' : page_ok p -> step p e = Some p' -> page_ok p'.
Proof.
  intros Hp. destruct e as [file|text| | |n o|n|n]; cbn.
  - destruct (isGenerating (ui p)); [discriminate|]. intros [= <-].
    unfold handleFileSelect. destruct (validateFile file) eqn:Hv.
    + apply page_ok_update; [exact Hp|apply Hp].
    + apply page_ok_update; [exact Hp|]. exact Hv.
  - destruct (isGenerating (ui p)); [discriminate|]. intros [= <-].
    apply page_ok_update; [exact Hp|apply Hp].
  - destruct (generate_disabled (ui p)); [discriminate|]. intros [= <-].
    apply handleGenerate_ok; [exact Hp|apply Hp].
  - destruct (stop_rendered (ui p)); [|discriminate]. intros [= <-].
    unfold handleAbort. destruct (abortController (ui p)) as [k|].
    + apply page_ok_update; [|apply Hp].
      destruct Hp as (Hu & Ha & Hti & Hr & Hm). repeat split; cbn; auto.
      now rewrite set_nth_length.
    + apply page_ok_update; [exact Hp|apply Hp].
  - destruct (nth_error (awaiting p) n) as [[c k|c]|] eqn:Hn; try discriminate.
    intros [= <-]. apply settled_ok.
    + destruct Hp as (Hu & Ha & Hti & Hr & Hm). repeat split; cbn; auto.
      now apply remove_nth_Forall.
    + destruct Hp as (_ & Ha & _). rewrite Forall_forall in Ha.
      apply (Ha (AwaitCreate c k)). now apply nth_error_In in Hn.
  - destruct (nth_error (awaiting p) n) as [[c k|c]|] eqn:Hn; try discriminate.
    intros [= <-]. unfold handleGenerate_loaded. apply finally_ok.
    apply page_ok_update; [|apply Hp].
    destruct Hp as (Hu & Ha & Hti & Hr & Hm). repeat split; cbn; auto.
    now apply remove_nth_Forall.
  - destruct (nth_error (timers p) n) as [c|] eqn:Hn; [|discriminate].
    intros [= <-]. unfold retry_callback.
    assert (page_ok (take_timer n p)) as Hp'.
    { destruct Hp as (Hu & Ha & Hti & Hr & Hm). repeat split; cbn; auto.
      now apply remove_nth_Forall. }
    assert (file_checked c) as Hc.
    { destruct Hp as (_ & _ & Hti & _). rewrite Forall_forall in Hti.
      apply Hti. now apply nth_error_In in Hn. }
    destruct (negb (signal_aborted (take_timer n p) (abortController c)));
      [now apply handleGenerate_ok|exact Hp'].
Qed.

Lemma act_ok p a p' : page_ok p -> act p a = Some p' -> page_ok p'.
Proof.
  intros Hp. destruct a as [e|file|v| |gp gs hi]; cbn [act].
  - now apply step_ok.
  - destruct (selectedFile (ui p)); [discriminate|]. intros [= <-].
    unfold handleFileSelect. destruct (validateFile file) eqn:Hv.
    + apply page_ok_update; [exact Hp|apply Hp].
    + apply page_ok_update; [exact Hp|]. exact Hv.
  - destruct (isGenerating (ui p) || negb (existsb (String.eqb v) STYLE_OPTIONS));
      [discriminate|]. intros [= <-].
    apply page_ok_update; [exact Hp|apply Hp].
  - destruct (selectedFile (ui p)); [|discriminate]. intros [= <-].
    apply page_ok_update; [exact Hp|exact I].
  - intros [= <-]. unfold restoreGeneration.
    assert (page_ok (update (fun s => setStyle gs (setPrompt gp s)) p)) as H1
        by (apply page_ok_update; [exact Hp|apply Hp]).
    destruct hi; [|exact H1]. apply page_ok_update; [exact H1|apply H1].
Qed.

Lemma acts_ok l : forall p p', page_ok p -> acts p l = Some p' -> page_ok p'.
Proof.
  induction l as [|a l IH]; intros p p' Hp; cbn.
  - now intros [= <-].
  - destruct (act p a) as [p1|] eqn:Ha; [|discriminate].
    apply IH. now apply (act_ok p a).
Qed.

Lemma initial_page_ok : page_ok initial_page.
Proof. repeat split; constructor. Qed.

(** X21.  Whatever the user does and however the calls settle, every
    create-generation call the page has issued carries a file that
    passed the page's own check (JPEG or PNG, at most 10 MB) and a
    prompt that is trimmed and not empty. *)
Theorem page_sends_only_checked_forms :
  forall l p,
    acts initial_page l = Some p ->
    Forall (fun r => validateFile (req_image r) = None
                     /\ req_prompt r <> ""
                     /\ exists text, req_prompt r = trim text)
      (requests p).
Proof.
  intros l p H. pose proof (acts_ok l _ _ initial_page_ok H) as (_ & _ & _ & Hr & _).
  revert Hr. apply Forall_impl. intros r (Hf & Ht & Hx).
  split; [exact Hf|]. split; [|exact Hx].
  intros E. rewrite E in Ht. discriminate.
Qed.

(** X22.  Every create-generation call gets an AbortController of its
    own: the [k]-th call (from 0) holds the [k]-th controller ever
    created, so no two calls share one and there are exactly as many
    controllers as calls. *)
Theorem each_call_has_its_own_controller :
  forall l p,
    acts initial_page l = Some p ->
    List.length (controllers p) = List.length (requests p)
    /\ map req_controller (requests p) = seq 0 (List.length (requests p))
    /\ NoDup (map req_controller (requests p)).
Proof.
  intros l p H. pose proof (acts_ok l _ _ initial_page_ok H) as (_ & _ & _ & _ & Hm).
  assert (List.length (controllers p) = List.length (requests p)) as Hl.
  { rewrite <- (length_map req_controller), Hm. now rewrite length_seq. }
  split; [exact Hl|]. rewrite Hm, Hl. split; [reflexivity|apply seq_NoDup].
Qed.

Lemma sample_history_run : acts initial_page sample_history = Some sample_page.
Proof. vm_compute. reflexivity. Qed.

Lemma page_sends_only_checked_forms_witness :
  acts initial_page sample_history = Some sample_page
  /\ Forall (fun r => validateFile (req_image r) = None
                      /\ req_prompt r <> ""
                      /\ exists text, req_prompt r = trim text)
       (requests sample_page).
Proof.
  split; [exact sample_history_run|].
  exact (page_sends_only_checked_forms sample_history sample_page
           sample_history_run).
Defined.

Lemma each_call_has_its_own_controller_witness :
  acts initial_page sample_history = Some sample_page
  /\ map req_controller (requests sample_page) = [0; 1].
Proof.
  split; [exact sample_history_run|].
  destruct (each_call_has_its_own_controller sample_history sample_page
              sample_history_run) as (_ & Hm & _).
  exact Hm.
Defined.

Lemma remove_nth_length {A} n (l : list A) x :
  nth_error l n = Some x -> S (List.length (remove_nth n l)) = List.length l.
Proof.
  revert n. induction l as [|a l IH]; intros [|n]; cbn; try discriminate.
  - reflexivity.
  - intros H. now rewrite (IH n H).
Qed.

Lemma handleGenerate_sizes c p :
  timers (handleGenerate c p) = timers p
  /\ List.length (requests (handleGenerate c p)) <= S (List.length (requests p)).
Proof.
  unfold handleGenerate. destruct (selectedFile c); [|cbn; auto].
  destruct (negb (truthy (trim (prompt c)))); cbn; [auto|].
  rewrite length_app. cbn. split; [reflexivity|lia].
Qed.

Lemma settled_sizes c o p :
  requests (handleGenerate_settled c o p) = requests p
  /\ List.length (timers (handleGenerate_settled c o p))
     <= List.length (timers p)
        + (if is_overload (Page (CreateSettles 0 o)) then 1 else 0).
Proof.
  unfold handleGenerate_settled, is_overload. destruct o as [|err].
  - cbn. split; [reflexivity|lia].
  - destruct (match err_name err with
              | Some n => String.eqb n "AbortError"
              | None => false
              end); [cbn; split; [reflexivity|lia]|].
    destruct (includes (errorMessage_of err) "Model overloaded"); cbn [andb].
    + destruct (retryCount c <? MAX_RETRIES); cbn; [|split; [reflexivity|lia]].
      rewrite length_app. cbn. split; [reflexivity|lia].
    + cbn. split; [reflexivity|lia].
Qed.

Lemma act_sizes p a p' :
  act p a = Some p' ->
  List.length (requests p')
  <= List.length (requests p) + (if is_click a then 1 else 0)
     + (if is_timer a then 1 else 0)
  /\ (if is_timer a then 1 else 0) + List.length (timers p')
     <= List.length (timers p) + (if is_overload a then 1 else 0).
Proof.
  destruct a as [e|file|v| |gp gs hi]; cbn [act].
  - destruct e as [file|text| | |n o|n|n]; cbn [step].
    + destruct (isGenerating (ui p)); [discriminate|]. intros [= <-].
      unfold handleFileSelect. destruct (validateFile file); cbn; lia.
    + destruct (isGenerating (ui p)); [discriminate|]. intros [= <-]. cbn. lia.
    + destruct (generate_disabled (ui p)); [discriminate|]. intros [= <-].
      destruct (handleGenerate_sizes (ui p) p) as [-> H]. cbn. lia.
    + destruct (stop_rendered (ui p)); [|discriminate]. intros [= <-].
      unfold handleAbort. destruct (abortController (ui p)); cbn; lia.
    + destruct (nth_error (awaiting p) n) as [[c k|c]|]; try discriminate.
      intros [= <-].
      destruct (settled_sizes c o (take_awaiting n p)) as [-> H].
      cbn [is_click is_timer]. cbn [take_awaiting requests timers] in *.
      unfold is_overload in *. lia.
    + destruct (nth_error (awaiting p) n) as [[c k|c]|]; try discriminate.
      intros [= <-]. cbn. lia.
    + destruct (nth_error (timers p) n) as [c|] eqn:Hn; [|discriminate].
      intros [= <-]. apply remove_nth_length in Hn.
      unfold retry_callback.
      destruct (negb (signal_aborted (take_timer n p) (abortController c))).
      * destruct (handleGenerate_sizes c (take_timer n p)) as [-> H].
        cbn [is_click is_timer is_overload take_timer requests timers] in *. lia.
      * cbn [is_click is_timer is_overload take_timer requests timers] in *. lia.
  - destruct (selectedFile (ui p)); [discriminate|]. intros [= <-].
    unfold handleFileSelect. destruct (validateFile file); cbn; lia.
  - destruct (isGenerating (ui p) || negb (existsb (String.eqb v) STYLE_OPTIONS));
      [discriminate|]. intros [= <-]. cbn. lia.
  - destruct (selectedFile (ui p)); [|discriminate]. intros [= <-]. cbn. lia.
  - intros [= <-]. unfold restoreGeneration. destruct hi; cbn; lia.
Qed.

Lemma acts_sizes l : forall p p',
  acts p l = Some p' ->
  List.length (requests p')
  <= List.length (requests p) + count is_click l + count is_timer l
  /\ count is_timer l + List.length (timers p')
     <= List.length (timers p) + count is_overload l.
Proof.
  unfold count. induction l as [|a l IH]; intros p p'; cbn [acts].
  - intros [= <-]. cbn. lia.
  - destruct (act p a) as [p1|] eqn:Ha; [|discriminate]. intros H.
    apply IH in H. apply act_sizes in Ha. cbn [filter].
    destruct (is_click a), (is_timer a), (is_overload a); cbn [List.length] in *; lia.
Qed.

(** X23.  The page issues a create-generation call only on a click on
    Generate or when a retry timer fires, and it arms a retry timer only
    after a call was rejected with a message that contains the overload
    marker: in every history the calls made are at most the clicks plus
    the timers fired, and the timers fired or pending are at most the
    overloaded rejections.  No other failure, and no other control of
    the page, ever causes a call. *)
Theorem calls_need_a_click_or_an_overload :
  forall l p,
    acts initial_page l = Some p ->
    List.length (requests p) <= count is_click l + count is_timer l
    /\ count is_timer l + List.length (timers p) <= count is_overload l.
Proof.
  intros l p H. apply acts_sizes in H. cbn in H. exact H.
Qed.

Lemma calls_need_a_click_or_an_overload_witness :
  acts initial_page sample_history = Some sample_page
  /\ List.length (requests sample_page) <= 1 + 1
  /\ 1 + List.length (timers sample_page) <= 1.
Proof.
  split; [exact sample_history_run|].
  exact (calls_need_a_click_or_an_overload sample_history sample_page
           sample_history_run).
Defined.

Lemma submit_form f text :
  validateFile f = None ->
  truthy (trim text) = true ->
  run initial_page [ChooseFile f; TypePrompt text; ClickGenerate]
  = Some (submitted_page f text).
Proof.
  intros Hf Ht. cbn [run].
  assert (step initial_page (ChooseFile f)
          = Some (mkPage (form_state f "") [] [] [] [])) as ->.
  { cbn [step]. change (isGenerating (ui initial_page)) with false. cbv iota.
    unfold handleFileSelect. rewrite Hf. reflexivity. }
  assert (step (mkPage (form_state f "") [] [] [] []) (TypePrompt text)
          = Some (mkPage (form_state f text) [] [] [] [])) as -> by reflexivity.
  assert (step (mkPage (form_state f text) [] [] [] []) ClickGenerate
          = Some (submitted_page f text)) as ->; [|reflexivity].
  cbn [step]. unfold generate_disabled.
  cbn [ui form_state selectedFile prompt isGenerating]. rewrite Ht.
  cbn [negb orb]. unfold handleGenerate.
  cbn [form_state selectedFile prompt]. rewrite Ht. reflexivity.
Qed.

(** X24.  A submission of a checked file and a non-blank prompt that the
    server rejects with any error other than an abort and without the
    overload marker makes exactly one call: the page shows the server's
    message (or 'Generation failed' when there is none), is idle again
    with the retry counter at 0, and holds no timer and no pending call. *)
Theorem plain_failure_is_final :
  forall f text err,
    validateFile f = None ->
    truthy (trim text) = true ->
    err_name err <> Some "AbortError" ->
    includes (errorMessage_of err) "Model overloaded" = false ->
    run initial_page [ChooseFile f; TypePrompt text; ClickGenerate;
                      CreateSettles 0 (Rejected err)]
    = Some (settled_page f text (errorMessage_of err)).
Proof.
  intros f text err Hf Ht Hn Hi.
  change [ChooseFile f; TypePrompt text; ClickGenerate; CreateSettles 0 (Rejected err)]
    with ([ChooseFile f; TypePrompt text; ClickGenerate]
          ++ [CreateSettles 0 (Rejected err)]).
  rewrite run_app, (submit_form f text Hf Ht).
  cbn [run step submitted_page awaiting nth_error]. unfold handleGenerate_settled.
  assert (match err_name err with
          | Some n => String.eqb n "AbortError"
          | None => false
          end = false) as ->.
  { destruct (err_name err) as [n|]; [|reflexivity].
    destruct (String.eqb_spec n "AbortError") as [->|]; [now elim Hn|reflexivity]. }
  rewrite Hi. reflexivity.
Qed.

Lemma plain_failure_is_final_witness :
  run initial_page [ChooseFile png; TypePrompt " a dog"; ClickGenerate;
                    CreateSettles 0 (Rejected (mkFailure None (Some "Invalid file type")))]
  = Some (settled_page png " a dog" "Invalid file type").
Proof.
  apply (plain_failure_is_final png " a dog" (mkFailure None (Some "Invalid file type")));
    [reflexivity|reflexivity|discriminate|reflexivity].
Defined.

(** X25.  A submission of a checked file and a non-blank prompt that the
    server accepts makes exactly one call, with the trimmed prompt and
    the default style; when the list of recent generations has been
    reloaded the page is idle with no message, the retry counter at 0,
    no timer and no pending call. *)
Theorem accepted_submission_settles :
  forall f text,
    validateFile f = None ->
    truthy (trim text) = true ->
    run initial_page [ChooseFile f; TypePrompt text; ClickGenerate;
                      CreateSettles 0 Fulfilled; RecentLoaded 0]
    = Some (settled_page f text "").
Proof.
  intros f text Hf Ht.
  change [ChooseFile f; TypePrompt text; ClickGenerate; CreateSettles 0 Fulfilled;
          RecentLoaded 0]
    with ([ChooseFile f; TypePrompt text; ClickGenerate]
          ++ [CreateSettles 0 Fulfilled; RecentLoaded 0]).
  rewrite run_app, (submit_form f text Hf Ht). reflexivity.
Qed.

Lemma accepted_submission_settles_witness :
  run initial_page [ChooseFile png; TypePrompt " a dog"; ClickGenerate;
                    CreateSettles 0 Fulfilled; RecentLoaded 0]
  = Some (settled_page png " a dog" "").
Proof.
  apply (accepted_submission_settles png " a dog"); reflexivity.
Defined.

End StudioMoreFacts.

(* ================================================================= *)
(** ** The rate limiter *)

Module RateLimiterFacts.
Import Js RateLimiter.

Local Open Scope N_scope.

Lemma set_same k e s : set k e s k = Some e.
Proof. unfold set. now rewrite String.eqb_refl. Qed.

Lemma set_other k e s k' : k' <> k -> set k e s k' = s k'.
Proof.
  intros H. unfold set. destruct (String.eqb_spec k' k); [contradiction|reflexivity].
Qed.

Lemma serve_cons env s a l :
  serve env s (a :: l)
  = (fst (serve env (fst (rateLimiter env (at_time a) (from a) s)) l),
     (a, snd (rateLimiter env (at_time a) (from a) s))
       :: snd (serve env (fst (rateLimiter env (at_time a) (from a) s)) l)).
Proof.
  cbn [serve]. destruct (rateLimiter env (at_time a) (from a) s) as [s1 r].
  cbn [fst snd]. now destruct (serve env s1 l).
Qed.

(** The entry the middleware writes for its client. *)
Lemma rateLimiter_entry env now req s :
  is_test env = false ->
  exists e,
    fst (rateLimiter env now req s) = set (clientId req) e (cleanup now s)
    /\ (match cleanup now s (clientId req) with
        | Some old => e = mkEntry (S (count old)) (resetTime old)
        | None => e = mkEntry 1 (now + WINDOW_MS)
        end)
    /\ passed (snd (rateLimiter env now req s))
       = negb (MAX_REQUESTS <? count e)%nat
    /\ snd (rateLimiter env now req s)
       = (let h := mkHeaders MAX_REQUESTS (MAX_REQUESTS - count e)%nat
                     (ceil_seconds (resetTime e)) in
          if (MAX_REQUESTS <? count e)%nat then
            Status429 h (mkTooMany "Too many requests, please try again later."
                           (ceil_seconds (resetTime e - now)))
          else Next (Some h)).
Proof.
  intros He. unfold rateLimiter. rewrite He. cbv zeta.
  set (e := match cleanup now s (clientId req) with
            | Some old =>
                if resetTime old <? now then mkEntry 1 (now + WINDOW_MS)
                else mkEntry (S (count old)) (resetTime old)
            | None => mkEntry 1 (now + WINDOW_MS)
            end).
  exists e. split; [now destruct (MAX_REQUESTS <? count e)%nat|].
  split.
  - subst e. unfold cleanup. destruct (s (clientId req)) as [old|]; [|reflexivity].
    destruct (resetTime old <? now) eqn:Hx; [reflexivity|]. now rewrite Hx.
  - split; now destruct (MAX_REQUESTS <? count e)%nat.
Qed.

Lemma cleanup_live now s k e :
  s k = Some e -> now <= resetTime e -> cleanup now s k = Some e.
Proof.
  intros H Hl. unfold cleanup. rewrite H.
  destruct (N.ltb_spec (resetTime e) now); [lia|reflexivity].
Qed.

Lemma let_through_cons c a r rs :
  let_through c ((a, r) :: rs)
  = ((if is_from c a && passed r then 1 else 0) + let_through c rs)%nat.
Proof.
  unfold let_through. cbn [filter fst snd].
  now destruct (is_from c a && passed r).
Qed.

(** While the window of [c] is open, at most what is left of its budget
    gets through. *)
Lemma open_window_bound env c l : forall s e,
  is_test env = false ->
  s c = Some e ->
  (forall a, In a l -> at_time a <= resetTime e) ->
  (let_through c (snd (serve env s l)) <= MAX_REQUESTS - count e)%nat.
Proof.
  induction l as [|a l IH]; intros s e He Hs Hl; [cbn; lia|].
  rewrite serve_cons. cbn [snd]. rewrite let_through_cons.
  destruct (rateLimiter_entry env (at_time a) (from a) s He)
    as (e' & Hst & Hold & Hp & _).
  rewrite Hst, Hp.
  assert (cleanup (at_time a) s c = Some e) as Hc
      by (apply cleanup_live; [exact Hs|apply Hl; now left]).
  unfold is_from. destruct (String.eqb_spec (clientId (from a)) c) as [E|E].
  - rewrite E in *. rewrite Hc in Hold. subst e'. cbn [count resetTime andb].
    specialize (IH (set c (mkEntry (S (count e)) (resetTime e))
                      (cleanup (at_time a) s))
                  (mkEntry (S (count e)) (resetTime e)) He (set_same _ _ _)).
    cbn [count resetTime] in IH.
    assert (forall a0, In a0 l -> at_time a0 <= resetTime e) as Hl'
        by (intros a0 Ha0; apply Hl; now right).
    specialize (IH Hl').
    destruct (Nat.ltb_spec MAX_REQUESTS (S (count e))); cbn [negb]; lia.
  - cbn [andb].
    apply (IH _ e He).
    + rewrite set_other; [exact Hc|]. intros E'. now apply E.
    + intros a0 Ha0. apply Hl. now right.
Qed.

Lemma cleanup_some now s k e :
  cleanup now s k = Some e -> s k = Some e /\ now <= resetTime e.
Proof.
  unfold cleanup. destruct (s k) as [e0|]; [|discriminate].
  destruct (N.ltb_spec (resetTime e0) now); [discriminate|].
  intros [= <-]. split; [reflexivity|lia].
Qed.

Lemma cleanup_budget now s c : (budget (cleanup now s) c <= budget s c)%nat.
Proof.
  unfold budget, cleanup. destruct (s c) as [e|]; [|lia].
  destruct (resetTime e <? now); lia.
Qed.

Lemma window_bound_gen env c t l : forall s,
  is_test env = false ->
  (forall a, In a l -> t <= at_time a <= t + WINDOW_MS) ->
  (let_through c (snd (serve env s l)) <= budget s c + MAX_REQUESTS)%nat.
Proof.
  induction l as [|a l IH]; intros s He Hl; [cbn; lia|].
  rewrite serve_cons. cbn [snd]. rewrite let_through_cons.
  destruct (rateLimiter_entry env (at_time a) (from a) s He)
    as (e' & Hst & Hold & Hp & _).
  rewrite Hst, Hp.
  assert (forall a0, In a0 l -> t <= at_time a0 <= t + WINDOW_MS) as Hl'
      by (intros a0 Ha0; apply Hl; now right).
  assert (t <= at_time a <= t + WINDOW_MS) as Ha by (apply Hl; now left).
  unfold is_from. destruct (String.eqb_spec (clientId (from a)) c) as [E|E].
  - rewrite E in *. cbn [andb].
    destruct (cleanup (at_time a) s c) as [old|] eqn:Hc.
    + subst e'. cbn [count].
      apply cleanup_some in Hc as [Hs _].
      specialize (IH (set c (mkEntry (S (count old)) (resetTime old))
                        (cleanup (at_time a) s)) He Hl').
      unfold budget in *. rewrite set_same in IH. rewrite Hs.
      cbn [count] in IH.
      destruct (Nat.ltb_spec MAX_REQUESTS (S (count old))); cbn [negb]; lia.
    + subst e'. cbn [count].
      pose proof (open_window_bound env c l
                    (set c (mkEntry 1 (at_time a + WINDOW_MS))
                       (cleanup (at_time a) s))
                    (mkEntry 1 (at_time a + WINDOW_MS)) He (set_same _ _ _)) as Hb.
      cbn [count resetTime] in Hb.
      assert (forall a0, In a0 l -> at_time a0 <= at_time a + WINDOW_MS) as Hl2
          by (intros a0 Ha0; specialize (Hl' a0 Ha0); lia).
      specialize (Hb Hl2).
      change (negb (MAX_REQUESTS <? 1)%nat) with true. cbv iota.
      unfold MAX_REQUESTS in *. lia.
  - cbn [andb]. specialize (IH (set (clientId (from a)) e' (cleanup (at_time a) s))
                              He Hl').
    assert (budget (set (clientId (from a)) e' (cleanup (at_time a) s)) c
            = budget (cleanup (at_time a) s) c) as Hb.
    { unfold budget. rewrite set_other; [reflexivity|]. intros E'. now apply E. }
    rewrite Hb in IH. pose proof (cleanup_budget (at_time a) s c). lia.
Qed.

(** X26.  Outside the test environment, of the requests of one client
    that arrive within one span of WINDOW_MS (15 minutes), whatever the
    other clients do and in whatever order the instants come, at most
    MAX_REQUESTS (100) are let through when the store holds no entry of
    that client at the start, and at most twice that number from any
    store at all (the span can straddle the end of one window and the
    start of the next). *)
Theorem window_lets_through_at_most_max :
  forall env s l c t,
    is_test env = false ->
    (forall a, In a l -> t <= at_time a <= t + WINDOW_MS) ->
    (let_through c (snd (serve env s l)) <= 2 * MAX_REQUESTS)%nat
    /\ (s c = None ->
        (let_through c (snd (serve env s l)) <= MAX_REQUESTS)%nat).
Proof.
  intros env s l c t He Hl.
  pose proof (window_bound_gen env c t l s He Hl) as H.
  split.
  - unfold budget in H. destruct (s c); unfold MAX_REQUESTS in *; lia.
  - intros Hs. unfold budget in H. rewrite Hs in H. exact H.
Qed.

Lemma window_lets_through_at_most_max_witness :
  (let_through "10.0.0.1"
     (snd (serve Production empty_store
             (repeat (mkArrival 1700000000000 sample_client) 150)))
   <= MAX_REQUESTS)%nat.
Proof.
  destruct (window_lets_through_at_most_max Production empty_store
              (repeat (mkArrival 1700000000000 sample_client) 150)
              "10.0.0.1" 1700000000000) as [_ H].
  - reflexivity.
  - intros a Ha. apply repeat_spec in Ha. subst a. cbn [at_time].
    unfold WINDOW_MS. lia.
  - apply H. reflexivity.
Defined.

Lemma burst_open env now req n : forall s k,
  is_test env = false ->
  s (clientId req) = Some (mkEntry k (now + WINDOW_MS)) ->
  map snd (snd (serve env s (repeat (mkArrival now req) n)))
  = map (answer now now) (seq (S k) n).
Proof.
  induction n as [|n IH]; intros s k He Hs; [reflexivity|].
  cbn [repeat seq map]. rewrite serve_cons. cbn [snd map at_time from].
  destruct (rateLimiter_entry env now req s He) as (e' & Hst & Hold & _ & Hr).
  rewrite (cleanup_live now s _ _ Hs) in Hold by (cbn [resetTime]; lia).
  cbn [count resetTime] in Hold. subst e'.
  rewrite Hr, Hst. cbn [count resetTime]. f_equal.
  apply IH; [exact He|apply set_same].
Qed.

(** X27.  Outside the test environment, when a client with no live
    entry sends [n] requests at one instant, the [k]-th of them (from 1)
    is let through exactly when [k <= 100]; its headers announce the
    limit 100, [100 - k] remaining requests (0 from the 100th on) and
    the end of the window opened by the first one; the refusals are
    429 answers that tell the client to retry after 900 seconds. *)
Theorem burst_is_cut_at_max :
  forall env now req s n,
    is_test env = false ->
    cleanup now s (clientId req) = None ->
    map snd (snd (serve env s (repeat (mkArrival now req) n)))
    = map (answer now now) (seq 1 n)
    /\ ceil_seconds (now + WINDOW_MS - now) = 900.
Proof.
  intros env now req s n He Hc. split.
  - destruct n as [|n]; [reflexivity|].
    cbn [repeat seq map]. rewrite serve_cons. cbn [snd map at_time from].
    destruct (rateLimiter_entry env now req s He) as (e' & Hst & Hold & _ & Hr).
    rewrite Hc in Hold. subst e'. rewrite Hr, Hst. cbn [count resetTime].
    f_equal. apply burst_open; [exact He|apply set_same].
  - replace (now + WINDOW_MS - now) with WINDOW_MS by lia. reflexivity.
Qed.

Lemma burst_is_cut_at_max_witness :
  map snd (snd (serve Production empty_store
                  (repeat (mkArrival 1700000000000 sample_client) 101)))
  = map (answer 1700000000000 1700000000000) (seq 1 101)
  /\ answer 1700000000000 1700000000000 101
     = Status429 (mkHeaders 100 0 1700000900)
         (mkTooMany "Too many requests, please try again later." 900).
Proof.
  split.
  - apply (burst_is_cut_at_max Production 1700000000000 sample_client
             empty_store 101); reflexivity.
  - vm_compute. reflexivity.
Defined.

Lemma ceil_seconds_window x : x <= WINDOW_MS -> ceil_seconds x <= 900.
Proof.
  unfold ceil_seconds, WINDOW_MS. intros H.
  assert ((x + 999) / 1000 < 901) by (apply N.Div0.div_lt_upper_bound; lia).
  lia.
Qed.

Lemma opened_by_step env now req s t :
  is_test env = false ->
  opened_by t s -> t <= now ->
  opened_by now (fst (rateLimiter env now req s))
  /\ (forall h body,
        snd (rateLimiter env now req s) = Status429 h body ->
        retryAfter body <= 900
        /\ X_RateLimit_Remaining h = 0%nat
        /\ X_RateLimit_Limit h = MAX_REQUESTS)
  /\ (forall h,
        snd (rateLimiter env now req s) = Next h ->
        exists h', h = Some h'
                   /\ (X_RateLimit_Remaining h' < MAX_REQUESTS)%nat
                   /\ X_RateLimit_Limit h' = MAX_REQUESTS).
Proof.
  intros He Ho Ht.
  destruct (rateLimiter_entry env now req s He) as (e' & Hst & Hold & _ & Hr).
  assert (resetTime e' <= now + WINDOW_MS /\ (1 <= count e')%nat) as [Hre Hce].
  { destruct (cleanup now s (clientId req)) as [old|] eqn:Hc.
    - subst e'. cbn [count resetTime]. apply cleanup_some in Hc as [Hs _].
      destruct (Ho _ _ Hs). split; lia.
    - subst e'. cbn [count resetTime]. split; lia. }
  assert (now <= resetTime e') as Hlive.
  { destruct (cleanup now s (clientId req)) as [old|] eqn:Hc.
    - subst e'. cbn [resetTime]. now apply cleanup_some in Hc as [_ Hc].
    - subst e'. cbn [resetTime]. lia. }
  rewrite Hst, Hr. cbv zeta.
  remember (MAX_REQUESTS - count e')%nat as m eqn:Hm.
  split; [|split].
  - intros k e. unfold set. destruct (String.eqb k (clientId req)).
    + intros [= <-]. split; assumption.
    + intros Hk. apply cleanup_some in Hk as [Hk _]. destruct (Ho _ _ Hk).
      split; lia.
  - intros h body. destruct (Nat.ltb_spec MAX_REQUESTS (count e')); [|discriminate].
    intros [= <- <-]. cbn [retryAfter X_RateLimit_Remaining X_RateLimit_Limit].
    split; [apply ceil_seconds_window; lia|]. split; [lia|reflexivity].
  - intros h. destruct (Nat.ltb_spec MAX_REQUESTS (count e')); [discriminate|].
    intros [= <-]. eexists. split; [reflexivity|].
    cbn [X_RateLimit_Remaining X_RateLimit_Limit]. split; [|reflexivity].
    unfold MAX_REQUESTS in *. lia.
Qed.

Lemma answers_gen env l : forall s t,
  is_test env = false ->
  opened_by t s -> ordered t l ->
  forall a r, In (a, r) (snd (serve env s l)) ->
    match r with
    | Status429 h body =>
        retryAfter body <= 900
        /\ X_RateLimit_Remaining h = 0%nat
        /\ X_RateLimit_Limit h = MAX_REQUESTS
    | Next h =>
        exists h', h = Some h'
                   /\ (X_RateLimit_Remaining h' < MAX_REQUESTS)%nat
                   /\ X_RateLimit_Limit h' = MAX_REQUESTS
    end.
Proof.
  induction l as [|a0 l IH]; intros s t He Ho Hord a r Hin; [destruct Hin|].
  rewrite serve_cons in Hin. cbn [snd] in Hin. destruct Hord as [Ht Hord].
  destruct (opened_by_step env (at_time a0) (from a0) s t He Ho Ht)
    as (Ho' & H429 & Hnext).
  destruct Hin as [Hin|Hin].
  - injection Hin as _ Hr. destruct r as [h|h body].
    + now apply Hnext.
    + now apply H429.
  - exact (IH _ _ He Ho' Hord a r Hin).
Qed.

(** X28.  Outside the test environment, from the empty store and with
    instants that never go back, every answer carries the limit 100;
    a request that is let through is told that fewer than 100 requests
    remain, and a refused one gets 0 remaining and a [retryAfter] of at
    most 900 seconds, the length of the window. *)
Theorem refusals_ask_for_at_most_a_window :
  forall env l a r,
    is_test env = false ->
    ordered 0 l ->
    In (a, r) (snd (serve env empty_store l)) ->
    match r with
    | Status429 h body =>
        retryAfter body <= 900
        /\ X_RateLimit_Remaining h = 0%nat
        /\ X_RateLimit_Limit h = MAX_REQUESTS
    | Next h =>
        exists h', h = Some h'
                   /\ (X_RateLimit_Remaining h' < MAX_REQUESTS)%nat
                   /\ X_RateLimit_Limit h' = MAX_REQUESTS
    end.
Proof.
  intros env l a r He Hord Hin.
  assert (opened_by 0 empty_store) as Ho by (intros k e; discriminate).
  exact (answers_gen env l empty_store 0 He Ho Hord a r Hin).
Qed.

Lemma serve_test env l : forall s,
  is_test env = true ->
  serve env s l = (s, map (fun a => (a, Next None)) l).
Proof.
  induction l as [|a l IH]; intros s He; [reflexivity|].
  rewrite serve_cons. unfold rateLimiter. rewrite He. cbn [fst snd map].
  now rewrite (IH s He).
Qed.

Lemma agree_later c t t' s s' : t <= t' -> agree c t s s' -> agree c t' s s'.
Proof. intros Ht H now Hn. apply H. lia. Qed.

Lemma cleanup_cleanup now now' s k :
  now <= now' -> cleanup now' (cleanup now s) k = cleanup now' s k.
Proof.
  intros H. unfold cleanup. destruct (s k) as [e|]; [|reflexivity].
  destruct (N.ltb_spec (resetTime e) now).
  - destruct (N.ltb_spec (resetTime e) now'); [reflexivity|lia].
  - reflexivity.
Qed.

Lemma isolation_gen env c l : forall s s' t,
  is_test env = false ->
  ordered t l -> agree c t s s' ->
  filter (fun ar => is_from c (fst ar)) (snd (serve env s l))
  = snd (serve env s' (filter (is_from c) l)).
Proof.
  induction l as [|a l IH]; intros s s' t He Hord Hag; [reflexivity|].
  destruct Hord as [Ht Hord].
  rewrite serve_cons. cbn [snd filter fst].
  destruct (rateLimiter_entry env (at_time a) (from a) s He)
    as (e1 & Hst1 & Hold1 & _ & Hr1).
  destruct (is_from c a) eqn:Hc.
  - unfold is_from in Hc. apply String.eqb_eq in Hc.
    rewrite serve_cons. cbn [snd].
    destruct (rateLimiter_entry env (at_time a) (from a) s' He)
      as (e2 & Hst2 & Hold2 & _ & Hr2).
    assert (e1 = e2) as <-.
    { rewrite Hc in Hold1, Hold2. rewrite <- (Hag (at_time a) Ht) in Hold2.
      destruct (cleanup (at_time a) s c); congruence. }
    rewrite Hr1, Hr2. f_equal.
    apply (IH _ _ (at_time a) He Hord).
    intros now Hn. unfold cleanup. rewrite Hst1, Hst2, Hc.
    now rewrite !set_same.
  - unfold is_from in Hc. apply String.eqb_neq in Hc.
    apply (IH _ _ (at_time a) He Hord).
    intros now Hn. rewrite Hst1.
    transitivity (cleanup now (cleanup (at_time a) s) c).
    + unfold cleanup at 1 3. rewrite set_other; [reflexivity|].
      intros E'. now apply Hc.
    + rewrite cleanup_cleanup by exact Hn. apply Hag. lia.
Qed.

(** X29.  When the instants never go back, what a client is answered
    (let through or refused, with which headers and which [retryAfter])
    depends on its own requests only: the answers to its requests within
    any traffic are the answers it would get if it were alone. *)
Theorem clients_do_not_interfere :
  forall env s l c t,
    ordered t l ->
    filter (fun ar => is_from c (fst ar)) (snd (serve env s l))
    = snd (serve env s (filter (is_from c) l)).
Proof.
  intros env s l c t Hord. destruct (is_test env) eqn:He.
  - rewrite !serve_test by exact He. cbn [snd]. clear Hord.
    induction l as [|a l IH]; [reflexivity|]. cbn [map filter fst].
    destruct (is_from c a); cbn [map]; now rewrite IH.
  - apply (isolation_gen env c l s s t He Hord). intros now _. reflexivity.
Qed.

Lemma clients_do_not_interfere_witness :
  ordered 0 sample_arrivals
  /\ filter (fun ar => is_from "10.0.0.1" (fst ar))
       (snd (serve Production empty_store sample_arrivals))
     = snd (serve Production empty_store
              [mkArrival 1700000000000 sample_client;
               mkArrival 1700000001000 sample_client;
               mkArrival 1700000900002 sample_client]).
Proof.
  assert (ordered 0 sample_arrivals) as H by (cbn; lia).
  split; [exact H|].
  exact (clients_do_not_interfere Production empty_store sample_arrivals
           "10.0.0.1" 0 H).
Defined.

Lemma refusals_ask_for_at_most_a_window_witness :
  ordered 0 (repeat (mkArrival 5 sample_client) 3)
  /\ exists h', Some (mkHeaders 100 99 901) = Some h'
                /\ (X_RateLimit_Remaining h' < MAX_REQUESTS)%nat
                /\ X_RateLimit_Limit h' = MAX_REQUESTS.
Proof.
  assert (ordered 0 (repeat (mkArrival 5 sample_client) 3)) as H
      by (cbn; lia).
  split; [exact H|].
  apply (refusals_ask_for_at_most_a_window Production
           (repeat (mkArrival 5 sample_client) 3)
           (mkArrival 5 sample_client) (Next (Some (mkHeaders 100 99 901)))).
  - reflexivity.
  - exact H.
  - left. reflexivity.
Defined.

End RateLimiterFacts.

(* ================================================================= *)
(** ** The signup form *)

Module SignupFormFacts.
Import Js ErrorHandler Validation AuthController SignupForm.

Lemma class_of_char c :
  is_lower c = true \/ is_upper c = true \/ is_digit c = true \/ is_other c = true.
Proof.
  unfold is_other. destruct (is_upper c), (is_lower c), (is_digit c); cbn; auto.
Qed.

Lemma class_of_string s :
  s <> "" ->
  test is_lower s = true \/ test is_upper s = true
  \/ test is_digit s = true \/ test is_other s = true.
Proof.
  destruct s as [|c s]; [intros H; now elim H|]. intros _. cbn [test].
  destruct (class_of_char c) as [H|[H|[H|H]]]; rewrite H; cbn [orb]; auto.
Qed.

(** X30.  A signup form that the page lets through has two equal
    passwords of at least 6 characters, which the strength meter rates
    between 2 and 5; the server's schema then has no objection to the
    password, and accepts the body exactly when the e-mail address has
    the format zod asks for, which the page does not check. *)
Theorem accepted_signup_form :
  forall is_email f,
    validateForm f = None ->
    password f = confirmPassword f
    /\ 2 <= fst (getPasswordStrength (password f)) <= 5
    /\ Accounts.signup_password_issues (Str (password f)) = []
    /\ Accounts.signupSchema_parse is_email
         (mkLoginBody (Str (email f)) (Str (password f)))
       = (if is_email (email f) then Resolve (email f, password f)
          else Reject (ZodError ["Invalid email format"]
                         "Invalid email format" 10)).
Proof.
  intros is_email f. unfold validateForm.
  destruct (negb (truthy (email f)) || negb (truthy (password f))
            || negb (truthy (confirmPassword f))); [discriminate|].
  destruct (Nat.ltb_spec (String.length (password f)) 6) as [|Hlen];
    [discriminate|].
  destruct (String.eqb_spec (password f) (confirmPassword f)) as [Heq|];
    [|discriminate].
  intros _. split; [exact Heq|].
  assert ((String.length (password f) <? 6) = false) as Hlt
      by (apply Nat.ltb_ge; exact Hlen).
  split; [|split].
  - unfold getPasswordStrength. cbn [fst].
    assert (password f <> "") as Hne
        by (intros E; rewrite E in Hlen; cbn in Hlen; lia).
    assert ((6 <=? String.length (password f)) = true) as ->
        by (apply Nat.leb_le; exact Hlen).
    destruct (class_of_string _ Hne) as [H|[H|[H|H]]]; rewrite H;
      repeat match goal with
             | |- context [test ?c ?s] => destruct (test c s)
             end; cbn; lia.
  - cbn [Accounts.signup_password_issues]. now rewrite Hlt.
  - unfold Accounts.signupSchema_parse.
    cbn [lb_email lb_password email_issues Accounts.signup_password_issues].
    rewrite Hlt. destruct (is_email (email f)); reflexivity.
Qed.

Lemma accepted_signup_form_witness :
  validateForm sample_form = None
  /\ 2 <= fst (getPasswordStrength (password sample_form)) <= 5.
Proof.
  assert (validateForm sample_form = None) as H by reflexivity.
  split; [exact H|].
  destruct (accepted_signup_form (fun _ => true) sample_form H) as (_ & Hs & _).
  exact Hs.
Defined.

End SignupFormFacts.
